(** * ai-todo: the extraction and analysis route handlers

    A shallow embedding of the two server route handlers
    ([/api/generate-todo] and [/api/analyze-todos]) and of the priority
    handling of the task form ([TodoForm.handleAiGenerate]), together with
    the JavaScript built-ins they rely on ([String.prototype.trim],
    [replace], [substring], [JSON.parse], [Date]).

    JavaScript strings are sequences of UTF-16 code units; [length],
    [substring] and the regular expressions of the handlers all work on
    code units, so a string is a [list N] here. *)

From Stdlib Require Import List ZArith NArith String Ascii Bool Lia.
Import ListNotations.

(* ================================================================== *)
(** ** JavaScript strings *)
(* ================================================================== *)

Definition jsstring := list N.

Module Utf.
(** Source literals are written in UTF-8; [u16] re-encodes such a literal
    into the UTF-16 code units the JavaScript engine holds. *)

Definition emit (cp : N) : jsstring :=
  if (cp <? 65536)%N then [cp]
  else let v := (cp - 65536)%N in
       [(55296 + v / 1024)%N; (56320 + v mod 1024)%N].

Fixpoint decode (need : nat) (acc : N) (s : string) : jsstring :=
  match s with
  | EmptyString => []
  | String a r =>
      let b := N_of_ascii a in
      match need with
      | O =>
          if (b <? 128)%N then b :: decode 0 0%N r
          else if (b <? 224)%N then decode 1 (b mod 32)%N r
          else if (b <? 240)%N then decode 2 (b mod 16)%N r
          else decode 3 (b mod 8)%N r
      | S O => emit (acc * 64 + b mod 64)%N ++ decode 0 0%N r
      | S n => decode n (acc * 64 + b mod 64)%N r
      end
  end.
End Utf.

Definition u16 (s : string) : jsstring := Utf.decode 0 0%N s.

(** [a === b] on strings. *)
Fixpoint str_eqb (a b : jsstring) : bool :=
  match a, b with
  | [], [] => true
  | x :: a', y :: b' => (x =? y)%N && str_eqb a' b'
  | _, _ => false
  end.

(** [s.length] *)
Definition js_length (s : jsstring) : Z := Z.of_nat (List.length s).

(** [s.substring(0, n)] for a literal [n >= 0]. *)
Definition substring0 (n : nat) (s : jsstring) : jsstring := firstn n s.

(** [s.startsWith(pat)] *)
Fixpoint starts_with (pat s : jsstring) : bool :=
  match pat, s with
  | [], _ => true
  | _ :: _, [] => false
  | p :: pat', c :: s' => (p =? c)%N && starts_with pat' s'
  end.

(** [s.includes(pat)] *)
Fixpoint includes (pat s : jsstring) : bool :=
  starts_with pat s ||
  match s with
  | [] => false
  | _ :: s' => includes pat s'
  end.

(** The ECMAScript [WhiteSpace] and [LineTerminator] code units: the class
    removed by [trim] and matched by the regular-expression escape [\s]. *)
Definition is_ws (c : N) : bool :=
  ((9 <=? c) && (c <=? 13) || (c =? 32) || (c =? 160) || (c =? 5760)
   || (8192 <=? c) && (c <=? 8202) || (c =? 8232) || (c =? 8233)
   || (c =? 8239) || (c =? 8287) || (c =? 12288) || (c =? 65279))%N.

Fixpoint drop_ws (s : jsstring) : jsstring :=
  match s with
  | [] => []
  | c :: r => if is_ws c then drop_ws r else s
  end.

(** [s.trim()] *)
Definition trim (s : jsstring) : jsstring := rev (drop_ws (rev (drop_ws s))).

(** [s.replace(/\s+/g, ' ')]: every maximal run of white space becomes one
    space.  [in_run] records that the previous code unit belonged to a run
    that has already been replaced. *)
Fixpoint collapse_ws (in_run : bool) (s : jsstring) : jsstring :=
  match s with
  | [] => []
  | c :: r =>
      if is_ws c
      then (if in_run then collapse_ws true r else 32%N :: collapse_ws true r)
      else c :: collapse_ws false r
  end.

(** [prompt.trim().replace(/\s+/g, ' ')] *)
Definition normalize (s : jsstring) : jsstring := collapse_ws false (trim s).

(* ================================================================== *)
(** ** JSON values *)
(* ================================================================== *)

(** A number is kept as the decimal the text denotes,
    [(-1)^dneg * dmant * 10^dexp]; the engine rounds it to a double, and
    the operations below that depend on the rounding say so. *)
Record decimal := { dneg : bool; dmant : N; dexp : Z }.

Set Warnings "-register-all".

(** The values [JSON.parse] can build.  An object is the list of its own
    properties in enumeration order; keys are unique. *)
Inductive json :=
| JNull
| JBool (b : bool)
| JNum (d : decimal)
| JStr (s : jsstring)
| JArr (l : list json)
| JObj (m : list (jsstring * json)).

Definition props := list (jsstring * json).

(** Own-property read [o[k]]; [None] is [undefined]. *)
Fixpoint obj_get (k : jsstring) (m : props) : option json :=
  match m with
  | [] => None
  | (k', v) :: r => if str_eqb k k' then Some v else obj_get k r
  end.

(** An array index is the canonical decimal form of an integer below
    [2^32 - 1]; objects enumerate such keys first, in ascending order. *)
Fixpoint decimal_value (acc : N) (s : jsstring) : option N :=
  match s with
  | [] => Some acc
  | c :: r =>
      if ((48 <=? c) && (c <=? 57))%N
      then decimal_value (acc * 10 + (c - 48))%N r
      else None
  end.

Definition array_index (k : jsstring) : option N :=
  match k with
  | [] => None
  | [48%N] => Some 0%N
  | 48%N :: _ => None
  | _ =>
      if (List.length k <=? 10)%nat then
        match decimal_value 0 k with
        | Some i => if (i <? 4294967295)%N then Some i else None
        | None => None
        end
      else None
  end.

Fixpoint obj_has (k : jsstring) (m : props) : bool :=
  match m with
  | [] => false
  | (k', _) :: r => str_eqb k k' || obj_has k r
  end.

Fixpoint obj_replace (k : jsstring) (v : json) (m : props) : props :=
  match m with
  | [] => []
  | (k', v') :: r =>
      if str_eqb k k' then (k', v) :: r else (k', v') :: obj_replace k v r
  end.

Fixpoint obj_insert_index (i : N) (k : jsstring) (v : json) (m : props) : props :=
  match m with
  | [] => [(k, v)]
  | (k', v') :: r =>
      match array_index k' with
      | Some j =>
          if (i <? j)%N then (k, v) :: m else (k', v') :: obj_insert_index i k v r
      | None => (k, v) :: m
      end
  end.

(** Assignment [o[k] = v]: an existing property keeps its place; a new one
    is enumerated after the existing ones, except that array indices come
    first and in ascending order. *)
Definition obj_set (k : jsstring) (v : json) (m : props) : props :=
  if obj_has k m then obj_replace k v m
  else match array_index k with
       | Some i => obj_insert_index i k v m
       | None => m ++ [(k, v)]
       end.

(** A positive decimal rounds to the double [0] exactly when it is at most
    [2^-1075], half of the least subnormal (round to nearest, ties to
    even). *)
Definition rounds_to_zero (d : decimal) : bool :=
  (dmant d =? 0)%N ||
  (if (dexp d <? 0)%Z
   then (Z.of_N (dmant d) * 2 ^ 1075 <=? 10 ^ (- dexp d))%Z
   else false).

(** [ToBoolean] on a parsed value; [undefined] is handled by the caller. *)
Definition truthy (v : json) : bool :=
  match v with
  | JNull => false
  | JBool b => b
  | JNum d => negb (rounds_to_zero d)
  | JStr s => match s with [] => false | _ => true end
  | JArr _ => true
  | JObj _ => true
  end.

(** The value of an expression known not to be [undefined]: every use
    below is guarded by a truthiness test. *)
Definition defined (x : option json) : json :=
  match x with
  | Some v => v
  | None => JNull
  end.

(** [!x] for a possibly undefined [x]. *)
Definition falsy (x : option json) : bool :=
  match x with
  | None => true
  | Some v => negb (truthy v)
  end.

(* ================================================================== *)
(** ** [JSON.parse] *)
(* ================================================================== *)

(** The JSON grammar of ECMA-404, read by a scanner that consumes one code
    unit at a time and a recursive-descent reader of the tokens. *)
Module Json.

Inductive token :=
| TLBrace | TRBrace | TLBrack | TRBrack | TColon | TComma
| TString (s : jsstring)
| TNumber (d : decimal)
| TTrue | TFalse | TNull.

(** Where the scanner stands inside a number: an optional minus sign,
    an integer part (a single 0, or digits that do not start with 0), an
    optional fraction (a point and digits), an optional exponent (e or E,
    an optional sign, digits). *)
Inductive numst := NMinus | NZero | NInt | NDot | NFrac | NE | NESign | NExp.

Record numacc := {
  n_neg : bool;    (* leading minus sign *)
  n_mant : N;      (* the digits read so far, without the point *)
  n_scale : N;     (* how many of them follow the point *)
  n_eneg : bool;   (* sign of the exponent *)
  n_exp : N        (* the exponent digits *)
}.

Definition num0 (neg : bool) (m : N) : numacc :=
  {| n_neg := neg; n_mant := m; n_scale := 0; n_eneg := false; n_exp := 0 |}.

Definition num_value (a : numacc) : decimal :=
  {| dneg := n_neg a;
     dmant := n_mant a;
     dexp := ((if n_eneg a then - Z.of_N (n_exp a) else Z.of_N (n_exp a))
              - Z.of_N (n_scale a))%Z |}.

Inductive lstate :=
| LOut                                       (* between tokens *)
| LStr (acc : jsstring)                      (* inside a string; [acc] reversed *)
| LEsc (acc : jsstring)                      (* after a backslash *)
| LHex (acc : jsstring) (k : nat) (v : N)    (* [k] more hex digits to come *)
| LLit (rest : jsstring) (t : token)         (* inside true, false or null *)
| LNum (st : numst) (a : numacc).

Local Open Scope N_scope.

Definition is_json_ws (c : N) : bool :=
  (c =? 9) || (c =? 10) || (c =? 13) || (c =? 32).

Definition is_digit (c : N) : bool := (48 <=? c) && (c <=? 57).

Definition hex_value (c : N) : option N :=
  if (48 <=? c) && (c <=? 57) then Some (c - 48)
  else if (65 <=? c) && (c <=? 70) then Some (c - 55)
  else if (97 <=? c) && (c <=? 102) then Some (c - 87)
  else None.

(** A code unit met between tokens. *)
Definition step_out (c : N) : option (lstate * list token) :=
  if is_json_ws c then Some (LOut, [])
  else if c =? 123 then Some (LOut, [TLBrace])          (* { *)
  else if c =? 125 then Some (LOut, [TRBrace])          (* } *)
  else if c =? 91 then Some (LOut, [TLBrack])           (* [ *)
  else if c =? 93 then Some (LOut, [TRBrack])           (* ] *)
  else if c =? 58 then Some (LOut, [TColon])            (* : *)
  else if c =? 44 then Some (LOut, [TComma])            (* , *)
  else if c =? 34 then Some (LStr [], [])               (* double quote *)
  else if c =? 45 then Some (LNum NMinus (num0 true 0), [])   (* - *)
  else if c =? 48 then Some (LNum NZero (num0 false 0), [])
  else if is_digit c then Some (LNum NInt (num0 false (c - 48)), [])
  else if c =? 116 then Some (LLit [114; 117; 101] TTrue, [])        (* t rue *)
  else if c =? 102 then Some (LLit [97; 108; 115; 101] TFalse, [])   (* f alse *)
  else if c =? 110 then Some (LLit [117; 108; 108] TNull, [])        (* n ull *)
  else None.

(** The number is complete; [c] is read again as a code unit between
    tokens. *)
Definition finish_num (a : numacc) (c : N) : option (lstate * list token) :=
  match step_out c with
  | Some (st, ts) => Some (st, TNumber (num_value a) :: ts)
  | None => None
  end.

Definition push_digit (a : numacc) (c : N) : numacc :=
  {| n_neg := n_neg a; n_mant := n_mant a * 10 + (c - 48);
     n_scale := n_scale a; n_eneg := n_eneg a; n_exp := n_exp a |}.

Definition push_frac (a : numacc) (c : N) : numacc :=
  {| n_neg := n_neg a; n_mant := n_mant a * 10 + (c - 48);
     n_scale := n_scale a + 1; n_eneg := n_eneg a; n_exp := n_exp a |}.

Definition push_exp (a : numacc) (c : N) : numacc :=
  {| n_neg := n_neg a; n_mant := n_mant a;
     n_scale := n_scale a; n_eneg := n_eneg a; n_exp := n_exp a * 10 + (c - 48) |}.

Definition neg_exp (a : numacc) : numacc :=
  {| n_neg := n_neg a; n_mant := n_mant a;
     n_scale := n_scale a; n_eneg := true; n_exp := n_exp a |}.

Definition is_e (c : N) : bool := (c =? 101) || (c =? 69).

Definition step_num (st : numst) (a : numacc) (c : N)
  : option (lstate * list token) :=
  match st with
  | NMinus =>
      if c =? 48 then Some (LNum NZero a, [])
      else if is_digit c then Some (LNum NInt (push_digit a c), [])
      else None
  | NZero =>
      if c =? 46 then Some (LNum NDot a, [])
      else if is_e c then Some (LNum NE a, [])
      else finish_num a c
  | NInt =>
      if is_digit c then Some (LNum NInt (push_digit a c), [])
      else if c =? 46 then Some (LNum NDot a, [])
      else if is_e c then Some (LNum NE a, [])
      else finish_num a c
  | NDot =>
      if is_digit c then Some (LNum NFrac (push_frac a c), []) else None
  | NFrac =>
      if is_digit c then Some (LNum NFrac (push_frac a c), [])
      else if is_e c then Some (LNum NE a, [])
      else finish_num a c
  | NE =>
      if c =? 43 then Some (LNum NESign a, [])
      else if c =? 45 then Some (LNum NESign (neg_exp a), [])
      else if is_digit c then Some (LNum NExp (push_exp a c), [])
      else None
  | NESign =>
      if is_digit c then Some (LNum NExp (push_exp a c), []) else None
  | NExp =>
      if is_digit c then Some (LNum NExp (push_exp a c), [])
      else finish_num a c
  end.

(** The code unit an escape letter stands for. *)
Definition escape (c : N) : option N :=
  if c =? 34 then Some 34            (* double quote *)
  else if c =? 92 then Some 92       (* backslash *)
  else if c =? 47 then Some 47       (* slash *)
  else if c =? 98 then Some 8        (* letter b *)
  else if c =? 102 then Some 12      (* letter f *)
  else if c =? 110 then Some 10      (* letter n *)
  else if c =? 114 then Some 13      (* letter r *)
  else if c =? 116 then Some 9       (* letter t *)
  else None.

Definition step (st : lstate) (c : N) : option (lstate * list token) :=
  match st with
  | LOut => step_out c
  | LStr acc =>
      if c =? 34 then Some (LOut, [TString (rev acc)])
      else if c =? 92 then Some (LEsc acc, [])
      else if c <? 32 then None
      else Some (LStr (c :: acc), [])
  | LEsc acc =>
      if c =? 117 then Some (LHex acc 3 0, [])       (* letter u *)
      else match escape c with
           | Some e => Some (LStr (e :: acc), [])
           | None => None
           end
  | LHex acc k v =>
      match hex_value c with
      | Some h =>
          match k with
          | O => Some (LStr ((v * 16 + h) :: acc), [])
          | S k' => Some (LHex acc k' (v * 16 + h), [])
          end
      | None => None
      end
  | LLit rest t =>
      match rest with
      | [] => None
      | [x] => if c =? x then Some (LOut, [t]) else None
      | x :: rest' => if c =? x then Some (LLit rest' t, []) else None
      end
  | LNum st a => step_num st a c
  end.

(** End of the text. *)
Definition finish (st : lstate) : option (list token) :=
  match st with
  | LOut => Some []
  | LNum NZero a | LNum NInt a | LNum NFrac a | LNum NExp a =>
      Some [TNumber (num_value a)]
  | _ => None
  end.

Fixpoint scan (st : lstate) (s : jsstring) : option (list token) :=
  match s with
  | [] => finish st
  | c :: r =>
      match step st c with
      | Some (st', ts) =>
          match scan st' r with
          | Some ts' => Some (ts ++ ts')
          | None => None
          end
      | None => None
      end
  end.

(** The state reached, and the tokens produced, after reading [s]. *)
Fixpoint run (st : lstate) (s : jsstring) : option (lstate * list token) :=
  match s with
  | [] => Some (st, [])
  | c :: r =>
      match step st c with
      | Some (st', ts) =>
          match run st' r with
          | Some (st'', ts') => Some (st'', ts ++ ts')
          | None => None
          end
      | None => None
      end
  end.

(** The states the scanner can be in: the rest of a literal is made of
    lower-case letters. *)
Definition settled (st : lstate) : Prop :=
  match st with
  | LLit rest _ => forallb (fun c => (97 <=? c) && (c <=? 122)) rest = true
  | _ => True
  end.

(** The reader.  Every call consumes a token, so the number of tokens
    bounds the depth. *)
Fixpoint value (fuel : nat) (ts : list token) : option (json * list token) :=
  match fuel with
  | O => None
  | S f =>
      match ts with
      | TNull :: r => Some (JNull, r)
      | TTrue :: r => Some (JBool true, r)
      | TFalse :: r => Some (JBool false, r)
      | TString s :: r => Some (JStr s, r)
      | TNumber d :: r => Some (JNum d, r)
      | TLBrack :: TRBrack :: r => Some (JArr [], r)
      | TLBrack :: r =>
          match value f r with
          | Some (v, r1) => elements f [v] r1
          | None => None
          end
      | TLBrace :: TRBrace :: r => Some (JObj [], r)
      | TLBrace :: TString k :: TColon :: r =>
          match value f r with
          | Some (v, r1) => members f [(k, v)] r1
          | None => None
          end
      | _ => None
      end
  end
with elements (fuel : nat) (acc : list json) (ts : list token)
  : option (json * list token) :=
  match fuel with
  | O => None
  | S f =>
      match ts with
      | TRBrack :: r => Some (JArr (rev acc), r)
      | TComma :: r =>
          match value f r with
          | Some (v, r1) => elements f (v :: acc) r1
          | None => None
          end
      | _ => None
      end
  end
with members (fuel : nat) (acc : props) (ts : list token)
  : option (json * list token) :=
  match fuel with
  | O => None
  | S f =>
      match ts with
      | TRBrace :: r => Some (JObj acc, r)
      | TComma :: TString k :: TColon :: r =>
          match value f r with
          | Some (v, r1) => members f (obj_set k v acc) r1
          | None => None
          end
      | _ => None
      end
  end.

Definition read (ts : list token) : option json :=
  match value (S (List.length ts)) ts with
  | Some (v, []) => Some v
  | _ => None
  end.

(** [JSON.parse(text)]; [None] is the [SyntaxError]. *)
Definition parse (text : jsstring) : option json :=
  match scan LOut text with
  | Some ts => read ts
  | None => None
  end.

End Json.

Definition JSON_parse := Json.parse.

(* ================================================================== *)
(** ** [Date]: time values, the calendar, and the date-only format *)
(* ================================================================== *)

(** A time value is a number of milliseconds since 1970-01-01T00:00Z.  The
    calendar follows the definitions of the ECMAScript specification
    (Day, DayFromYear, YearFromTime, MonthFromTime, DateFromTime,
    MakeDay). *)
Module Calendar.
Local Open Scope Z_scope.

Definition msPerDay : Z := 86400000.

Definition Day (t : Z) : Z := t / msPerDay.

Definition DayFromYear (y : Z) : Z :=
  365 * (y - 1970) + (y - 1969) / 4 - (y - 1901) / 100 + (y - 1601) / 400.

Definition is_leap (y : Z) : bool :=
  ((y mod 4 =? 0) && negb (y mod 100 =? 0)) || (y mod 400 =? 0).

Definition DaysInYear (y : Z) : Z := if is_leap y then 366 else 365.

(** The largest [y] with [DayFromYear y <= d]: an estimate from the mean
    length of a year, corrected by at most one. *)
Definition year_of_day (d : Z) : Z :=
  let y := 1970 + d * 400 / 146097 in
  if d <? DayFromYear y then y - 1
  else if DayFromYear (y + 1) <=? d then y + 1
  else y.

Definition YearFromTime (t : Z) : Z := year_of_day (Day t).

(** Number of days of the year before month [m] (0 is January). *)
Definition days_before_month (leap : bool) (m : Z) : Z :=
  let l := if leap then 1 else 0 in
  if m <=? 0 then 0
  else if m =? 1 then 31
  else if m =? 2 then 59 + l
  else if m =? 3 then 90 + l
  else if m =? 4 then 120 + l
  else if m =? 5 then 151 + l
  else if m =? 6 then 181 + l
  else if m =? 7 then 212 + l
  else if m =? 8 then 243 + l
  else if m =? 9 then 273 + l
  else if m =? 10 then 304 + l
  else 334 + l.

(** Month (0 is January) of the [n]-th day of a year. *)
Definition month_of_year_day (leap : bool) (n : Z) : Z :=
  let l := if leap then 1 else 0 in
  if n <? 31 then 0
  else if n <? 59 + l then 1
  else if n <? 90 + l then 2
  else if n <? 120 + l then 3
  else if n <? 151 + l then 4
  else if n <? 181 + l then 5
  else if n <? 212 + l then 6
  else if n <? 243 + l then 7
  else if n <? 273 + l then 8
  else if n <? 304 + l then 9
  else if n <? 334 + l then 10
  else 11.

Definition DayWithinYear (t : Z) : Z := Day t - DayFromYear (YearFromTime t).

Definition MonthFromTime (t : Z) : Z :=
  month_of_year_day (is_leap (YearFromTime t)) (DayWithinYear t).

Definition DateFromTime (t : Z) : Z :=
  DayWithinYear t
  - days_before_month (is_leap (YearFromTime t)) (MonthFromTime t) + 1.

(** Length of month [m] (0 is January) of year [y]. *)
Definition days_in_month (y m : Z) : Z :=
  if m =? 1 then (if is_leap y then 29 else 28)
  else if (m =? 3) || (m =? 5) || (m =? 8) || (m =? 10) then 30
  else 31.

(** [MakeDay(year, month, date)] for a month in 0..11. *)
Definition MakeDay (y m d : Z) : Z :=
  DayFromYear y + days_before_month (is_leap y) m + d - 1.

(** The [n] low decimal digits of [v], most significant first. *)
Fixpoint digits (n : nat) (v : Z) : jsstring :=
  match n with
  | O => []
  | S n' => digits n' (v / 10) ++ [Z.to_N (48 + v mod 10)]
  end.

(** [new Date(t).toISOString().split('T')[0]]: the UTC calendar date,
    with the expanded six-digit year outside 0..9999. *)
Definition iso_date (t : Z) : jsstring :=
  let y := YearFromTime t in
  (if (0 <=? y) && (y <=? 9999) then digits 4 y
   else (if y <? 0 then 45%N else 43%N) :: digits 6 (Z.abs y))
  ++ [45%N] ++ digits 2 (MonthFromTime t + 1)
  ++ [45%N] ++ digits 2 (DateFromTime t).

Definition digit_value (c : N) : option Z :=
  if ((48 <=? c) && (c <=? 57))%N then Some (Z.of_N c - 48) else None.

Fixpoint number_of (acc : Z) (s : jsstring) : option Z :=
  match s with
  | [] => Some acc
  | c :: r =>
      match digit_value c with
      | Some v => number_of (acc * 10 + v) r
      | None => None
      end
  end.

(** The fields of the date-only form [YYYY-MM-DD] of the Date Time
    String Format: year, month (1 is January) and day.  Field values
    outside the calendar are not an instance of the format. *)
Definition date_fields (s : jsstring) : option (Z * Z * Z) :=
  match s with
  | [y1; y2; y3; y4; s1; m1; m2; s2; d1; d2] =>
      if ((s1 =? 45) && (s2 =? 45))%N then
        match number_of 0 [y1; y2; y3; y4],
              number_of 0 [m1; m2],
              number_of 0 [d1; d2] with
        | Some y, Some m, Some d =>
            if (1 <=? m) && (m <=? 12) && (1 <=? d)
               && (d <=? days_in_month y (m - 1))
            then Some (y, m, d)
            else None
        | _, _, _ => None
        end
      else None
  | _ => None
  end.

(** The time value of a date-only string: midnight UTC of that day. *)
Definition parse_date_only (s : jsstring) : option Z :=
  match date_fields s with
  | Some (y, m, d) => Some (MakeDay y (m - 1) d * msPerDay)
  | None => None
  end.

(** The UTC calendar date of a time value: year, month (1 is January)
    and day. *)
Definition civil (t : Z) : Z * Z * Z :=
  (YearFromTime t, MonthFromTime t + 1, DateFromTime t).

(** One calendar date lies before another. *)
Definition civil_before (a b : Z * Z * Z) : bool :=
  let '(y1, m1, d1) := a in
  let '(y2, m2, d2) := b in
  (y1 <? y2) || ((y1 =? y2) && ((m1 <? m2) || ((m1 =? m2) && (d1 <? d2)))).

(** The time values whose UTC year lies in 0..9999, the years
    [toISOString] prints with four digits. *)
Definition four_digit_year (t : Z) : Prop :=
  -62167219200000 <= t < 253402300800000.

End Calendar.

(* ================================================================== *)
(** ** Exceptions and the engine *)
(* ================================================================== *)

(** A thrown [Error]: its [name], its [message], and the [status] the
    upstream SDK attaches to a failed HTTP exchange. *)
Record js_error := {
  err_name : jsstring;
  err_message : jsstring;
  err_status : option Z
}.

(** The outcome of an expression that may throw. *)
Definition js_result (A : Type) : Type := (js_error + A)%type.

Definition bindR {A B} (c : js_result A) (k : A -> js_result B) : js_result B :=
  match c with
  | inl e => inl e
  | inr a => k a
  end.

Notation "'let*' x ':=' c 'in' k" := (bindR c (fun x => k))
  (at level 61, x name, c at next level, right associativity).

(** [String(error)], after [Error.prototype.toString]. *)
Definition error_to_string (e : js_error) : jsstring :=
  match err_name e, err_message e with
  | [], m => m
  | n, [] => n
  | n, m => n ++ [58%N; 32%N] ++ m
  end.

(** What the engine itself can throw in the handlers. *)
Inductive fault :=
| BadJson (text : jsstring)                      (* JSON.parse of [text] *)
| DestructureNull (prop : jsstring)              (* destructuring null *)
| ReadOfNull (prop : jsstring)                   (* a property read on null *)
| AssignToPrimitive (prop : jsstring) (v : json) (* strict-mode assignment *)
| NotAFunction (prop : jsstring) (v : json).     (* calling [v.prop] *)

(** The behaviour the handlers take from the JavaScript engine and that
    is left open here: the wording of its error messages, time values for
    anything but the date-only format, comparison after [ToNumber], the
    local time zone, number printing and Unicode lower-casing. *)
Record engine := {
  (* the message of an error the engine throws *)
  fault_message : fault -> jsstring;
  (* Date.parse on a string that is not in the date-only form *)
  date_parse_other : jsstring -> option Z;
  (* the time value of new Date(n) for a number n *)
  date_of_number : decimal -> option Z;
  (* the time value of new Date(v) for an array or object v; the
     conversion of v to a primitive may throw *)
  date_of_object : json -> js_result (option Z);
  (* v > n for a parsed value v *)
  number_gt : json -> Z -> js_result bool;
  (* now.toTimeString().split(' ')[0].substring(0, 5) *)
  local_hhmm : Z -> jsstring;
  (* the text JSON.stringify prints for a number *)
  number_to_string : decimal -> jsstring;
  (* String.prototype.toLowerCase *)
  toLowerCase : jsstring -> jsstring
}.

Definition fault_name (f : fault) : jsstring :=
  match f with
  | BadJson _ => u16 "SyntaxError"
  | _ => u16 "TypeError"
  end.

Definition raise (E : engine) (f : fault) : js_error :=
  {| err_name := fault_name f;
     err_message := fault_message E f;
     err_status := None |}.

(** A property read [v.k] for a name that no prototype defines; [None] is
    [undefined]. *)
Definition get_prop (E : engine) (v : json) (k : jsstring)
  : js_result (option json) :=
  match v with
  | JNull => inl (raise E (ReadOfNull k))
  | JObj m => inr (obj_get k m)
  | _ => inr None
  end.

(** An assignment [v.k = x] in strict code.  A named property put on an
    array is not part of what the response serializes, and is not read
    again. *)
Definition set_prop (E : engine) (v : json) (k : jsstring) (x : json)
  : js_result json :=
  match v with
  | JObj m => inr (JObj (obj_set k x m))
  | JArr l => inr (JArr l)
  | _ => inl (raise E (AssignToPrimitive k v))
  end.

(** [Date.parse]: the date-only form is fixed by the language, the rest is
    the engine's. *)
Definition Date_parse (E : engine) (s : jsstring) : option Z :=
  match Calendar.parse_date_only s with
  | Some t => Some t
  | None => date_parse_other E s
  end.

(** The time value of [new Date(v)]; [None] is an invalid date. *)
Definition new_Date (E : engine) (v : json) : js_result (option Z) :=
  match v with
  | JStr s => inr (Date_parse E s)
  | JNum d => inr (date_of_number E d)
  | JBool b => inr (Some (if b then 1 else 0)%Z)
  | JNull => inr (Some 0%Z)
  | JArr _ | JObj _ => date_of_object E v
  end.

(** [a < b] on two dates; an invalid date compares false. *)
Definition date_lt (a b : option Z) : bool :=
  match a, b with
  | Some x, Some y => (x <? y)%Z
  | _, _ => false
  end.

(** [x.length > n] for a truthy parsed value [x]. *)
Definition length_gt (E : engine) (x : json) (n : Z) : js_result bool :=
  match x with
  | JStr s => inr (n <? js_length s)%Z
  | JArr l => inr (n <? Z.of_nat (List.length l))%Z
  | JObj m =>
      match obj_get (u16 "length") m with
      | Some v => number_gt E v n
      | None => inr false
      end
  | _ => inr false
  end.

(** [x.substring(0, n)]; only strings have the method. *)
Definition substring_of (E : engine) (x : json) (n : nat) : js_result jsstring :=
  match x with
  | JStr s => inr (substring0 n s)
  | _ => inl (raise E (NotAFunction (u16 "substring") x))
  end.

(* ================================================================== *)
(** ** The upstream Text Completion Service and HTTP responses *)
(* ================================================================== *)

(** The values interpolated into the system instruction; the fixed prose
    of the template is the same in every call and is left out. *)
Record system_instruction := {
  si_currentDate : jsstring;
  si_currentTime : jsstring;
  si_timeframe : option jsstring
}.

(** One [chatSession.sendMessage]. *)
Record chat_call := {
  call_system : system_instruction;
  call_message : jsstring
}.

(** The service: the text of [result.response.text()], or the error the
    SDK throws. *)
Definition service := chat_call -> js_result jsstring.

(** A handler runs against the log of upstream calls made so far, and may
    throw. *)
Definition M (A : Type) : Type := list chat_call -> js_result A * list chat_call.

Definition ret {A} (a : A) : M A := fun log => (inr a, log).

Definition bind {A B} (c : M A) (k : A -> M B) : M B :=
  fun log =>
    match c log with
    | (inr a, log') => k a log'
    | (inl e, log') => (inl e, log')
    end.

Definition lift {A} (r : js_result A) : M A := fun log => (r, log).

Definition sendMessage (upstream : service) (c : chat_call) : M jsstring :=
  fun log => (upstream c, log ++ [c]).

Notation "x <- c ;; k" := (bind c (fun x => k))
  (at level 61, c at next level, right associativity).

Record response := {
  status : Z;
  body : json
}.

(** [NextResponse.json(body)] and [NextResponse.json(body, { status })]. *)
Definition json_response (b : json) : response := {| status := 200; body := b |}.
Definition json_response_with (b : json) (st : Z) : response :=
  {| status := st; body := b |}.

(** [try { ... } catch (error) { ... }] around a whole handler. *)
Definition try_catch (c : M response) (handler : js_error -> response)
  : response * list chat_call :=
  match c [] with
  | (inr r, log) => (r, log)
  | (inl e, log) => (handler e, log)
  end.

(** The outcome of [await req.json()]. *)
Definition request := js_result json.

(** [const { k } = body]. *)
Definition destructure (E : engine) (b : json) (k : jsstring)
  : js_result (option json) :=
  match b with
  | JNull => inl (raise E (DestructureNull k))
  | JObj m => inr (obj_get k m)
  | _ => inr None
  end.

(* ================================================================== *)
(** ** Response parsing, shared by both handlers *)
(* ================================================================== *)

Definition fence_open : jsstring := Eval cbv in u16 "```json" ++ [10%N].
Definition fence_close : jsstring := Eval cbv in 10%N :: u16 "```".

(** [text.replace(/```json\n|\n```/g, "")]: scanning from the left, every
    occurrence of either marker is dropped; [skip] counts the code units
    of a marker still to drop. *)
Fixpoint remove_fences_from (skip : nat) (s : jsstring) : jsstring :=
  match s with
  | [] => []
  | c :: r =>
      match skip with
      | S k => remove_fences_from k r
      | O =>
          if starts_with fence_open s then remove_fences_from 7 r
          else if starts_with fence_close s then remove_fences_from 3 r
          else c :: remove_fences_from 0 r
      end
  end.

Definition remove_fences (s : jsstring) : jsstring := remove_fences_from 0 s.

(** [try { JSON.parse(responseText) } catch (e) { cleanJson = ...;
    JSON.parse(cleanJson) }] *)
Definition parse_response (E : engine) (responseText : jsstring) : js_result json :=
  match JSON_parse responseText with
  | Some v => inr v
  | None =>
      let cleanJson := trim (remove_fences responseText) in
      match JSON_parse cleanJson with
      | Some v => inr v
      | None => inl (raise E (BadJson cleanJson))
      end
  end.

Definition ellipsis : jsstring := Eval cbv in u16 "...".

(* ================================================================== *)
(** ** The extraction handler (POST /api/generate-todo) *)
(* ================================================================== *)

Module GenerateTodo.

Definition msg_invalid_input : jsstring :=
  Eval cbv in u16 "잘못된 입력입니다. 내용을 텍스트로 입력해주세요.".
Definition msg_too_short : jsstring :=
  Eval cbv in u16 "할 일 내용은 최소 2자 이상 구체적으로 입력해주세요.".
Definition msg_too_long : jsstring :=
  Eval cbv in u16 "할 일 내용은 최대 500자까지 입력 가능합니다.".
Definition msg_failed : jsstring :=
  Eval cbv in u16 "AI 요청 처리에 실패했습니다. 잠시 후 다시 시도해주세요.".
Definition msg_rate_limit : jsstring :=
  Eval cbv in u16 "요청 한도를 초과했습니다. 잠시 후 다시 시도해주세요.".
Definition msg_bad_request : jsstring :=
  Eval cbv in u16 "잘못된 요청입니다. 입력을 확인해주세요.".

Definition k_error : jsstring := Eval cbv in u16 "error".
Definition k_details : jsstring := Eval cbv in u16 "details".
Definition k_prompt : jsstring := Eval cbv in u16 "prompt".
Definition k_todo : jsstring := Eval cbv in u16 "todo".
Definition k_title : jsstring := Eval cbv in u16 "title".
Definition k_description : jsstring := Eval cbv in u16 "description".
Definition k_priority : jsstring := Eval cbv in u16 "priority".
Definition k_due_date : jsstring := Eval cbv in u16 "due_date".
Definition medium : jsstring := Eval cbv in u16 "medium".

(** [{ error: message }] with a status. *)
Definition error_response (message : jsstring) (st : Z) : response :=
  json_response_with (JObj [(k_error, JStr message)]) st.

Section Handler.
Variable E : engine.
Variable upstream : service.
Variable now : Z.

Definition currentDate : jsstring := Calendar.iso_date now.
Definition currentTime : jsstring := local_hhmm E now.

Definition systemInstruction : system_instruction :=
  {| si_currentDate := currentDate;
     si_currentTime := currentTime;
     si_timeframe := None |}.

(** Title: taken from the prompt when missing, shortened when long. *)
Definition adjust_title (prompt : jsstring) (todo : json) : js_result json :=
  let* title := get_prop E todo k_title in
  if falsy title then
    set_prop E todo k_title
      (JStr (if (30 <? js_length prompt)%Z
             then substring0 30 prompt ++ ellipsis
             else prompt))
  else
    let* long := length_gt E (defined title) 50 in
    if long then
      let* description := get_prop E todo k_description in
      let* todo1 :=
        (if falsy description
         then set_prop E todo k_description (defined title)
         else inr todo) in
      let* title1 := get_prop E todo1 k_title in
      let* short := substring_of E (defined title1) 47 in
      set_prop E todo1 k_title (JStr (short ++ ellipsis))
    else inr todo.

(** Default for the required field. *)
Definition default_priority (todo : json) : js_result json :=
  let* priority := get_prop E todo k_priority in
  if falsy priority then set_prop E todo k_priority (JStr medium)
  else inr todo.

(** A due date before today is moved to today. *)
Definition correct_due_date (todo : json) : js_result json :=
  let* due := get_prop E todo k_due_date in
  match due with
  | None => inr todo
  | Some d =>
      if truthy d then
        let* dueDate := new_Date E d in
        let today := Date_parse E currentDate in
        if date_lt dueDate today
        then set_prop E todo k_due_date (JStr currentDate)
        else inr todo
      else inr todo
  end.

Definition postprocess (prompt : jsstring) (todo : json) : js_result json :=
  let* todo1 := adjust_title prompt todo in
  let* todo2 := default_priority todo1 in
  correct_due_date todo2.

(** The body of the [try] block. *)
Definition attempt (req : request) : M response :=
  body <- lift req ;;
  prompt <- lift (destructure E body k_prompt) ;;
  match prompt with
  | Some (JStr ((_ :: _) as raw)) =>
      let prompt := normalize raw in
      if (js_length prompt <? 2)%Z then ret (error_response msg_too_short 400)
      else if (500 <? js_length prompt)%Z then ret (error_response msg_too_long 400)
      else
        responseText <- sendMessage upstream
          {| call_system := systemInstruction; call_message := prompt |} ;;
        todo <- lift (parse_response E responseText) ;;
        todo' <- lift (postprocess prompt todo) ;;
        ret (json_response (JObj [(k_todo, todo')]))
  | _ => ret (error_response msg_invalid_input 400)
  end.

(** The [catch] block. *)
Definition on_error (error : js_error) : response :=
  let details :=
    match err_message error with
    | [] => error_to_string error
    | m => m
    end in
  let '(st, message) :=
    if includes (u16 "429") (err_message error)
    then (429%Z, msg_rate_limit)
    else if match err_status error with
            | Some s => (s =? 400)%Z
            | None => false
            end || includes (u16 "400") (err_message error)
    then (400%Z, msg_bad_request)
    else (500%Z, msg_failed) in
  json_response_with
    (JObj [(k_error, JStr message); (k_details, JStr details)]) st.

Definition POST (req : request) : response * list chat_call :=
  try_catch (attempt req) on_error.

End Handler.
End GenerateTodo.

(* ================================================================== *)
(** ** [JSON.stringify] *)
(* ================================================================== *)

Module Stringify.
Local Open Scope N_scope.

Definition hex_digit (n : N) : N := if n <? 10 then 48 + n else 87 + n.

(** The escape of a code unit as a backslash, [u] and four lower-case
    hexadecimal digits. *)
Definition unicode_escape (c : N) : jsstring :=
  [92; 117; hex_digit (c / 4096 mod 16); hex_digit (c / 256 mod 16);
   hex_digit (c / 16 mod 16); hex_digit (c mod 16)].

Definition is_high (c : N) : bool := (55296 <=? c) && (c <=? 56319).
Definition is_low (c : N) : bool := (56320 <=? c) && (c <=? 57343).

Definition escape_unit (c : N) : jsstring :=
  if c =? 8 then [92; 98]
  else if c =? 9 then [92; 116]
  else if c =? 10 then [92; 110]
  else if c =? 12 then [92; 102]
  else if c =? 13 then [92; 114]
  else if c =? 34 then [92; 34]
  else if c =? 92 then [92; 92]
  else if (c <? 32) || is_high c || is_low c then unicode_escape c
  else [c].

(** The escaped content of a string; a surrogate pair is kept, a lone
    surrogate is escaped. *)
Fixpoint escape_units (s : jsstring) : jsstring :=
  match s with
  | [] => []
  | c :: r =>
      if is_high c then
        match r with
        | l :: r' =>
            if is_low l then c :: l :: escape_units r'
            else escape_unit c ++ escape_units r
        | [] => escape_unit c
        end
      else escape_unit c ++ escape_units r
  end.

Definition quote (s : jsstring) : jsstring := [34] ++ escape_units s ++ [34].

Fixpoint stringify (E : engine) (v : json) : jsstring :=
  match v with
  | JNull => u16 "null"
  | JBool true => u16 "true"
  | JBool false => u16 "false"
  | JNum d => number_to_string E d
  | JStr s => quote s
  | JArr l =>
      [91] ++
      (fix items (l : list json) : jsstring :=
         match l with
         | [] => []
         | x :: r =>
             stringify E x ++ match r with [] => [] | _ => 44 :: items r end
         end) l
      ++ [93]
  | JObj m =>
      [123] ++
      (fix members (m : props) : jsstring :=
         match m with
         | [] => []
         | (k, x) :: r =>
             quote k ++ [58] ++ stringify E x
             ++ match r with [] => [] | _ => 44 :: members r end
         end) m
      ++ [125]
  end.
End Stringify.

Definition JSON_stringify := Stringify.stringify.

(** An object literal whose property values may be undefined, as its only
    reader, [JSON.stringify], sees it: properties holding [undefined] are
    left out. *)
Fixpoint object_literal (ps : list (jsstring * option json)) : json :=
  match ps with
  | [] => JObj []
  | (k, x) :: r =>
      match x, object_literal r with
      | Some v, JObj m => JObj ((k, v) :: m)
      | _, o => o
      end
  end.

(** [xs.map(f)] for a callback that may throw. *)
Fixpoint map_result {A B} (f : A -> js_result B) (xs : list A) : js_result (list B) :=
  match xs with
  | [] => inr []
  | x :: r =>
      let* y := f x in
      let* ys := map_result f r in
      inr (y :: ys)
  end.

(* ================================================================== *)
(** ** The analysis handler (POST /api/analyze-todos) *)
(* ================================================================== *)

Module AnalyzeTodos.

Definition msg_invalid_list : jsstring :=
  Eval cbv in u16 "할 일 목록 데이터가 올바르지 않습니다.".
Definition msg_empty_summary : jsstring :=
  Eval cbv in u16 "분석할 할 일이 아직 없습니다. 새로운 할 일을 추가해보세요!".
Definition msg_empty_insight : jsstring :=
  Eval cbv in u16 "할 일을 추가하면 AI가 분석해드립니다.".
Definition msg_empty_recommendation : jsstring :=
  Eval cbv in u16 "먼저 오늘 해야 할 일을 기록하는 것부터 시작해보세요.".
Definition msg_failed : jsstring :=
  Eval cbv in u16 "AI 분석 중 오류가 발생했습니다. 잠시 후 다시 시도해주세요.".
Definition text_today : jsstring := Eval cbv in u16 "오늘 하루".
Definition text_week : jsstring := Eval cbv in u16 "이번 주".

Definition k_error : jsstring := Eval cbv in u16 "error".
Definition k_details : jsstring := Eval cbv in u16 "details".
Definition k_todos : jsstring := Eval cbv in u16 "todos".
Definition k_timeframe : jsstring := Eval cbv in u16 "timeframe".
Definition k_summary : jsstring := Eval cbv in u16 "summary".
Definition k_urgentTasks : jsstring := Eval cbv in u16 "urgentTasks".
Definition k_insights : jsstring := Eval cbv in u16 "insights".
Definition k_recommendations : jsstring := Eval cbv in u16 "recommendations".
Definition k_title : jsstring := Eval cbv in u16 "title".
Definition k_priority : jsstring := Eval cbv in u16 "priority".
Definition k_due_date : jsstring := Eval cbv in u16 "due_date".
Definition k_due_time : jsstring := Eval cbv in u16 "due_time".
Definition k_completed : jsstring := Eval cbv in u16 "completed".
Definition k_category : jsstring := Eval cbv in u16 "category".
Definition k_created_at : jsstring := Eval cbv in u16 "created_at".
Definition today : jsstring := Eval cbv in u16 "today".

(** The response for an empty list. *)
Definition empty_analysis : json :=
  JObj [(k_summary, JStr msg_empty_summary);
        (k_urgentTasks, JArr []);
        (k_insights, JArr [JStr msg_empty_insight]);
        (k_recommendations, JArr [JStr msg_empty_recommendation])].

Section Handler.
Variable E : engine.
Variable upstream : service.
Variable now : Z.

Definition currentDate : jsstring := Calendar.iso_date now.
Definition currentTime : jsstring := local_hhmm E now.

(** [timeframe === 'today' ? ... : ...] *)
Definition timeframeText (timeframe : option json) : jsstring :=
  match timeframe with
  | Some (JStr s) => if str_eqb s today then text_today else text_week
  | _ => text_week
  end.

Definition systemInstruction (timeframe : option json) : system_instruction :=
  {| si_currentDate := currentDate;
     si_currentTime := currentTime;
     si_timeframe := Some (timeframeText timeframe) |}.

(** The callback of [todos.map]. *)
Definition project (t : json) : js_result json :=
  let* title := get_prop E t k_title in
  let* priority := get_prop E t k_priority in
  let* due_date := get_prop E t k_due_date in
  let* due_time := get_prop E t k_due_time in
  let* completed := get_prop E t k_completed in
  let* category := get_prop E t k_category in
  let* created_at := get_prop E t k_created_at in
  inr (object_literal
         [(k_title, title); (k_priority, priority); (k_due_date, due_date);
          (k_due_time, due_time); (k_completed, completed);
          (k_category, category); (k_created_at, created_at)]).

Definition todosText (todos : list json) : js_result jsstring :=
  let* projected := map_result project todos in
  inr (JSON_stringify E (JArr projected)).

Definition prompt_of (timeframe : option json) (text : jsstring) : jsstring :=
  u16 "Here is my todo list for " ++ timeframeText timeframe
  ++ u16 ": " ++ text ++ u16 ". Please analyze it.".

(** The body of the [try] block. *)
Definition attempt (req : request) : M response :=
  body <- lift req ;;
  todos <- lift (destructure E body k_todos) ;;
  timeframe <- lift (destructure E body k_timeframe) ;;
  match todos with
  | Some (JArr []) => ret (json_response empty_analysis)
  | Some (JArr todos) =>
      text <- lift (todosText todos) ;;
      responseText <- sendMessage upstream
        {| call_system := systemInstruction timeframe;
           call_message := prompt_of timeframe text |} ;;
      analysis <- lift (parse_response E responseText) ;;
      ret (json_response analysis)
  | _ =>
      ret (json_response_with (JObj [(k_error, JStr msg_invalid_list)]) 400)
  end.

(** The [catch] block. *)
Definition on_error (error : js_error) : response :=
  json_response_with
    (JObj [(k_error, JStr msg_failed); (k_details, JStr (err_message error))])
    500.

Definition POST (req : request) : response * list chat_call :=
  try_catch (attempt req) on_error.

End Handler.
End AnalyzeTodos.

(* ================================================================== *)
(** ** The task form: priority taken from the extraction result *)
(* ================================================================== *)

Module TodoForm.

Definition high : jsstring := Eval cbv in u16 "high".
Definition medium : jsstring := Eval cbv in u16 "medium".
Definition low : jsstring := Eval cbv in u16 "low".

(** The value [handleAiGenerate] passes to
    [form.setValue] for the priority field, from [todo.priority]. *)
Definition priorityValue (E : engine) (priority : option json)
  : js_result jsstring :=
  if falsy priority then inr medium
  else
    match defined priority with
    | JStr s =>
        let lowerPriority := toLowerCase E s in
        if existsb (str_eqb lowerPriority) [high; medium; low]
        then inr lowerPriority
        else inr medium
    | v => inl (raise E (NotAFunction (u16 "toLowerCase") v))
    end.

End TodoForm.

(* ================================================================== *)
(** ** Vocabulary of the properties *)
(* ================================================================== *)

(** A service that answers every message with the same text. *)
Definition answering (text : jsstring) : service := fun _ => inr text.

(** A service that fails every message with the same error. *)
Definition failing (e : js_error) : service := fun _ => inl e.

(** A response text inside the code-fence wrapper. *)
Definition fenced (text : jsstring) : jsstring := fence_open ++ text ++ fence_close.

(** The prompt the extraction handler refuses: missing, not a string, or
    of a normalized length outside 2..500. *)
Definition invalid_prompt (prompt : option json) : Prop :=
  match prompt with
  | Some (JStr raw) =>
      (js_length (normalize raw) < 2 \/ 500 < js_length (normalize raw))%Z
  | _ => True
  end.

(** The message the extraction handler sends upstream for a raw prompt. *)
Definition extraction_call (E : engine) (now : Z) (raw : jsstring) : chat_call :=
  {| call_system := GenerateTodo.systemInstruction E now;
     call_message := normalize raw |}.

(** A request that reaches post-processing: the prompt of the body is a
    string of an accepted normalized length, and the service answers with
    a text that parses, directly or without its fences, to [todo]. *)
Definition extraction_reaches (E : engine) (upstream : service) (now : Z)
    (body : json) (raw : jsstring) (todo : json) : Prop :=
  destructure E body GenerateTodo.k_prompt = inr (Some (JStr raw)) /\
  (2 <= js_length (normalize raw) <= 500)%Z /\
  exists text,
    upstream (extraction_call E now raw) = inr text /\
    parse_response E text = inr todo.

(** The properties of a task object after the priority default. *)
Definition with_default_priority (o : props) : props :=
  if falsy (obj_get GenerateTodo.k_priority o)
  then obj_set GenerateTodo.k_priority (JStr GenerateTodo.medium) o
  else o.

(** A value that is neither an array nor an object. *)
Definition primitive (x : option json) : Prop :=
  match x with
  | Some (JArr _) | Some (JObj _) => False
  | _ => True
  end.

(** The engine can make a [Date] of the due date of a task object. *)
Definition due_date_converts (E : engine) (o : props) : Prop :=
  forall d, obj_get GenerateTodo.k_due_date o = Some d -> truthy d = true ->
            exists t, new_Date E d = inr t.

(** The three priorities of a task record. *)
Definition priorities : list jsstring :=
  [TodoForm.high; TodoForm.medium; TodoForm.low].

(** How the [catch] block of the extraction handler classifies an error:
    by the text of its message, and by its status for 400 only. *)
Definition status_of_error (e : js_error) : Z :=
  if includes (u16 "429") (err_message e) then 429
  else if match err_status e with
          | Some s => (s =? 400)%Z
          | None => false
          end || includes (u16 "400") (err_message e)
       then 400
       else 500.

Definition message_of_error (e : js_error) : jsstring :=
  if includes (u16 "429") (err_message e) then GenerateTodo.msg_rate_limit
  else if match err_status e with
          | Some s => (s =? 400)%Z
          | None => false
          end || includes (u16 "400") (err_message e)
       then GenerateTodo.msg_bad_request
       else GenerateTodo.msg_failed.

(** [error.message || String(error)] *)
Definition details_of_error (e : js_error) : jsstring :=
  match err_message e with
  | [] => error_to_string e
  | m => m
  end.

(** The status the failure taxonomy gives an upstream error: by the HTTP
    status of the failed exchange. *)
Definition status_by_kind (e : js_error) : Z :=
  match err_status e with
  | Some 429%Z => 429
  | Some 400%Z => 400
  | _ => 500
  end.

(** The fields of a task the analysis handler reads. *)
Definition task_fields : list jsstring :=
  [AnalyzeTodos.k_title; AnalyzeTodos.k_priority; AnalyzeTodos.k_due_date;
   AnalyzeTodos.k_due_time; AnalyzeTodos.k_completed; AnalyzeTodos.k_category;
   AnalyzeTodos.k_created_at].

Definition field (t : json) (k : jsstring) : option json :=
  match t with
  | JObj m => obj_get k m
  | _ => None
  end.

(** The serialized task list, when every task can be read. *)
Definition payload (E : engine) (todos : list json) : jsstring :=
  match AnalyzeTodos.todosText E todos with
  | inr text => text
  | inl _ => []
  end.

(** The message the analysis handler sends upstream. *)
Definition analysis_call (E : engine) (now : Z) (timeframe : option json)
    (todos : list json) : chat_call :=
  {| call_system := AnalyzeTodos.systemInstruction E now timeframe;
     call_message := AnalyzeTodos.prompt_of timeframe (payload E todos) |}.

Definition json_is_null (v : json) : bool :=
  match v with
  | JNull => true
  | _ => false
  end.

(** Two tasks agree on every field the handler reads. *)
Definition same_task_fields (t1 t2 : json) : Prop :=
  (t1 = JNull <-> t2 = JNull) /\
  forall k, In k task_fields -> field t1 k = field t2 k.

(* ================================================================== *)
(** ** An engine for running the handlers on concrete inputs *)
(* ================================================================== *)

(** It words its errors as V8 does, reads the local time as UTC and
    lower-cases the ASCII letters; on dates outside the date-only form and
    on numbers it answers only the simple cases (integers, no date). *)
Module Sample.

Definition double_quoted (s : string) : jsstring :=
  map (fun c => if (c =? 39)%N then 34%N else c) (u16 s).

Fixpoint nat_digits (fuel : nat) (n : N) (acc : jsstring) : jsstring :=
  match fuel with
  | O => acc
  | S f =>
      let acc' := (48 + n mod 10)%N :: acc in
      if (n <? 10)%N then acc' else nat_digits f (n / 10)%N acc'
  end.

Definition number_text (d : decimal) : jsstring :=
  (if dneg d then [45%N] else [])
  ++ nat_digits (S (N.to_nat (N.size (dmant d)))) (dmant d) []
  ++ (if (dexp d =? 0)%Z then []
      else 101%N :: (if (dexp d <? 0)%Z then [45%N] else [])
           ++ nat_digits (S (N.to_nat (N.size (Z.abs_N (dexp d)))))
                (Z.abs_N (dexp d)) []).

Definition kind_and_text (v : json) : jsstring :=
  match v with
  | JNum d => u16 "number '" ++ number_text d ++ u16 "'"
  | JStr s => u16 "string '" ++ s ++ u16 "'"
  | JBool true => u16 "boolean 'true'"
  | JBool false => u16 "boolean 'false'"
  | _ => u16 "object"
  end.

Definition message (f : fault) : jsstring :=
  match f with
  | BadJson _ => u16 "Unexpected token in JSON"
  | DestructureNull p =>
      u16 "Cannot destructure property '" ++ p ++ u16 "' of 'body' as it is null."
  | ReadOfNull p =>
      u16 "Cannot read properties of null (reading '" ++ p ++ u16 "')"
  | AssignToPrimitive p v =>
      u16 "Cannot create property '" ++ p ++ u16 "' on " ++ kind_and_text v
  | NotAFunction p _ => p ++ u16 " is not a function"
  end.

Definition integer_time (d : decimal) : option Z :=
  if (0 <=? dexp d)%Z then
    let v := ((if dneg d then -1 else 1) * Z.of_N (dmant d) * 10 ^ dexp d)%Z in
    if (Z.abs v <=? 8640000000000000)%Z then Some v else None
  else None.

Definition greater (v : json) (n : Z) : js_result bool :=
  match v with
  | JNum d =>
      inr (negb (dneg d) &&
           (if (0 <=? dexp d)%Z
            then (n <? Z.of_N (dmant d) * 10 ^ dexp d)%Z
            else (n * 10 ^ (- dexp d) <? Z.of_N (dmant d))%Z))
  | _ => inr false
  end.

Definition utc_hhmm (t : Z) : jsstring :=
  Calendar.digits 2 ((t mod Calendar.msPerDay) / 3600000)
  ++ [58%N] ++ Calendar.digits 2 ((t mod 3600000) / 60000).

Definition lower_ascii (s : jsstring) : jsstring :=
  map (fun c => if ((65 <=? c) && (c <=? 90))%N then (c + 32)%N else c) s.

Definition engine : engine :=
  {| fault_message := message;
     date_parse_other := fun _ => None;
     date_of_number := integer_time;
     date_of_object := fun _ => inr None;
     number_gt := greater;
     local_hhmm := utc_hhmm;
     number_to_string := number_text;
     toLowerCase := lower_ascii |}.

End Sample.

(** Inputs for the examples. *)
Module Examples.
Import Sample.

(** 2024-01-01T08:00:00Z *)
Definition now0 : Z := 1704096000000.

Definition body_of_prompt (raw : jsstring) : json :=
  JObj [(GenerateTodo.k_prompt, JStr raw)].

Definition raw_short : jsstring := Eval cbv in u16 "a".
Definition raw_report : jsstring :=
  Eval cbv in u16 "  submit   the quarterly report to the finance team ".

(** A reply without a title whose due date lies in the past. *)
Definition reply_past : jsstring :=
  Eval cbv in double_quoted "{'priority': 'URGENT', 'due_date': '2023-12-31'}".
Definition todo_past : props :=
  Eval cbv in
    [(GenerateTodo.k_priority, JStr (u16 "URGENT"));
     (GenerateTodo.k_due_date, JStr (u16 "2023-12-31"))].

(** An HTTP 503 failure of the service whose text happens to contain
    the digits 429. *)
Definition server_error : js_error :=
  Eval cbv in
    {| err_name := u16 "Error";
       err_message :=
         u16 "[503 Service Unavailable] The model is overloaded (request 7f429c1e).";
       err_status := Some 503%Z |}.

(** Two task lists that differ in their descriptions only. *)
Definition body_of_todos (todos : list json) : json :=
  JObj [(AnalyzeTodos.k_todos, JArr todos);
        (AnalyzeTodos.k_timeframe, JStr AnalyzeTodos.today)].
Definition task (description : jsstring) : json :=
  Eval cbv in
    JObj [(AnalyzeTodos.k_title, JStr (u16 "Call the dentist"));
          (u16 "description", JStr description);
          (AnalyzeTodos.k_completed, JBool false)].
Definition tasks1 : list json :=
  Eval cbv in [task (u16 "ask about the invoice")].
Definition tasks2 : list json :=
  Eval cbv in [task (u16 "bring the insurance card")].

(** A reply that is an empty object. *)
Definition reply_empty : jsstring := Eval cbv in u16 "{}".

(** A reply with a title of 60 code units and no description. *)
Definition long_title : jsstring :=
  Eval cbv in u16 "Submit the quarterly report to the finance team before noon.".
Definition reply_long : jsstring :=
  Eval cbv in
    double_quoted
      "{'title': 'Submit the quarterly report to the finance team before noon.'}".
Definition todo_long : props := [(GenerateTodo.k_title, JStr long_title)].

End Examples.

(* ================================================================== *)
(** ** Vocabulary of the further properties *)
(* ================================================================== *)

(** A text in which white space occurs only as single spaces between
    other code units: [after_space] tells that the text so far is empty
    or ends with a space. *)
Fixpoint words_ok (after_space : bool) (s : jsstring) : bool :=
  match s with
  | [] => negb after_space
  | c :: r =>
      if is_ws c then (c =? 32)%N && negb after_space && words_ok true r
      else words_ok false r
  end.

Definition tidy (s : jsstring) : bool :=
  match s with
  | [] => true
  | _ => words_ok true s
  end.

(** The code units of a text that are not white space. *)
Definition content (s : jsstring) : jsstring :=
  filter (fun c => negb (is_ws c)) s.

(** Neither end of a text is white space. *)
Definition ends_clear (s : jsstring) : Prop :=
  match s with c :: _ => is_ws c = false | [] => True end /\
  match rev s with c :: _ => is_ws c = false | [] => True end.

(** The last code unit of a text is not a line feed. *)
Definition no_final_line_feed (s : jsstring) : Prop :=
  match rev s with
  | c :: _ => c <> 10%N
  | [] => True
  end.

(** The extraction endpoint answers a request with the task object [o]. *)
Definition extraction_succeeds (E : engine) (upstream : service) (now : Z)
    (req : request) (o : props) : Prop :=
  exists log,
    GenerateTodo.POST E upstream now req
    = (json_response (JObj [(GenerateTodo.k_todo, JObj o)]), log).

(** A failure response of an endpoint: its status is not 200, and its
    body holds a text that is not empty under [error], alone or followed
    by a text under [details]. *)
Definition failure (r : response) : Prop :=
  exists c m rest,
    status r <> 200%Z /\
    body r = JObj ((GenerateTodo.k_error, JStr (c :: m)) :: rest) /\
    (rest = [] \/ exists d, rest = [(GenerateTodo.k_details, JStr d)]).

(** What [await response.json()] gives the component that fetched the
    response: the endpoint prints the body with [JSON.stringify], on the
    engine it runs on, and the component reads the text with [JSON.parse];
    [None] is the [SyntaxError]. *)
Definition received (server : engine) (r : response) : option json :=
  JSON_parse (JSON_stringify server (body r)).

(** The task object of a success response, for the examples. *)
Definition answered_task (r : response) : props :=
  match body r with
  | JObj [(_, JObj o)] => o
  | _ => []
  end.

(* ================================================================== *)
(** ** The session middleware ([updateSession]) *)
(* ================================================================== *)

Module Middleware.

(** What the middleware answers: a redirect to a path of the same
    origin, or the response that lets the request through. *)
Inductive decision :=
| Redirect (pathname : jsstring)
| Next.

Definition path_root : jsstring := Eval cbv in u16 "/".
Definition path_protected : jsstring := Eval cbv in u16 "/protected".
Definition path_login : jsstring := Eval cbv in u16 "/login".
Definition path_signup : jsstring := Eval cbv in u16 "/signup".
Definition path_api : jsstring := Eval cbv in u16 "/api/".

Definition isProtectedRoute (pathname : jsstring) : bool :=
  str_eqb pathname path_root || starts_with path_protected pathname.

Definition isAuthRoute (pathname : jsstring) : bool :=
  starts_with path_login pathname || starts_with path_signup pathname.

(** [user] is the user of the session, [None] when nobody is signed
    in. *)
Definition updateSession {User : Type} (user : option User)
    (pathname : jsstring) : decision :=
  match user with
  | None =>
      if isProtectedRoute pathname then Redirect path_login else Next
  | Some _ =>
      if isAuthRoute pathname then Redirect path_root else Next
  end.

End Middleware.

(* ================================================================== *)
(** ** Categories: the text of the form field and the stored list *)
(* ================================================================== *)

Module Category.

(** [s.split(",")] *)
Fixpoint split_comma (s : jsstring) : list jsstring :=
  match s with
  | [] => [[]]
  | c :: r =>
      if (c =? 44)%N then [] :: split_comma r
      else match split_comma r with
           | h :: t => (c :: h) :: t
           | [] => [[c]]
           end
  end.

(** [xs.join(sep)] on an array of strings. *)
Fixpoint join (sep : jsstring) (xs : list jsstring) : jsstring :=
  match xs with
  | [] => []
  | x :: r =>
      match r with
      | [] => x
      | _ => x ++ sep ++ join sep r
      end
  end.

Definition comma_space : jsstring := [44%N; 32%N].

(** The default of the form field:
    [initialData?.category?.join(", ") || ""]. *)
Definition defaultValue (category : option (list jsstring)) : jsstring :=
  match category with
  | Some labels =>
      match join comma_space labels with
      | [] => []
      | text => text
      end
  | None => []
  end.

(** The category [handleAddTodo] inserts:
    [values.category ? values.category.split(",").map(c => c.trim()) : []]. *)
Definition added (category : option jsstring) : list jsstring :=
  match category with
  | Some ((_ :: _) as text) => map trim (split_comma text)
  | _ => []
  end.

(** The category [handleEditTodo] writes; [None] is [undefined], which
    leaves the column as it is. *)
Definition edited (category : option jsstring) : option (list jsstring) :=
  match category with
  | Some text => Some (map trim (split_comma text))
  | None => None
  end.

(** A label as the handlers store it: trimmed and without a comma. *)
Definition clean (label : jsstring) : Prop :=
  trim label = label /\ ~ In 44%N label.

End Category.

(* ================================================================== *)
(** ** The list page: its state handlers, filter and sort order *)
(* ================================================================== *)

Module Page.

Inductive Priority := high | medium | low.

(** The interface [Todo]; a due date that is null or undefined is
    [None], and so is such a description. *)
Record Todo := {
  id : jsstring;
  user_id : jsstring;
  title : jsstring;
  description : option jsstring;
  priority : Priority;
  category : list jsstring;
  due_date : option jsstring;
  completed : bool;
  created_at : jsstring
}.

(** [{ ...t, completed: checked }] *)
Definition with_completed (t : Todo) (checked : bool) : Todo :=
  {| id := id t; user_id := user_id t; title := title t;
     description := description t; priority := priority t;
     category := category t; due_date := due_date t;
     completed := checked; created_at := created_at t |}.

(** How a request to the data service ends: it returns no error, it
    returns an error, or it throws. *)
Inductive outcome := Returned | ReturnedError | Thrown.

(** [todos.map(t => t.id === id ? { ...t, completed: checked } : t)] *)
Definition toggled (todos : list Todo) (id0 : jsstring) (checked : bool)
  : list Todo :=
  map (fun t => if str_eqb (id t) id0 then with_completed t checked else t) todos.

(** The list in the state when [handleToggleTodo] is done.  The
    rollback maps over the list the handler was created with. *)
Definition handleToggleTodo (todos : list Todo) (id0 : jsstring)
    (checked : bool) (update : outcome) : list Todo :=
  let optimistic := toggled todos id0 checked in
  match update with
  | ReturnedError => toggled todos id0 (negb checked)
  | Returned | Thrown => optimistic
  end.

(** The list in the state when [handleDeleteTodo] is done. *)
Definition handleDeleteTodo (todos : list Todo) (id0 : jsstring)
    (confirmed : bool) (delete : outcome) : list Todo :=
  if confirmed then
    match delete with
    | Returned => filter (fun t => negb (str_eqb (id t) id0)) todos
    | ReturnedError | Thrown => todos
    end
  else todos.

Definition priority_text (p : Priority) : jsstring :=
  match p with
  | high => TodoForm.high
  | medium => TodoForm.medium
  | low => TodoForm.low
  end.

Definition all : jsstring := Eval cbv in u16 "all".
Definition by_dueDate : jsstring := Eval cbv in u16 "dueDate".
Definition by_priority : jsstring := Eval cbv in u16 "priority".
Definition by_title : jsstring := Eval cbv in u16 "title".
Definition by_created : jsstring := Eval cbv in u16 "created".

(** [const priorityScore = { high: 3, medium: 2, low: 1 }] *)
Definition priorityScore (p : Priority) : Z :=
  match p with
  | high => 3
  | medium => 2
  | low => 1
  end.

(** A subtraction of two time values; [None] is NaN.  The difference
    of two valid time values is computed in doubles, where it has the
    sign of the exact difference and is zero for equal times only. *)
Definition minus (x y : option Z) : option Z :=
  match x, y with
  | Some a, Some b => Some (a - b)%Z
  | _, _ => None
  end.

Section Listing.
Variable E : engine.
(* a.localeCompare(b) in the locale of the browser *)
Variable localeCompare : jsstring -> jsstring -> Z.

(** The callback of [todos.filter]. *)
Definition matches (searchQuery filterPriority : jsstring) (todo : Todo) : bool :=
  let matchesSearch :=
    includes (toLowerCase E searchQuery) (toLowerCase E (title todo))
    || match description todo with
       | Some ((_ :: _) as d) =>
           includes (toLowerCase E searchQuery) (toLowerCase E d)
       | _ => false
       end in
  let matchesPriority :=
    str_eqb filterPriority all
    || str_eqb (priority_text (priority todo)) filterPriority in
  matchesSearch && matchesPriority.

(** [new Date(s).getTime()] *)
Definition getTime (s : jsstring) : option Z := Date_parse E s.

(** The callback of [sort]; [None] is NaN. *)
Definition compare (sortOrder : jsstring) (a b : Todo) : option Z :=
  if str_eqb sortOrder by_dueDate then
    match due_date a with
    | Some ((_ :: _) as da) =>
        match due_date b with
        | Some ((_ :: _) as db) => minus (getTime da) (getTime db)
        | _ => Some (-1)%Z
        end
    | _ => Some 1%Z
    end
  else if str_eqb sortOrder by_priority then
    Some (priorityScore (priority b) - priorityScore (priority a))%Z
  else if str_eqb sortOrder by_title then
    Some (localeCompare (title a) (title b))
  else
    minus (getTime (created_at b)) (getTime (created_at a)).

End Listing.

(** A consistent comparator for the values of [S], as ECMAScript
    requires of the callback of [sort]: otherwise the order of the
    result is implementation-defined. *)
Definition consistent {A : Type} (cmp : A -> A -> option Z) (S : list A) : Prop :=
  forall a b c, In a S -> In b S -> In c S ->
    (exists v, cmp a b = Some v) /\
    cmp a a = Some 0%Z /\
    (cmp a b = Some 0%Z -> cmp b a = Some 0%Z) /\
    (cmp a b = Some 0%Z -> cmp b c = Some 0%Z -> cmp a c = Some 0%Z) /\
    (forall v w, cmp a b = Some v -> cmp b c = Some w -> (v < 0)%Z -> (w < 0)%Z ->
                 exists u, cmp a c = Some u /\ (u < 0)%Z) /\
    (forall v w, cmp a b = Some v -> cmp b c = Some w -> (0 < v)%Z -> (0 < w)%Z ->
                 exists u, cmp a c = Some u /\ (0 < u)%Z).

(** The time of a due date that is set and that the engine can read. *)
Definition due_time_value (E : engine) (t : Todo) : option Z :=
  match due_date t with
  | Some ((_ :: _) as s) => Date_parse E s
  | _ => None
  end.

End Page.

(* ================================================================== *)
(** ** The analysis panel ([handleAnalyze]) *)
(* ================================================================== *)

(** The two components below call the endpoints with [fetch] and read the
    answer with [response.json()].  The body of the request reaches the
    handler as the component built it: it is made of the prompt, a string,
    or of the rows the page holds.  The body of the response is printed and
    read back, see [received]. *)
Module TodoAnalysis.

Definition msg_none_today : jsstring :=
  Eval cbv in u16 "오늘 예정된 할 일이 없습니다.".
Definition msg_none_week : jsstring :=
  Eval cbv in u16 "이번 주 예정된 할 일이 없습니다.".
Definition msg_add : jsstring :=
  Eval cbv in u16 "할 일을 추가하고 다시 분석해주세요.".
Definition msg_goal : jsstring :=
  Eval cbv in u16 "새로운 목표를 세워보는 건 어떨까요?".

(** The result the panel sets without a request. *)
Definition local_result (activeTab : jsstring) : json :=
  JObj [(AnalyzeTodos.k_summary,
         JStr (if str_eqb activeTab AnalyzeTodos.today
               then msg_none_today else msg_none_week));
        (AnalyzeTodos.k_urgentTasks, JArr []);
        (AnalyzeTodos.k_insights, JArr [JStr msg_add]);
        (AnalyzeTodos.k_recommendations, JArr [JStr msg_goal])].

(** The body of the request. *)
Definition request_body (targetTodos : list json) (activeTab : jsstring) : json :=
  JObj [(AnalyzeTodos.k_todos, JArr targetTodos);
        (AnalyzeTodos.k_timeframe, JStr activeTab)].

(** [handleAnalyze]: the [result] of the state afterwards, and the
    messages the request made the endpoint send.  [targetTodos] is
    [stats.targetTodos]; [E] is the engine of the browser, [server] the
    one the endpoint runs on. *)
Definition handleAnalyze (E server : engine) (upstream : service) (now : Z)
    (targetTodos : list json) (activeTab : jsstring) (result : option json)
  : option json * list chat_call :=
  match targetTodos with
  | [] => (Some (local_result activeTab), [])
  | _ =>
      let '(response, log) :=
        AnalyzeTodos.POST server upstream now
          (inr (request_body targetTodos activeTab)) in
      match received server response with
      | None => (result, log)
      | Some data =>
          match get_prop E data AnalyzeTodos.k_error with
          | inl _ => (result, log)
          | inr error =>
              if falsy error then (Some data, log) else (result, log)
          end
      end
  end.

End TodoAnalysis.

(* ================================================================== *)
(** ** The task form ([handleAiGenerate]) *)
(* ================================================================== *)

Module AiForm.

Definition alert_failed : jsstring :=
  Eval cbv in u16 "AI 요청 처리에 실패했습니다.".
Definition alert_error : jsstring :=
  Eval cbv in u16 "AI 요청 중 오류가 발생했습니다.".
Definition summary_open : jsstring :=
  Eval cbv in [10%N; 10%N] ++ u16 "(AI 요약: ".
Definition summary_close : jsstring := Eval cbv in u16 ")".
Definition nine : jsstring := Eval cbv in u16 "09:00".
Definition k_category : jsstring := AnalyzeTodos.k_category.
Definition k_due_time : jsstring := AnalyzeTodos.k_due_time.

(** The values of the form; [None] is [undefined].  The due date is
    the time value of a [Date]. *)
Record values := {
  title : option json;
  description : option json;
  priority : option json;
  category : option json;
  due_date : option Z;
  due_time : option json
}.

Definition set_title (x : option json) (f : values) : values :=
  {| title := x; description := description f; priority := priority f;
     category := category f; due_date := due_date f; due_time := due_time f |}.
Definition set_description (x : option json) (f : values) : values :=
  {| title := title f; description := x; priority := priority f;
     category := category f; due_date := due_date f; due_time := due_time f |}.
Definition set_priority (x : option json) (f : values) : values :=
  {| title := title f; description := description f; priority := x;
     category := category f; due_date := due_date f; due_time := due_time f |}.
Definition set_category (x : option json) (f : values) : values :=
  {| title := title f; description := description f; priority := priority f;
     category := x; due_date := due_date f; due_time := due_time f |}.
Definition set_due_date (x : option Z) (f : values) : values :=
  {| title := title f; description := description f; priority := priority f;
     category := category f; due_date := x; due_time := due_time f |}.
Definition set_due_time (x : option json) (f : values) : values :=
  {| title := title f; description := description f; priority := priority f;
     category := category f; due_date := due_date f; due_time := x |}.

(** A computation that sets values of the form and may throw; what it
    has set stays set. *)
Definition F (A : Type) : Type := values -> js_result A * values.

Definition pure {A} (a : A) : F A := fun f => (inr a, f).
Definition check {A} (r : js_result A) : F A := fun f => (r, f).
Definition setValue (set : values -> values) : F unit := fun f => (inr tt, set f).
Definition then_ {A B} (c : F A) (k : A -> F B) : F B :=
  fun f =>
    match c f with
    | (inr a, f') => k a f'
    | (inl e, f') => (inl e, f')
    end.

Section Handler.
(* the engine of the browser *)
Variable E : engine.
(* the conversion to a string of a value that is not a string; it
   may throw *)
Variable ToString : json -> js_result jsstring.
(* the engine the endpoint runs on *)
Variable server : engine.
Variable upstream : service.
Variable now : Z.

Definition text_of (v : json) : js_result jsstring :=
  match v with
  | JStr s => inr s
  | _ => ToString v
  end.

(** [xs.join(", ")]: null gives the empty text. *)
Definition join_elements (xs : list json) : js_result jsstring :=
  let* texts :=
    map_result (fun x => match x with
                         | JNull => inr []
                         | _ => text_of x
                         end) xs in
  inr (Category.join Category.comma_space texts).

(** [todo.k] for the [todo] of the response; reading a property of
    [undefined] throws as reading one of [null] does. *)
Definition read (todo : option json) (k : jsstring) : js_result (option json) :=
  get_prop E (defined todo) k.

(** The part of the handler after [const { todo } = data]. *)
Definition fill (aiPrompt : jsstring) (todo : option json) : F unit :=
  then_ (check (read todo GenerateTodo.k_title)) (fun t =>
  then_ (setValue (set_title t)) (fun _ =>
  then_ (check (read todo GenerateTodo.k_description)) (fun d =>
  then_ (check (if falsy d then inr aiPrompt
                else let* text := text_of (defined d) in
                     inr (aiPrompt ++ summary_open ++ text ++ summary_close)))
        (fun descriptionValue =>
  then_ (setValue (set_description (Some (JStr descriptionValue)))) (fun _ =>
  then_ (check (read todo GenerateTodo.k_priority)) (fun p =>
  then_ (check (TodoForm.priorityValue E p)) (fun priorityValue =>
  then_ (setValue (set_priority (Some (JStr priorityValue)))) (fun _ =>
  then_ (check (read todo k_category)) (fun c =>
  then_ (match c with
         | Some (JArr xs) =>
             then_ (check (join_elements xs)) (fun text =>
             setValue (set_category (Some (JStr text))))
         | _ => pure tt
         end) (fun _ =>
  then_ (check (read todo GenerateTodo.k_due_date)) (fun due =>
  if falsy due then pure tt
  else
    then_ (check (new_Date E (defined due))) (fun date =>
    match date with
    | Some time =>
        then_ (setValue (set_due_date (Some time))) (fun _ =>
        then_ (check (read todo k_due_time)) (fun dt =>
        if falsy dt then setValue (set_due_time (Some (JStr nine)))
        else setValue (set_due_time dt)))
    | None => pure tt
    end)))))))))))).

(** [handleAiGenerate]: the values of the form afterwards, the alert
    shown, and the messages the request made the endpoint send. *)
Definition handleAiGenerate (aiPrompt : jsstring) (form : values)
  : values * option jsstring * list chat_call :=
  match trim aiPrompt with
  | [] => (form, None, [])
  | _ =>
      let '(response, log) :=
        GenerateTodo.POST server upstream now
          (inr (JObj [(GenerateTodo.k_prompt, JStr aiPrompt)])) in
      match received server response with
      | None => (form, Some alert_error, log)
      | Some data =>
          match get_prop E data GenerateTodo.k_error with
          | inl _ => (form, Some alert_error, log)
          | inr error =>
              if falsy error then
                match destructure E data GenerateTodo.k_todo with
                | inl _ => (form, Some alert_error, log)
                | inr todo =>
                    match fill aiPrompt todo form with
                    | (inr _, form') => (form', None, log)
                    | (inl _, form') => (form', Some alert_error, log)
                    end
                end
              else (form, Some alert_failed, log)
          end
      end
  end.

End Handler.

(** The form [form'] that a fill without an exception makes of [form]
    for the answered value [todo] and the prompt: the title is the one
    answered, the description begins with the prompt, the priority is one
    of the three, and a due date comes with a due time. *)
Definition filled (E : engine) (aiPrompt : jsstring) (todo : json)
    (form form' : values) : Prop :=
  title form' = field todo GenerateTodo.k_title /\
  (exists rest, description form' = Some (JStr (aiPrompt ++ rest))) /\
  (exists p, priority form' = Some (JStr p) /\ In p priorities) /\
  (due_date form' = due_date form /\ due_time form' = due_time form \/
   exists d time t,
     field todo GenerateTodo.k_due_date = Some d /\ truthy d = true /\
     new_Date E d = inr (Some time) /\
     due_date form' = Some time /\ due_time form' = Some t /\ truthy t = true).

End AiForm.

(* ================================================================== *)
(** ** JSON texts printed and read back *)
(* ================================================================== *)

Module RoundTrip.

(** The tokens of the text [JSON.stringify] prints for a value. *)
Fixpoint tokens (v : json) : list Json.token :=
  match v with
  | JNull => [Json.TNull]
  | JBool true => [Json.TTrue]
  | JBool false => [Json.TFalse]
  | JNum d => [Json.TNumber d]
  | JStr s => [Json.TString s]
  | JArr l =>
      [Json.TLBrack] ++
      (fix items (l : list json) : list Json.token :=
         match l with
         | [] => []
         | x :: r =>
             tokens x ++ match r with [] => [] | _ => Json.TComma :: items r end
         end) l
      ++ [Json.TRBrack]
  | JObj m =>
      [Json.TLBrace] ++
      (fix members (m : props) : list Json.token :=
         match m with
         | [] => []
         | (k, x) :: r =>
             [Json.TString k; Json.TColon] ++ tokens x
             ++ match r with [] => [] | _ => Json.TComma :: members r end
         end) m
      ++ [Json.TRBrace]
  end.

(** The tokens of the elements of an array, and of the members of an
    object, with their commas. *)
Fixpoint element_tokens (l : list json) : list Json.token :=
  match l with
  | [] => []
  | x :: r =>
      tokens x ++ match r with [] => [] | _ => Json.TComma :: element_tokens r end
  end.

Fixpoint member_tokens (m : props) : list Json.token :=
  match m with
  | [] => []
  | (k, x) :: r =>
      [Json.TString k; Json.TColon] ++ tokens x
      ++ match r with [] => [] | _ => Json.TComma :: member_tokens r end
  end.

(** The tokens after the first element, and after the first member. *)
Definition more_elements (l : list json) : list Json.token :=
  match l with [] => [] | _ => Json.TComma :: element_tokens l end.

Definition more_members (m : props) : list Json.token :=
  match m with [] => [] | _ => Json.TComma :: member_tokens m end.

(** A token a value can begin with. *)
Definition opens_value (t : Json.token) : Prop :=
  match t with
  | Json.TRBrack | Json.TRBrace | Json.TComma | Json.TColon => False
  | _ => True
  end.

(** The printed elements of an array, and the printed members of an
    object, with their commas. *)
Section Texts.
Variable E : engine.

Fixpoint element_texts (l : list json) : jsstring :=
  match l with
  | [] => []
  | x :: r =>
      JSON_stringify E x
      ++ match r with [] => [] | _ => 44%N :: element_texts r end
  end.

Fixpoint member_texts (m : props) : jsstring :=
  match m with
  | [] => []
  | (k, x) :: r =>
      Stringify.quote k ++ [58%N] ++ JSON_stringify E x
      ++ match r with [] => [] | _ => 44%N :: member_texts r end
  end.
End Texts.

(** A string of UTF-16 code units. *)
Definition units (s : jsstring) : Prop := Forall (fun c => (c < 65536)%N) s.

(** The properties of an object in the order an engine enumerates them:
    assigning them one after the other to an empty object gives the
    list itself. *)
Definition assigned (m : props) : props :=
  fold_left (fun acc kv => obj_set (fst kv) (snd kv) acc) m [].

Definition enumerated (m : props) : Prop := assigned m = m.

(** A value without numbers, as an engine holds it: its strings and keys
    are strings of code units, the properties of its objects are in
    enumeration order. *)
Fixpoint plain (v : json) : Prop :=
  match v with
  | JNull | JBool _ => True
  | JNum _ => False
  | JStr s => units s
  | JArr l =>
      (fix all (l : list json) : Prop :=
         match l with
         | [] => True
         | x :: r => plain x /\ all r
         end) l
  | JObj m =>
      enumerated m /\
      (fix all (m : props) : Prop :=
         match m with
         | [] => True
         | (k, x) :: r => units k /\ plain x /\ all r
         end) m
  end.

(** A value without numbers whose objects have their properties in
    enumeration order. *)
Fixpoint numberless (v : json) : Prop :=
  match v with
  | JNull | JBool _ | JStr _ => True
  | JNum _ => False
  | JArr l =>
      (fix all (l : list json) : Prop :=
         match l with
         | [] => True
         | x :: r => numberless x /\ all r
         end) l
  | JObj m =>
      enumerated m /\
      (fix all (m : props) : Prop :=
         match m with
         | [] => True
         | (_, x) :: r => numberless x /\ all r
         end) m
  end.

(** The reader gives the value back from its tokens, whatever follows
    them, when it has fuel for them. *)
Definition reads (v : json) : Prop :=
  numberless v ->
  forall f rest, (List.length (tokens v) <= f)%nat ->
                 Json.value f (tokens v ++ rest) = Some (v, rest).

(** The properties of an object literal that are not undefined. *)
Fixpoint defined_properties (ps : list (jsstring * option json)) : props :=
  match ps with
  | [] => []
  | (k, Some v) :: r => (k, v) :: defined_properties r
  | (_, None) :: r => defined_properties r
  end.

(** What the analysis handler makes of a task. *)
Definition projected (t : json) : json :=
  JObj (defined_properties (map (fun k => (k, field t k)) task_fields)).

(** A task whose seven fields hold no number. *)
Definition plain_task (t : json) : Prop :=
  t <> JNull /\
  forall k x, In k task_fields -> field t k = Some x -> plain x.

End RoundTrip.

(* ================================================================== *)
(** ** Runs of the handlers and components on concrete inputs *)
(* ================================================================== *)

Module Runs.

(** The task answered for the report prompt when the service replies
    with a past due date and no title. *)
Definition answered_past : props :=
  Eval vm_compute in
    answered_task
      (fst (GenerateTodo.POST Sample.engine (answering Examples.reply_past)
              Examples.now0
              (inr (Examples.body_of_prompt Examples.raw_report)))).

(** A reply whose priority is a boolean. *)
Definition reply_flag : jsstring :=
  Eval cbv in Sample.double_quoted "{'title': 'Pay the rent', 'priority': true}".

(** The task the form reads from the answer to that reply. *)
Definition read_flag : props :=
  Eval cbv in
    [(GenerateTodo.k_title, JStr (u16 "Pay the rent"));
     (GenerateTodo.k_priority, JBool true)].

(** The runs convert no value to a string. *)
Definition no_conversion (v : json) : js_result jsstring :=
  inl (raise Sample.engine (NotAFunction (u16 "toString") v)).

(** The values of the form for a new task. *)
Definition blank_form : AiForm.values :=
  {| AiForm.title := Some (JStr []);
     AiForm.description := Some (JStr []);
     AiForm.priority := Some (JStr TodoForm.medium);
     AiForm.category := Some (JStr []);
     AiForm.due_date := None;
     AiForm.due_time := None |}.

(** The form after the reply with the past due date. *)
Definition form_past : AiForm.values :=
  Eval vm_compute in
    fst (fst (AiForm.handleAiGenerate Sample.engine no_conversion
                Sample.engine (answering Examples.reply_past) Examples.now0
                Examples.raw_report blank_form)).

Definition todo_a : Page.Todo :=
  Eval cbv in
    {| Page.id := u16 "a1";
       Page.user_id := u16 "u1";
       Page.title := u16 "Call the dentist";
       Page.description := None;
       Page.priority := Page.high;
       Page.category := [];
       Page.due_date := None;
       Page.completed := false;
       Page.created_at := u16 "2024-01-01" |}.

Definition todo_b : Page.Todo :=
  Eval cbv in
    {| Page.id := u16 "b2";
       Page.user_id := u16 "u1";
       Page.title := u16 "Pay the rent";
       Page.description := Some (u16 "before Friday");
       Page.priority := Page.low;
       Page.category := [u16 "home"];
       Page.due_date := Some (u16 "2024-01-05");
       Page.completed := true;
       Page.created_at := u16 "2024-01-02" |}.

(** The body of an analysis request for one task. *)
Definition analysis_body : json :=
  Eval cbv in Examples.body_of_todos Examples.tasks1.

End Runs.

(* ================================================================== *)
(** * Properties *)
(* ================================================================== *)

(** ** Strings *)

Lemma str_eqb_eq a b : str_eqb a b = true <-> a = b.
Proof.
  revert b. induction a as [|x a IH]; intros [|y b]; cbn; split;
    try congruence; try discriminate.
  - intros H. apply andb_prop in H as [H1 H2].
    apply N.eqb_eq in H1. apply IH in H2. congruence.
  - intros H. inversion H; subst. rewrite N.eqb_refl. cbn. apply IH. reflexivity.
Qed.

Lemma str_eqb_refl a : str_eqb a a = true.
Proof. apply str_eqb_eq. reflexivity. Qed.

Lemma str_eqb_neq a b : a <> b -> str_eqb a b = false.
Proof.
  intros H. destruct (str_eqb a b) eqn:E; [|reflexivity].
  apply str_eqb_eq in E. contradiction.
Qed.

(** ** Objects *)

Lemma obj_get_replace_same k v m :
  obj_has k m = true -> obj_get k (obj_replace k v m) = Some v.
Proof.
  induction m as [|[k' v'] m IH]; cbn; [discriminate|].
  destruct (str_eqb k k') eqn:Ek; cbn; rewrite Ek; auto.
Qed.

Lemma obj_get_replace_other k k' v m :
  k' <> k -> obj_get k' (obj_replace k v m) = obj_get k' m.
Proof.
  intros Hne. induction m as [|[k0 v0] m IH]; cbn; auto.
  destruct (str_eqb k k0) eqn:Ek; cbn.
  - apply str_eqb_eq in Ek. subst k0.
    rewrite (str_eqb_neq _ _ Hne). reflexivity.
  - rewrite IH. reflexivity.
Qed.

Lemma obj_get_insert_same i k v m :
  obj_has k m = false -> obj_get k (obj_insert_index i k v m) = Some v.
Proof.
  induction m as [|[k' v'] m IH]; cbn.
  - rewrite str_eqb_refl. reflexivity.
  - destruct (str_eqb k k') eqn:Ek; cbn; [discriminate|]. intros H.
    destruct (array_index k') as [j|].
    + destruct (i <? j)%N; cbn.
      * rewrite str_eqb_refl. reflexivity.
      * rewrite Ek. auto.
    + cbn. rewrite str_eqb_refl. reflexivity.
Qed.

Lemma obj_get_insert_other i k k' v m :
  k' <> k -> obj_get k' (obj_insert_index i k v m) = obj_get k' m.
Proof.
  intros Hne. induction m as [|[k0 v0] m IH]; cbn.
  - rewrite (str_eqb_neq _ _ Hne). reflexivity.
  - destruct (array_index k0) as [j|].
    + destruct (i <? j)%N; cbn.
      * rewrite (str_eqb_neq _ _ Hne). reflexivity.
      * rewrite IH. reflexivity.
    + cbn. rewrite (str_eqb_neq _ _ Hne). reflexivity.
Qed.

Lemma obj_get_app k m m' :
  obj_get k (m ++ m') =
  match obj_get k m with Some v => Some v | None => obj_get k m' end.
Proof.
  induction m as [|[k' v'] m IH]; cbn; auto.
  destruct (str_eqb k k'); auto.
Qed.

Lemma obj_has_get k m : obj_has k m = false -> obj_get k m = None.
Proof.
  induction m as [|[k' v'] m IH]; cbn; auto.
  destruct (str_eqb k k'); cbn; [discriminate | auto].
Qed.

(** Reading back the property just assigned. *)
Lemma obj_get_set_same k v m : obj_get k (obj_set k v m) = Some v.
Proof.
  unfold obj_set. destruct (obj_has k m) eqn:H.
  - apply obj_get_replace_same; assumption.
  - destruct (array_index k).
    + apply obj_get_insert_same; assumption.
    + rewrite obj_get_app, (obj_has_get _ _ H). cbn.
      rewrite str_eqb_refl. reflexivity.
Qed.

(** An assignment leaves the other properties alone. *)
Lemma obj_get_set_other k k' v m :
  k' <> k -> obj_get k' (obj_set k v m) = obj_get k' m.
Proof.
  intros Hne. unfold obj_set. destruct (obj_has k m).
  - apply obj_get_replace_other; assumption.
  - destruct (array_index k).
    + apply obj_get_insert_other; assumption.
    + rewrite obj_get_app. destruct (obj_get k' m); auto.
      cbn. rewrite (str_eqb_neq _ _ Hne). reflexivity.
Qed.

(** ** The calendar *)

Module CalendarFacts.
Import Calendar.
Local Open Scope Z_scope.

Ltac divlia := Z.div_mod_to_equations; lia.

Lemma year_of_day_spec d :
  DayFromYear (year_of_day d) <= d < DayFromYear (year_of_day d + 1).
Proof.
  unfold year_of_day.
  set (y := 1970 + d * 400 / 146097).
  assert (Hy : 146097 * (y - 1970) <= d * 400 < 146097 * (y - 1970) + 146097)
    by (subst y; divlia).
  clearbody y.
  assert (Hlo : DayFromYear (y - 1) <= d) by (unfold DayFromYear; divlia).
  assert (Hhi : d < DayFromYear (y + 2)) by (unfold DayFromYear; divlia).
  destruct (Z.ltb_spec d (DayFromYear y)).
  - replace (y - 1 + 1) with y by lia. lia.
  - destruct (Z.leb_spec (DayFromYear (y + 1)) d).
    + replace (y + 1 + 1) with (y + 2) by lia. lia.
    + lia.
Qed.

Lemma DayFromYear_succ y : DayFromYear (y + 1) = DayFromYear y + DaysInYear y.
Proof.
  unfold DayFromYear, DaysInYear, is_leap.
  destruct (Z.eqb_spec (y mod 4) 0), (Z.eqb_spec (y mod 100) 0),
    (Z.eqb_spec (y mod 400) 0); cbn [andb orb negb]; divlia.
Qed.

Lemma DayFromYear_mono a b : a <= b -> DayFromYear a <= DayFromYear b.
Proof. unfold DayFromYear. intros. divlia. Qed.

(** The year of a day is the only one whose span contains it. *)
Lemma year_of_day_unique d y :
  DayFromYear y <= d < DayFromYear (y + 1) -> year_of_day d = y.
Proof.
  intros H. pose proof (year_of_day_spec d) as S.
  destruct (Z.lt_trichotomy (year_of_day d) y) as [L | [E | G]]; auto.
  - pose proof (@DayFromYear_mono (year_of_day d + 1) y ltac:(lia)). lia.
  - pose proof (@DayFromYear_mono (y + 1) (year_of_day d) ltac:(lia)). lia.
Qed.

Lemma DayWithinYear_range t :
  0 <= DayWithinYear t < DaysInYear (YearFromTime t).
Proof.
  unfold DayWithinYear, YearFromTime.
  pose proof (year_of_day_spec (Day t)) as S.
  rewrite DayFromYear_succ in S. lia.
Qed.

Lemma month_of_year_day_range leap n : 0 <= month_of_year_day leap n <= 11.
Proof.
  unfold month_of_year_day.
  repeat match goal with |- context [?a <? ?b] => destruct (Z.ltb_spec a b) end;
    lia.
Qed.

Ltac split_tables :=
  repeat match goal with
    | |- context [?a <? ?b] => destruct (Z.ltb_spec a b)
    | |- context [?a <=? ?b] => destruct (Z.leb_spec a b)
    | |- context [?a =? ?b] => destruct (Z.eqb_spec a b)
    end; cbn [andb orb negb]; try lia.

(** The day of the month lies within the month. *)
Lemma date_in_month y n :
  0 <= n < DaysInYear y ->
  let m := month_of_year_day (is_leap y) n in
  1 <= n - days_before_month (is_leap y) m + 1 <= days_in_month y m.
Proof.
  unfold DaysInYear, month_of_year_day, days_before_month, days_in_month.
  destruct (is_leap y); intros H; cbv zeta; split_tables.
Qed.

Lemma digit_value_digit v :
  digit_value (Z.to_N (48 + v mod 10)) = Some (v mod 10).
Proof.
  unfold digit_value.
  assert (0 <= v mod 10 < 10) by (apply Z.mod_pos_bound; lia).
  destruct (N.leb_spec 48 (Z.to_N (48 + v mod 10))); [|lia].
  destruct (N.leb_spec (Z.to_N (48 + v mod 10)) 57); [|lia].
  cbn [andb]. f_equal. lia.
Qed.

Lemma number_of_app a b acc :
  number_of acc (a ++ b) =
  match number_of acc a with Some x => number_of x b | None => None end.
Proof.
  revert acc. induction a as [|c a IH]; intros acc; cbn; auto.
  destruct (digit_value c); auto.
Qed.

Lemma number_of_digits n v acc :
  0 <= v ->
  number_of acc (digits n v) = Some (acc * 10 ^ Z.of_nat n + v mod 10 ^ Z.of_nat n).
Proof.
  revert v acc. induction n as [|n IH]; intros v acc Hv.
  - cbn. f_equal. rewrite Z.mod_1_r. lia.
  - cbn [digits]. rewrite number_of_app, IH by (apply Z.div_pos; lia).
    cbn [number_of]. rewrite digit_value_digit. f_equal.
    rewrite Nat2Z.inj_succ, Z.pow_succ_r by lia.
    rewrite (Z.mul_comm 10 (10 ^ Z.of_nat n)).
    assert (0 < 10 ^ Z.of_nat n) by (apply Z.pow_pos_nonneg; lia).
    rewrite (Z.mul_comm (10 ^ Z.of_nat n) 10).
    rewrite Z.rem_mul_r by lia. lia.
Qed.

Lemma number_of_digits_small n v :
  0 <= v < 10 ^ Z.of_nat n -> number_of 0 (digits n v) = Some v.
Proof.
  intros H. rewrite number_of_digits by lia.
  rewrite Z.mod_small by lia. f_equal.
Qed.

Lemma four_digit_year_range t :
  four_digit_year t -> 0 <= YearFromTime t <= 9999.
Proof.
  unfold four_digit_year, YearFromTime. intros H.
  pose proof (year_of_day_spec (Day t)) as S.
  assert (D : DayFromYear 0 <= Day t < DayFromYear 10000).
  { unfold Day, msPerDay. cbv [DayFromYear]. divlia. }
  destruct (Z.lt_ge_cases (year_of_day (Day t)) 0) as [L|L].
  - pose proof (@DayFromYear_mono (year_of_day (Day t) + 1) 0 ltac:(lia)). lia.
  - destruct (Z.lt_ge_cases 9999 (year_of_day (Day t))) as [G|G]; [|lia].
    pose proof (@DayFromYear_mono 10000 (year_of_day (Day t)) ltac:(lia)). lia.
Qed.

Lemma MakeDay_of_time t :
  MakeDay (YearFromTime t) (MonthFromTime t) (DateFromTime t) = Day t.
Proof. unfold MakeDay, DateFromTime, MonthFromTime, DayWithinYear. lia. Qed.

(** Reading back the date the handler prints gives the calendar date of
    the time value. *)
Lemma date_fields_iso_date t :
  four_digit_year t -> date_fields (iso_date t) = Some (civil t).
Proof.
  intros H. pose proof (four_digit_year_range t H) as Hy.
  pose proof (DayWithinYear_range t) as Hn.
  pose proof (@date_in_month (YearFromTime t) _ Hn) as Hd. cbv zeta in Hd.
  pose proof (month_of_year_day_range (is_leap (YearFromTime t)) (DayWithinYear t)) as Hm.
  fold (MonthFromTime t) in Hd, Hm. fold (DateFromTime t) in Hd.
  assert (Hdim : days_in_month (YearFromTime t) (MonthFromTime t) <= 31).
  { unfold days_in_month. split_tables; destruct (is_leap _); lia. }
  unfold iso_date, civil.
  destruct (Z.leb_spec 0 (YearFromTime t)); [|lia].
  destruct (Z.leb_spec (YearFromTime t) 9999); [|lia].
  cbn [andb].
  pose proof (@number_of_digits_small 4 (YearFromTime t) ltac:(cbn; lia)) as E1.
  pose proof (@number_of_digits_small 2 (MonthFromTime t + 1) ltac:(cbn; lia)) as E2.
  pose proof (@number_of_digits_small 2 (DateFromTime t) ltac:(cbn; lia)) as E3.
  cbn [digits app] in *.
  unfold date_fields. cbn [N.eqb Pos.eqb andb].
  rewrite E1, E2, E3.
  replace (MonthFromTime t + 1 - 1) with (MonthFromTime t) by lia.
  destruct (Z.leb_spec 1 (MonthFromTime t + 1)); [|lia].
  destruct (Z.leb_spec (MonthFromTime t + 1) 12); [|lia].
  destruct (Z.leb_spec 1 (DateFromTime t)); [|lia].
  destruct (Z.leb_spec (DateFromTime t) (days_in_month (YearFromTime t) (MonthFromTime t))); [|lia].
  reflexivity.
Qed.

(** ... and so midnight UTC of the same day. *)
Lemma parse_iso_date t :
  four_digit_year t ->
  parse_date_only (iso_date t) = Some (Day t * msPerDay).
Proof.
  intros H. unfold parse_date_only. rewrite date_fields_iso_date by assumption.
  unfold civil.
  replace (MonthFromTime t + 1 - 1) with (MonthFromTime t) by lia.
  rewrite MakeDay_of_time. reflexivity.
Qed.

(** The fields of a date-only string lie in the calendar. *)
Lemma date_fields_valid s y m d :
  date_fields s = Some (y, m, d) ->
  1 <= m <= 12 /\ 1 <= d <= days_in_month y (m - 1).
Proof.
  unfold date_fields.
  destruct s as [|y1 [|y2 [|y3 [|y4 [|s1 [|m1 [|m2 [|s2 [|d1 [|d2 [|x s]]]]]]]]]]];
    try discriminate.
  destruct ((s1 =? 45) && (s2 =? 45))%N; [|discriminate].
  destruct (number_of 0 [y1; y2; y3; y4]) as [y'|]; [|discriminate].
  destruct (number_of 0 [m1; m2]) as [m'|]; [|discriminate].
  destruct (number_of 0 [d1; d2]) as [d'|]; [|discriminate].
  destruct (Z.leb_spec 1 m'); [|discriminate].
  destruct (Z.leb_spec m' 12); [|discriminate].
  destruct (Z.leb_spec 1 d'); [|discriminate].
  destruct (Z.leb_spec d' (days_in_month y' (m' - 1))); [|discriminate].
  cbn [andb]. intros Hs; inversion Hs; subst. lia.
Qed.

Lemma civil_valid t :
  let '(y, m, d) := civil t in
  1 <= m <= 12 /\ 1 <= d <= days_in_month y (m - 1).
Proof.
  unfold civil.
  pose proof (DayWithinYear_range t) as Hn.
  pose proof (@date_in_month (YearFromTime t) _ Hn) as Hd. cbv zeta in Hd.
  pose proof (month_of_year_day_range (is_leap (YearFromTime t)) (DayWithinYear t)) as Hm.
  fold (MonthFromTime t) in Hd, Hm. fold (DateFromTime t) in Hd.
  replace (MonthFromTime t + 1 - 1) with (MonthFromTime t) by lia. lia.
Qed.

(** A day of the calendar lies within its year. *)
Lemma MakeDay_within_year y m d :
  1 <= m <= 12 -> 1 <= d <= days_in_month y (m - 1) ->
  DayFromYear y <= MakeDay y (m - 1) d < DayFromYear (y + 1).
Proof.
  intros Hm Hd. rewrite DayFromYear_succ.
  unfold MakeDay, DaysInYear. revert Hd.
  unfold days_in_month, days_before_month.
  destruct (is_leap y); split_tables.
Qed.

(** Within a year, days are ordered as (month, day) pairs are. *)
Lemma MakeDay_same_year y m1 d1 m2 d2 :
  1 <= m1 <= 12 -> 1 <= d1 <= days_in_month y (m1 - 1) ->
  1 <= m2 <= 12 -> 1 <= d2 <= days_in_month y (m2 - 1) ->
  (MakeDay y (m1 - 1) d1 < MakeDay y (m2 - 1) d2 <->
   m1 < m2 \/ (m1 = m2 /\ d1 < d2)).
Proof.
  intros Hm1 Hd1 Hm2 Hd2. unfold MakeDay. revert Hd1 Hd2.
  unfold days_in_month, days_before_month.
  assert (C1 : m1 = 1 \/ m1 = 2 \/ m1 = 3 \/ m1 = 4 \/ m1 = 5 \/ m1 = 6 \/
               m1 = 7 \/ m1 = 8 \/ m1 = 9 \/ m1 = 10 \/ m1 = 11 \/ m1 = 12) by lia.
  assert (C2 : m2 = 1 \/ m2 = 2 \/ m2 = 3 \/ m2 = 4 \/ m2 = 5 \/ m2 = 6 \/
               m2 = 7 \/ m2 = 8 \/ m2 = 9 \/ m2 = 10 \/ m2 = 11 \/ m2 = 12) by lia.
  destruct (is_leap y);
    repeat (destruct C1 as [-> | C1]); try subst m1;
    repeat (destruct C2 as [-> | C2]); try subst m2;
    cbn; lia.
Qed.

(** Days are ordered as calendar dates are. *)
Lemma MakeDay_before a b :
  (let '(y, m, d) := a in 1 <= m <= 12 /\ 1 <= d <= days_in_month y (m - 1)) ->
  (let '(y, m, d) := b in 1 <= m <= 12 /\ 1 <= d <= days_in_month y (m - 1)) ->
  (let '(y1, m1, d1) := a in
   let '(y2, m2, d2) := b in
   MakeDay y1 (m1 - 1) d1 <? MakeDay y2 (m2 - 1) d2) = civil_before a b.
Proof.
  destruct a as [[y1 m1] d1], b as [[y2 m2] d2]. intros [Hm1 Hd1] [Hm2 Hd2].
  unfold civil_before.
  pose proof (MakeDay_within_year y1 m1 d1 Hm1 Hd1) as W1.
  pose proof (MakeDay_within_year y2 m2 d2 Hm2 Hd2) as W2.
  destruct (Z.ltb_spec y1 y2) as [L|L]; cbn [orb].
  - pose proof (@DayFromYear_mono (y1 + 1) y2 ltac:(lia)).
    apply Z.ltb_lt. lia.
  - destruct (Z.eqb_spec y1 y2) as [->|N]; cbn [andb].
    + pose proof (MakeDay_same_year y2 m1 d1 m2 d2 Hm1 Hd1 Hm2 Hd2) as Q.
      destruct (Z.ltb_spec (MakeDay y2 (m1 - 1) d1) (MakeDay y2 (m2 - 1) d2));
        destruct (Z.ltb_spec m1 m2); destruct (Z.eqb_spec m1 m2);
        destruct (Z.ltb_spec d1 d2); cbn [andb orb]; try reflexivity; lia.
    + pose proof (@DayFromYear_mono (y2 + 1) y1 ltac:(lia)).
      apply Z.ltb_ge. lia.
Qed.

Lemma Day_of_midnight d : Day (d * msPerDay) = d.
Proof. unfold Day, msPerDay. apply Z.div_mul. lia. Qed.

(** A date-only string lies on a UTC day before that of [now] exactly
    when its calendar date lies before the calendar date of [now]. *)
Lemma date_only_before s ymd t now :
  date_fields s = Some ymd ->
  parse_date_only s = Some t ->
  (Day t <? Day now) = civil_before ymd (civil now).
Proof.
  intros F P. unfold parse_date_only in P. rewrite F in P.
  destruct ymd as [[y m] d]. inversion P; subst t.
  rewrite Day_of_midnight.
  rewrite <- (MakeDay_before (y, m, d) (civil now)).
  - unfold civil.
    replace (MonthFromTime now + 1 - 1) with (MonthFromTime now) by lia.
    rewrite MakeDay_of_time. reflexivity.
  - apply (date_fields_valid s). assumption.
  - apply civil_valid.
Qed.

(** Comparing a time value with midnight of a day compares UTC days. *)
Lemma before_midnight_iff (t d : Z) : t < d * msPerDay <-> Day t < d.
Proof. unfold Day, msPerDay. split; intros; divlia. Qed.

End CalendarFacts.

(** ** The scanner of [JSON.parse] *)

Module JsonFacts.
Import Json.
Local Open Scope N_scope.

Ltac tests :=
  repeat (cbn [andb orb negb];
          match goal with
          | |- context [(?a =? ?b)%N] =>
              destruct (N.eqb_spec a b); try (exfalso; lia)
          | |- context [(?a <=? ?b)%N] =>
              destruct (N.leb_spec a b); try (exfalso; lia)
          | |- context [(?a <? ?b)%N] =>
              destruct (N.ltb_spec a b); try (exfalso; lia)
          end); cbn [andb orb negb].

Lemma scan_app a b st :
  scan st (a ++ b) =
  match run st a with
  | Some (st', ts) =>
      match scan st' b with
      | Some ts' => Some (ts ++ ts')
      | None => None
      end
  | None => None
  end.
Proof.
  revert st. induction a as [|c a IH]; intros st; cbn.
  - destruct (scan st b); reflexivity.
  - destruct (step st c) as [[st' ts]|]; [|reflexivity].
    rewrite IH. destruct (run st' a) as [[st'' ts']|]; [|reflexivity].
    destruct (scan st'' b); [|reflexivity].
    rewrite app_assoc. reflexivity.
Qed.

Lemma scan_run st s :
  scan st s =
  match run st s with
  | Some (st', ts) =>
      match finish st' with
      | Some ts' => Some (ts ++ ts')
      | None => None
      end
  | None => None
  end.
Proof. rewrite <- (app_nil_r s) at 1. rewrite scan_app. reflexivity. Qed.

Lemma step_out_settled c st ts : step_out c = Some (st, ts) -> settled st.
Proof.
  unfold step_out, is_json_ws, is_digit.
  tests; intros Hs; inversion Hs; subst; cbn; auto.
Qed.

Lemma step_settled st c st' ts :
  settled st -> step st c = Some (st', ts) -> settled st'.
Proof.
  destruct st as [ | acc | acc | acc k v | rest t | n a]; cbn [step].
  - intros _. apply step_out_settled.
  - tests; intros _ Hs; inversion Hs; subst; cbn; auto.
  - destruct (c =? 117); [intros _ H; inversion H; subst; cbn; auto|].
    destruct (escape c); intros _ H; inversion H; subst; cbn; auto.
  - destruct (hex_value c); [|discriminate].
    destruct k; intros _ H; inversion H; subst; cbn; auto.
  - destruct rest as [|x [|y rest]]; [discriminate | |].
    + destruct (c =? x); intros _ H; inversion H; subst; cbn; auto.
    + destruct (c =? x); [|discriminate].
      intros S H; inversion H; subst.
      cbn in S |- *. apply andb_prop in S. apply S.
  - intros _.
    assert (F : forall x, finish_num a c = Some x -> settled (fst x)).
    { unfold finish_num. destruct (step_out c) as [[s1 t1]|] eqn:Es; [|discriminate].
      intros x H; inversion H; subst. cbn. eapply step_out_settled; eauto. }
    destruct n; cbn [step_num]; unfold is_digit, is_e;
      repeat match goal with
             | |- context [if ?b then _ else _] => destruct b
             end;
      intros H; try (apply (F _ H)); inversion H; subst; cbn; auto.
Qed.

Lemma run_settled s st st' ts :
  settled st -> run st s = Some (st', ts) -> settled st'.
Proof.
  revert st ts. induction s as [|c s IH]; intros st ts S; cbn.
  - intros H; inversion H; subst; assumption.
  - destruct (step st c) as [[s1 t1]|] eqn:Es; [|discriminate].
    destruct (run s1 s) as [[s2 t2]|] eqn:Er; [|discriminate].
    intros H; inversion H; subst.
    eapply IH; [eapply step_settled; eauto | eauto].
Qed.

(** White space below 128, and the rest of the class. *)
Lemma is_ws_cases c :
  is_ws c = true ->
  c = 9 \/ c = 10 \/ c = 11 \/ c = 12 \/ c = 13 \/ c = 32 \/ 128 <= c.
Proof.
  unfold is_ws. intros H.
  destruct (N.le_gt_cases 128 c) as [|L]; [tauto|].
  destruct (N.eqb_spec c 32); [tauto|].
  destruct (N.leb_spec 9 c); destruct (N.leb_spec c 13); cbn [andb orb] in H.
  - lia.
  - revert H. tests; discriminate.
  - revert H. tests; discriminate.
  - revert H. tests; discriminate.
Qed.

Lemma letter_neq rest c x r :
  forallb (fun c => (97 <=? c) && (c <=? 122)) rest = true ->
  rest = x :: r -> c < 97 \/ 122 < c -> (c =? x) = false.
Proof.
  intros F -> Hc. cbn in F. apply andb_prop in F as [F _].
  apply andb_prop in F as [F1 F2].
  apply N.leb_le in F1, F2. apply N.eqb_neq. lia.
Qed.

(** What a white-space code unit does to the scanner: it is refused, or
    it ends the token being read, or it is one more unit of a string. *)
Lemma step_ws st c :
  settled st -> is_ws c = true ->
  step st c = None \/
  (exists ts, step st c = Some (LOut, ts) /\ finish st = Some ts) \/
  (exists acc, st = LStr acc /\ step st c = Some (LStr (c :: acc), [])).
Proof.
  intros S W.
  assert (Hc : c < 97 \/ 122 < c).
  { apply is_ws_cases in W. lia. }
  destruct st as [ | acc | acc | acc k v | rest t | n a].
  - apply is_ws_cases in W.
    destruct W as [-> | [-> | [-> | [-> | [-> | [-> | W]]]]]];
      try (right; left; exists []; split; reflexivity);
      try (left; reflexivity).
    left. cbn [step]. unfold step_out, is_json_ws, is_digit. tests. reflexivity.
  - apply is_ws_cases in W.
    destruct W as [-> | [-> | [-> | [-> | [-> | [-> | W]]]]]];
      try (left; reflexivity);
      try (right; right; eexists; split; reflexivity).
    right; right. exists acc. split; [reflexivity|].
    cbn [step]. tests. reflexivity.
  - left. apply is_ws_cases in W.
    destruct W as [-> | [-> | [-> | [-> | [-> | [-> | W]]]]]];
      try reflexivity.
    cbn [step]. unfold escape. tests. reflexivity.
  - left. apply is_ws_cases in W.
    destruct W as [-> | [-> | [-> | [-> | [-> | [-> | W]]]]]];
      try reflexivity.
    cbn [step]. unfold hex_value. tests. reflexivity.
  - left. cbn in S. cbn [step].
    destruct rest as [|x [|y rest]]; [reflexivity | |].
    + rewrite (@letter_neq _ c x [] S eq_refl Hc). reflexivity.
    + rewrite (@letter_neq _ c x (y :: rest) S eq_refl Hc). reflexivity.
  - apply is_ws_cases in W.
    destruct W as [-> | [-> | [-> | [-> | [-> | [-> | W]]]]]];
      destruct n;
      try (left; reflexivity);
      try (right; left; eexists; split; reflexivity).
    all: left; cbn [step step_num]; unfold finish_num, step_out, is_json_ws,
           is_digit, is_e; tests; reflexivity.
Qed.

(** Trailing white space adds no token. *)
Lemma scan_ws_tail tail st ts :
  settled st -> forallb is_ws tail = true ->
  scan st tail = Some ts -> finish st = Some ts.
Proof.
  revert st ts. induction tail as [|c tail IH]; intros st ts S W; cbn.
  - auto.
  - cbn in W. apply andb_prop in W as [Wc Wt].
    destruct (step_ws st c S Wc) as [E | [[t1 [E F]] | [acc [-> E]]]]; rewrite E.
    + discriminate.
    + destruct (scan LOut tail) as [t2|] eqn:Es; [|discriminate].
      intros H; inversion H; subst.
      apply (IH LOut t2 I Wt) in Es. cbn in Es. inversion Es; subst.
      rewrite app_nil_r. assumption.
    + destruct (scan (LStr (c :: acc)) tail) as [t2|] eqn:Es; [|discriminate].
      apply (IH (LStr (c :: acc)) t2 I Wt) in Es. discriminate.
Qed.

(** Leading white space adds no token. *)
Lemma scan_drop_ws s ts : scan LOut s = Some ts -> scan LOut (drop_ws s) = Some ts.
Proof.
  induction s as [|c s IH]; cbn [drop_ws]; auto.
  destruct (is_ws c) eqn:W; auto.
  cbn [scan].
  destruct (@step_ws LOut c I W) as [E | [[t1 [E F]] | [acc [E _]]]];
    [rewrite E; discriminate | | discriminate].
  rewrite E. cbn in F. inversion F; subst.
  destruct (scan LOut s); [|discriminate].
  intros H; inversion H; subst. apply IH. reflexivity.
Qed.

Lemma drop_ws_split s :
  exists w, s = w ++ drop_ws s /\ forallb is_ws w = true.
Proof.
  induction s as [|c s [w [E F]]]; cbn.
  - exists []. auto.
  - destruct (is_ws c) eqn:W.
    + exists (c :: w). cbn. rewrite W, F. split; [congruence | reflexivity].
    + exists []. auto.
Qed.

Lemma forallb_rev (f : N -> bool) l : forallb f (rev l) = forallb f l.
Proof.
  induction l as [|x l IH]; cbn; auto.
  rewrite forallb_app, IH. cbn. rewrite andb_true_r. apply andb_comm.
Qed.

Lemma scan_trim s ts : scan LOut s = Some ts -> scan LOut (trim s) = Some ts.
Proof.
  intros H. apply scan_drop_ws in H. unfold trim.
  set (u := drop_ws s) in *. clearbody u.
  destruct (drop_ws_split (rev u)) as [w [E F]].
  assert (U : u = rev (drop_ws (rev u)) ++ rev w).
  { rewrite <- rev_app_distr, <- E, rev_involutive. reflexivity. }
  set (core := rev (drop_ws (rev u))) in *. clearbody core.
  rewrite U, scan_app in H. rewrite scan_run.
  destruct (run LOut core) as [[st1 t1]|] eqn:R; [|discriminate].
  destruct (scan st1 (rev w)) as [t2|] eqn:Es; [|discriminate].
  inversion H; subst.
  apply scan_ws_tail in Es.
  - rewrite Es. reflexivity.
  - eapply run_settled; [|eauto]. exact I.
  - rewrite forallb_rev. assumption.
Qed.

(** [JSON.parse] does not see white space around the text. *)
Lemma parse_trim s v : parse s = Some v -> parse (trim s) = Some v.
Proof.
  unfold parse. destruct (scan LOut s) as [ts|] eqn:E; [|discriminate].
  rewrite (scan_trim _ _ E). auto.
Qed.

(** *** Code fences in a JSON text *)

(** A line feed is only accepted between tokens. *)
Lemma step_newline st st' ts :
  settled st -> step st 10 = Some (st', ts) -> st' = LOut.
Proof.
  intros S H.
  destruct (step_ws st 10 S eq_refl) as [E | [[t1 [E F]] | [acc [-> E]]]].
  - congruence.
  - congruence.
  - discriminate.
Qed.

(** A backtick is only accepted inside a string. *)
Lemma step_backtick st st' ts :
  settled st -> step st 96 = Some (st', ts) ->
  exists acc, st = LStr acc /\ st' = LStr (96 :: acc).
Proof.
  intros S.
  destruct st as [ | acc | acc | acc k v | rest t | n a]; cbn [step].
  - discriminate.
  - intros H; inversion H; subst. eauto.
  - discriminate.
  - discriminate.
  - cbn in S. destruct rest as [|x [|y rest]]; [discriminate | |].
    + rewrite (@letter_neq _ 96 x [] S eq_refl ltac:(lia)). discriminate.
    + rewrite (@letter_neq _ 96 x (y :: rest) S eq_refl ltac:(lia)). discriminate.
  - destruct n; discriminate.
Qed.

(** Inside a string, the units of a marker keep the scanner inside the
    string, and the line feed that ends the marker is refused. *)
Lemma marker_in_string pat acc r x ts :
  Forall (fun p => 32 <= p /\ p <> 34 /\ p <> 92) pat ->
  scan (LStr acc) r = Some ts ->
  starts_with (pat ++ [10]) (r ++ x) = false.
Proof.
  intros P. revert acc r ts.
  induction P as [|p pat [P1 [P2 P3]] P IH]; intros acc r ts H.
  - destruct r as [|c r]; [discriminate|]. cbn [app starts_with].
    destruct (N.eqb_spec 10 c) as [<-|]; [discriminate | reflexivity].
  - destruct r as [|c r]; [discriminate|]. cbn [app starts_with].
    destruct (N.eqb_spec p c) as [<-|]; [|reflexivity].
    cbn [andb]. revert H. cbn [scan step].
    destruct (N.eqb_spec p 34); [lia|].
    destruct (N.eqb_spec p 92); [lia|].
    destruct (N.ltb_spec p 32); [lia|].
    destruct (scan (LStr (p :: acc)) r) as [t2|] eqn:Es; [|discriminate].
    intros _. eapply IH; eauto.
Qed.

Lemma remove_fences_cons c s :
  starts_with fence_open (c :: s) = false ->
  starts_with fence_close (c :: s) = false ->
  remove_fences_from 0 (c :: s) = c :: remove_fences_from 0 s.
Proof. intros A B. cbn [remove_fences_from]. rewrite A, B. reflexivity. Qed.

(** In a text the scanner accepts, the only marker before the closing
    fence is the closing fence. *)
Lemma remove_fences_body t st ts :
  settled st -> scan st t = Some ts ->
  remove_fences_from 0 (t ++ fence_close) = t.
Proof.
  revert st ts. induction t as [|c t IH]; intros st ts S H.
  - reflexivity.
  - cbn [scan] in H.
    destruct (step st c) as [[st1 t1]|] eqn:E; [|discriminate].
    destruct (scan st1 t) as [t2|] eqn:Es; [|discriminate].
    pose proof (step_settled st c st1 t1 S E) as S1.
    cbn [app]. rewrite remove_fences_cons.
    + f_equal. eapply IH; eauto.
    + unfold fence_open. cbn [starts_with].
      destruct (N.eqb_spec 96 c) as [<-|]; [|reflexivity].
      cbn [andb].
      destruct (step_backtick st st1 t1 S E) as [acc [-> ->]].
      apply (marker_in_string [96; 96; 106; 115; 111; 110] (96 :: acc) t
               fence_close t2); [|assumption].
      repeat constructor; lia.
    + unfold fence_close. cbn [starts_with].
      destruct (N.eqb_spec 10 c) as [<-|]; [|reflexivity].
      cbn [andb].
      apply (step_newline st st1 t1 S) in E. subst st1.
      destruct t as [|c2 t]; [reflexivity|].
      cbn [app starts_with].
      destruct (N.eqb_spec 96 c2) as [<-|]; [|reflexivity].
      discriminate.
Qed.

(** Stripping the fences of a fenced JSON text gives the text back. *)
Lemma remove_fences_fenced t v : parse t = Some v -> remove_fences (fenced t) = t.
Proof.
  unfold parse. destruct (scan LOut t) as [ts|] eqn:E; [|discriminate].
  intros _. unfold fenced, remove_fences.
  change (remove_fences_from 0 (fence_open ++ t ++ fence_close))
    with (remove_fences_from 0 (t ++ fence_close)).
  eapply remove_fences_body; [|eauto]. exact I.
Qed.

(** A fenced text is not JSON. *)
Lemma parse_fenced t : parse (fenced t) = None.
Proof. reflexivity. Qed.

End JsonFacts.

(** ** Response parsing *)

Lemma parse_response_json E text v :
  JSON_parse text = Some v -> parse_response E text = inr v.
Proof. unfold parse_response. intros ->. reflexivity. Qed.

Lemma parse_response_fenced E text v :
  JSON_parse text = Some v -> parse_response E (fenced text) = inr v.
Proof.
  intros H. unfold parse_response, JSON_parse.
  rewrite JsonFacts.parse_fenced.
  rewrite (JsonFacts.remove_fences_fenced _ _ H).
  rewrite (JsonFacts.parse_trim _ _ H). reflexivity.
Qed.

(** ** The extraction handler *)

Module GenerateFacts.
Import GenerateTodo.

Lemma normalize_nil : normalize [] = [].
Proof. reflexivity. Qed.

(** A null body makes the destructuring throw, before the validation. *)
Lemma POST_null_body E upstream now :
  POST E upstream now (inr JNull)
  = (on_error (raise E (DestructureNull k_prompt)), []).
Proof. reflexivity. Qed.

(** The path through the service and post-processing. *)
Lemma POST_reaches E upstream now body raw todo :
  extraction_reaches E upstream now body raw todo ->
  POST E upstream now (inr body) =
  match postprocess E now (normalize raw) todo with
  | inr todo' => (json_response (JObj [(k_todo, todo')]), [extraction_call E now raw])
  | inl e => (on_error e, [extraction_call E now raw])
  end.
Proof.
  intros [D [[L1 L2] [text [U P]]]].
  unfold POST, try_catch, attempt, bind, lift. rewrite D.
  destruct raw as [|c raw]; [rewrite normalize_nil in L1; cbn in L1; lia|].
  destruct (Z.ltb_spec (js_length (normalize (c :: raw))) 2); [lia|].
  destruct (Z.ltb_spec 500 (js_length (normalize (c :: raw)))); [lia|].
  unfold sendMessage. fold (extraction_call E now (c :: raw)).
  rewrite U, P.
  destruct (postprocess E now (normalize (c :: raw)) todo); reflexivity.
Qed.

Ltac distinct_keys := let Hk := fresh in intros Hk; vm_compute in Hk; discriminate Hk.

(** *** The three post-processing steps on an object *)

Lemma adjust_title_missing E prompt o :
  falsy (obj_get k_title o) = true ->
  adjust_title E prompt (JObj o) =
  inr (JObj (obj_set k_title
               (JStr (if (30 <? js_length prompt)%Z
                      then substring0 30 prompt ++ ellipsis
                      else prompt)) o)).
Proof. intros F. unfold adjust_title. cbn. rewrite F. reflexivity. Qed.

Lemma adjust_title_long E prompt o title :
  obj_get k_title o = Some (JStr title) ->
  (50 < js_length title)%Z ->
  adjust_title E prompt (JObj o) =
  inr (JObj (obj_set k_title (JStr (substring0 47 title ++ ellipsis))
               (if falsy (obj_get k_description o)
                then obj_set k_description (JStr title) o
                else o))).
Proof.
  intros T L. unfold adjust_title. cbn [get_prop bindR]. rewrite T.
  destruct title as [|c title]; [cbn in L; lia|].
  cbn [falsy truthy negb defined length_gt].
  destruct (Z.ltb_spec 50 (js_length (c :: title))); [|lia].
  destruct (falsy (obj_get k_description o)); cbn [set_prop bindR get_prop].
  - rewrite obj_get_set_other by distinct_keys. rewrite T. reflexivity.
  - rewrite T. reflexivity.
Qed.

(** The title step returns an object and only touches the title and the
    description. *)
Lemma adjust_title_frame E prompt o todo1 :
  adjust_title E prompt (JObj o) = inr todo1 ->
  exists o1, todo1 = JObj o1 /\
    forall k, k <> k_title -> k <> k_description -> obj_get k o1 = obj_get k o.
Proof.
  unfold adjust_title. cbn [get_prop bindR].
  destruct (falsy (obj_get k_title o)).
  - cbn. intros H; inversion H; subst. eexists; split; [reflexivity|].
    intros k K1 K2. apply obj_get_set_other; assumption.
  - destruct (length_gt E (defined (obj_get k_title o)) 50) as [e|[|]];
      cbn [bindR]; [discriminate | |].
    + destruct (falsy (obj_get k_description o)); cbn [set_prop bindR get_prop].
      * destruct (substring_of E _ 47) as [e|short]; cbn [bindR]; [discriminate|].
        intros H; inversion H; subst. eexists; split; [reflexivity|].
        intros k K1 K2. rewrite !obj_get_set_other by assumption. reflexivity.
      * destruct (substring_of E _ 47) as [e|short]; cbn [bindR]; [discriminate|].
        intros H; inversion H; subst. eexists; split; [reflexivity|].
        intros k K1 K2. rewrite !obj_get_set_other by assumption. reflexivity.
    + intros H; inversion H; subst. eexists; split; [reflexivity|]. auto.
Qed.

Lemma default_priority_object E o :
  default_priority E (JObj o) = inr (JObj (with_default_priority o)).
Proof.
  unfold default_priority, with_default_priority. cbn.
  destruct (falsy (obj_get k_priority o)); reflexivity.
Qed.

Lemma default_priority_frame o k :
  k <> k_priority -> obj_get k (with_default_priority o) = obj_get k o.
Proof.
  intros K. unfold with_default_priority.
  destruct (falsy (obj_get k_priority o)); [|reflexivity].
  apply obj_get_set_other; assumption.
Qed.

(** The date step returns an object and only touches the due date. *)
Lemma correct_due_date_frame E now o :
  due_date_converts E o ->
  exists o', correct_due_date E now (JObj o) = inr (JObj o') /\
    forall k, k <> k_due_date -> obj_get k o' = obj_get k o.
Proof.
  intros C. unfold correct_due_date. cbn [get_prop bindR].
  destruct (obj_get k_due_date o) as [d|] eqn:D; [|eauto].
  destruct (truthy d) eqn:T; [|eauto].
  destruct (C d D T) as [t Ht]. rewrite Ht. cbn [bindR].
  destruct (date_lt t (Date_parse E (currentDate now))); [|eauto].
  cbn. eexists; split; [reflexivity|].
  intros k K. apply obj_get_set_other; assumption.
Qed.

(** Today, as the handler computes it, is midnight UTC of the current
    day. *)
Lemma today_is_midnight E now :
  Calendar.four_digit_year now ->
  Date_parse E (currentDate now) = Some (Calendar.Day now * Calendar.msPerDay)%Z.
Proof.
  intros H. unfold Date_parse, currentDate.
  rewrite CalendarFacts.parse_iso_date by assumption. reflexivity.
Qed.

Lemma correct_due_date_value E now o d t :
  Calendar.four_digit_year now ->
  obj_get k_due_date o = Some d -> truthy d = true ->
  new_Date E d = inr (Some t) ->
  correct_due_date E now (JObj o) =
  inr (JObj (if (Calendar.Day t <? Calendar.Day now)%Z
             then obj_set k_due_date (JStr (currentDate now)) o
             else o)).
Proof.
  intros Y D T N. unfold correct_due_date. cbn [get_prop bindR].
  rewrite D, T, N. cbn [bindR].
  rewrite today_is_midnight by assumption. cbn [date_lt].
  destruct (Z.ltb_spec t (Calendar.Day now * Calendar.msPerDay));
    destruct (Z.ltb_spec (Calendar.Day t) (Calendar.Day now));
    try reflexivity.
  - apply CalendarFacts.before_midnight_iff in H. lia.
  - apply CalendarFacts.before_midnight_iff in H0. lia.
Qed.

Lemma due_date_converts_frame E o o' :
  obj_get k_due_date o' = obj_get k_due_date o ->
  due_date_converts E o -> due_date_converts E o'.
Proof. intros Eq C d D. apply C. congruence. Qed.

(** *** Objects whose title and due date are primitive values *)

Lemma due_date_converts_primitive E o :
  primitive (obj_get k_due_date o) -> due_date_converts E o.
Proof.
  intros P d D _. rewrite D in P.
  destruct d; cbn in P; try contradiction; eexists; reflexivity.
Qed.

Lemma adjust_title_primitive E prompt o :
  primitive (obj_get k_title o) ->
  exists o1, adjust_title E prompt (JObj o) = inr (JObj o1).
Proof.
  intros P. unfold adjust_title. cbn [get_prop bindR].
  destruct (falsy (obj_get k_title o)) eqn:F; [cbn; eauto|].
  destruct (obj_get k_title o) as [[ | b | d | s | l | m]|] eqn:T;
    cbn in P; try contradiction; try discriminate;
    cbn [defined length_gt bindR]; eauto.
  destruct (50 <? js_length s)%Z; [|eauto].
  destruct (falsy (obj_get k_description o)); cbn [set_prop bindR get_prop].
  - rewrite obj_get_set_other by distinct_keys. rewrite T. cbn. eauto.
  - rewrite T. cbn. eauto.
Qed.

(** Post-processing returns an object for every such object. *)
Lemma postprocess_primitive E now prompt o :
  primitive (obj_get k_title o) ->
  primitive (obj_get k_due_date o) ->
  exists o', postprocess E now prompt (JObj o) = inr (JObj o').
Proof.
  intros PT PD. unfold postprocess.
  destruct (adjust_title_primitive E prompt o PT) as [o1 A]. rewrite A.
  destruct (adjust_title_frame E prompt o _ A) as [o1' [Eq F1]].
  inversion Eq; subst o1'. cbn [bindR].
  rewrite default_priority_object. cbn [bindR].
  assert (C : due_date_converts E (with_default_priority o1)).
  { apply due_date_converts_primitive.
    rewrite default_priority_frame by distinct_keys.
    rewrite F1 by distinct_keys. assumption. }
  destruct (correct_due_date_frame E now _ C) as [o' [-> _]]. eauto.
Qed.

End GenerateFacts.

(** ** The analysis handler *)

Module AnalyzeFacts.
Import AnalyzeTodos.

(** What the callback of [map] returns for a task that is not null. *)
Lemma project_fields E t :
  t <> JNull ->
  project E t =
  inr (object_literal (map (fun k => (k, field t k)) task_fields)).
Proof. destruct t; intros H; try reflexivity. congruence. Qed.

Lemma project_agrees E t1 t2 :
  same_task_fields t1 t2 -> project E t1 = project E t2.
Proof.
  intros [N F].
  destruct (json_is_null t1) eqn:E1.
  - destruct t1; try discriminate.
    rewrite (proj1 N eq_refl). reflexivity.
  - assert (N1 : t1 <> JNull) by (intros ->; discriminate).
    assert (N2 : t2 <> JNull) by (intros H; apply N1, N, H).
    rewrite (project_fields E t1 N1), (project_fields E t2 N2).
    do 2 f_equal. apply map_ext_in. intros k K. rewrite (F k K). reflexivity.
Qed.

Lemma map_project_agrees E todos1 todos2 :
  Forall2 same_task_fields todos1 todos2 ->
  map_result (project E) todos1 = map_result (project E) todos2.
Proof.
  induction 1 as [|t1 t2 l1 l2 S _ IH]; cbn; [reflexivity|].
  rewrite (project_agrees E t1 t2 S), IH. reflexivity.
Qed.

Lemma todosText_agrees E todos1 todos2 :
  Forall2 same_task_fields todos1 todos2 ->
  todosText E todos1 = todosText E todos2.
Proof.
  intros H. unfold todosText. rewrite (map_project_agrees E _ _ H). reflexivity.
Qed.

Lemma map_project_total E todos :
  Forall (fun t => t <> JNull) todos ->
  exists ps, map_result (project E) todos = inr ps.
Proof.
  induction 1 as [|t l N _ [ps IH]]; cbn.
  - eauto.
  - rewrite (project_fields E t N), IH. cbn. eauto.
Qed.

Lemma todosText_total E todos :
  Forall (fun t => t <> JNull) todos ->
  todosText E todos = inr (payload E todos).
Proof.
  intros H. unfold payload, todosText.
  destruct (map_project_total E todos H) as [ps ->]. reflexivity.
Qed.

Lemma destructure_object E body k v :
  destructure E body k = inr (Some v) -> exists m, body = JObj m.
Proof. destruct body; cbn; intros H; try discriminate. eauto. Qed.

(** The handler as a function of the task list and the time frame. *)
Lemma POST_list E upstream now body todos :
  destructure E body k_todos = inr (Some (JArr todos)) ->
  POST E upstream now (inr body) =
  match todos with
  | [] => (json_response empty_analysis, [])
  | _ =>
      match todosText E todos with
      | inl e => (on_error e, [])
      | inr text =>
          let call := {| call_system := systemInstruction E now (field body k_timeframe);
                         call_message := prompt_of (field body k_timeframe) text |} in
          match upstream call with
          | inl e => (on_error e, [call])
          | inr responseText =>
              match parse_response E responseText with
              | inl e => (on_error e, [call])
              | inr analysis => (json_response analysis, [call])
              end
          end
      end
  end.
Proof.
  intros D. destruct (destructure_object E body _ _ D) as [m ->].
  unfold POST, try_catch, attempt, bind, lift. rewrite D. cbn [destructure field].
  destruct todos as [|t todos]; [reflexivity|].
  destruct (todosText E (t :: todos)) as [e|text]; [reflexivity|].
  unfold sendMessage. cbn [app].
  destruct (upstream _) as [e|responseText]; [reflexivity|].
  destruct (parse_response E responseText); reflexivity.
Qed.

End AnalyzeFacts.

(* ================================================================== *)
(** * The claims *)
(* ================================================================== *)

Section Claims.
Import GenerateTodo.

Lemma due_date_converts_absent E o :
  obj_get k_due_date o = None -> due_date_converts E o.
Proof. intros H d D. congruence. Qed.

Lemma due_date_converts_text E o s :
  obj_get k_due_date o = Some (JStr s) -> due_date_converts E o.
Proof.
  intros H d D _. rewrite H in D. inversion D; subst.
  eexists. reflexivity.
Qed.

Lemma reaches_past :
  extraction_reaches Sample.engine (answering Examples.reply_past)
    Examples.now0 (Examples.body_of_prompt Examples.raw_report)
    Examples.raw_report (JObj Examples.todo_past).
Proof.
  split; [(vm_compute; reflexivity)|]. split; [vm_compute; split; discriminate|].
  exists Examples.reply_past. split; (vm_compute; reflexivity).
Qed.

Lemma reaches_long :
  extraction_reaches Sample.engine (answering Examples.reply_long)
    Examples.now0 (Examples.body_of_prompt Examples.raw_report)
    Examples.raw_report (JObj Examples.todo_long).
Proof.
  split; [(vm_compute; reflexivity)|]. split; [vm_compute; split; discriminate|].
  exists Examples.reply_long. split; (vm_compute; reflexivity).
Qed.

(** Validation of a body from which the prompt can be read, which is
    every body but null: when the prompt is missing, is not a string, or
    has a normalized length below 2 or above 500, the request is
    answered with status 400 and an [{error}] body, and no message is
    sent to the Text Completion Service. *)
Theorem invalid_prompt_is_rejected E upstream now body prompt :
  destructure E body k_prompt = inr prompt ->
  invalid_prompt prompt ->
  exists message,
    In message [msg_invalid_input; msg_too_short; msg_too_long] /\
    POST E upstream now (inr body) = (error_response message 400, []).
Proof.
  intros D V. unfold POST, try_catch, attempt, bind, lift. rewrite D.
  destruct prompt as [[ | b | d | raw | l | m]|];
    try (exists msg_invalid_input; split; [cbn; auto | reflexivity]).
  destruct raw as [|c raw];
    [exists msg_invalid_input; split; [cbn; auto | reflexivity]|].
  unfold invalid_prompt in V.
  destruct (Z.ltb_spec (js_length (normalize (c :: raw))) 2).
  - exists msg_too_short. split; [cbn; auto | reflexivity].
  - destruct (Z.ltb_spec 500 (js_length (normalize (c :: raw)))); [|lia].
    exists msg_too_long. split; [cbn; auto | reflexivity].
Qed.

Lemma invalid_prompt_is_rejected_witness :
  exists message,
    In message [msg_invalid_input; msg_too_short; msg_too_long] /\
    POST Sample.engine (answering Examples.reply_past) Examples.now0
      (inr (Examples.body_of_prompt Examples.raw_short))
    = (error_response message 400, []).
Proof.
  apply (invalid_prompt_is_rejected Sample.engine
           (answering Examples.reply_past) Examples.now0
           (Examples.body_of_prompt Examples.raw_short)
           (Some (JStr Examples.raw_short))).
  - (vm_compute; reflexivity).
  - left. vm_compute. reflexivity.
Defined.

(** C1.  A request body with a missing prompt is not always answered
    with status 400: for the body null, which has no prompt, the
    destructuring throws before the validation, and the handler answers
    through its catch block with status 500, the message of a failed
    request and the text of the engine under details.  No message is
    sent to the service.  The empty object, which has no prompt either,
    is answered with status 400 and the message of the validation. *)
Theorem null_body_is_answered_500 :
  POST Sample.engine (answering Examples.reply_past) Examples.now0 (inr JNull)
  = (json_response_with
       (JObj [(k_error, JStr msg_failed);
              (k_details,
               JStr (u16 "Cannot destructure property 'prompt' of 'body' as it is null."))])
       500,
     []) /\
  POST Sample.engine (answering Examples.reply_past) Examples.now0
    (inr (JObj []))
  = (error_response msg_invalid_input 400, []).
Proof. split; vm_compute; reflexivity. Qed.

(** C2.  When the due date of the parsed object is present and its time
    value [t] falls on a UTC day before the current one, the due date of
    the result is the current date; otherwise it is left as it was.  For
    a due date in the form YYYY-MM-DD, falling on an earlier day is
    being an earlier calendar date than the current UTC date. *)
Theorem past_due_date_moves_to_today E upstream now body raw o d t todo1 :
  Calendar.four_digit_year now ->
  extraction_reaches E upstream now body raw (JObj o) ->
  obj_get k_due_date o = Some d ->
  truthy d = true ->
  new_Date E d = inr (Some t) ->
  adjust_title E (normalize raw) (JObj o) = inr todo1 ->
  exists o',
    POST E upstream now (inr body)
    = (json_response (JObj [(k_todo, JObj o')]), [extraction_call E now raw]) /\
    obj_get k_due_date o'
    = Some (if (Calendar.Day t <? Calendar.Day now)%Z
            then JStr (Calendar.iso_date now)
            else d) /\
    (forall s ymd,
        d = JStr s -> Calendar.date_fields s = Some ymd ->
        (Calendar.Day t <? Calendar.Day now)%Z
        = Calendar.civil_before ymd (Calendar.civil now)).
Proof.
  intros Y R D T N A.
  rewrite (GenerateFacts.POST_reaches E upstream now body raw (JObj o) R).
  unfold postprocess. rewrite A.
  destruct (GenerateFacts.adjust_title_frame E _ o todo1 A) as [o1 [-> F1]].
  cbn [bindR]. rewrite GenerateFacts.default_priority_object. cbn [bindR].
  set (o2 := with_default_priority o1).
  assert (D2 : obj_get k_due_date o2 = Some d).
  { subst o2. rewrite GenerateFacts.default_priority_frame
      by GenerateFacts.distinct_keys.
    rewrite F1 by GenerateFacts.distinct_keys. assumption. }
  rewrite (GenerateFacts.correct_due_date_value E now o2 d t Y D2 T N).
  eexists. split; [reflexivity|]. split.
  - destruct (Calendar.Day t <? Calendar.Day now)%Z.
    + apply obj_get_set_same.
    + assumption.
  - intros s ymd -> F.
    apply (CalendarFacts.date_only_before s ymd t now F).
    cbn [new_Date] in N. unfold Date_parse in N.
    unfold Calendar.parse_date_only in N |- *. rewrite F in N |- *.
    destruct ymd as [[y m] dd]. congruence.
Qed.

Lemma past_due_date_moves_to_today_witness :
  exists o',
    POST Sample.engine (answering Examples.reply_past) Examples.now0
      (inr (Examples.body_of_prompt Examples.raw_report))
    = (json_response (JObj [(k_todo, JObj o')]),
       [extraction_call Sample.engine Examples.now0 Examples.raw_report]) /\
    obj_get k_due_date o'
    = Some (if (Calendar.Day 1703980800000 <? Calendar.Day Examples.now0)%Z
            then JStr (Calendar.iso_date Examples.now0)
            else JStr (u16 "2023-12-31")) /\
    (forall s ymd,
        JStr (u16 "2023-12-31") = JStr s -> Calendar.date_fields s = Some ymd ->
        (Calendar.Day 1703980800000 <? Calendar.Day Examples.now0)%Z
        = Calendar.civil_before ymd (Calendar.civil Examples.now0)).
Proof.
  apply (past_due_date_moves_to_today Sample.engine
           (answering Examples.reply_past) Examples.now0
           (Examples.body_of_prompt Examples.raw_report) Examples.raw_report
           Examples.todo_past (JStr (u16 "2023-12-31")) 1703980800000
           (JObj (obj_set k_title
                    (JStr (substring0 30 (normalize Examples.raw_report) ++ ellipsis))
                    Examples.todo_past))).
  - unfold Calendar.four_digit_year, Examples.now0. lia.
  - exact reaches_past.
  - (vm_compute; reflexivity).
  - (vm_compute; reflexivity).
  - (vm_compute; reflexivity).
  - vm_compute. reflexivity.
Defined.

(** C6.  When the parsed object has no title, the title of the result is
    the normalized prompt, cut to its first 30 code units and followed by
    the ellipsis when it is longer than 30. *)
Theorem missing_title_comes_from_prompt E upstream now body raw o :
  extraction_reaches E upstream now body raw (JObj o) ->
  falsy (obj_get k_title o) = true ->
  due_date_converts E o ->
  exists o',
    POST E upstream now (inr body)
    = (json_response (JObj [(k_todo, JObj o')]), [extraction_call E now raw]) /\
    obj_get k_title o'
    = Some (JStr (if (30 <? js_length (normalize raw))%Z
                  then substring0 30 (normalize raw) ++ ellipsis
                  else normalize raw)).
Proof.
  intros R F C.
  rewrite (GenerateFacts.POST_reaches E upstream now body raw (JObj o) R).
  unfold postprocess.
  rewrite (GenerateFacts.adjust_title_missing E _ o F). cbn [bindR].
  set (title := JStr (if (30 <? js_length (normalize raw))%Z
                      then substring0 30 (normalize raw) ++ ellipsis
                      else normalize raw)).
  rewrite GenerateFacts.default_priority_object. cbn [bindR].
  set (o2 := with_default_priority (obj_set k_title title o)).
  assert (T2 : obj_get k_title o2 = Some title).
  { subst o2. rewrite GenerateFacts.default_priority_frame
      by GenerateFacts.distinct_keys.
    apply obj_get_set_same. }
  assert (C2 : due_date_converts E o2).
  { apply (GenerateFacts.due_date_converts_frame E o); [|assumption].
    subst o2. rewrite GenerateFacts.default_priority_frame
      by GenerateFacts.distinct_keys.
    apply obj_get_set_other. GenerateFacts.distinct_keys. }
  destruct (GenerateFacts.correct_due_date_frame E now o2 C2) as [o' [-> F3]].
  exists o'. split; [reflexivity|].
  rewrite F3 by GenerateFacts.distinct_keys. assumption.
Qed.

Lemma missing_title_comes_from_prompt_witness :
  exists o',
    POST Sample.engine (answering Examples.reply_past) Examples.now0
      (inr (Examples.body_of_prompt Examples.raw_report))
    = (json_response (JObj [(k_todo, JObj o')]),
       [extraction_call Sample.engine Examples.now0 Examples.raw_report]) /\
    obj_get k_title o'
    = Some (JStr (if (30 <? js_length (normalize Examples.raw_report))%Z
                  then substring0 30 (normalize Examples.raw_report) ++ ellipsis
                  else normalize Examples.raw_report)).
Proof.
  apply (missing_title_comes_from_prompt Sample.engine
           (answering Examples.reply_past) Examples.now0
           (Examples.body_of_prompt Examples.raw_report) Examples.raw_report
           Examples.todo_past).
  - exact reaches_past.
  - (vm_compute; reflexivity).
  - apply (due_date_converts_text Sample.engine Examples.todo_past
             (u16 "2023-12-31")). (vm_compute; reflexivity).
Defined.

(** C7.  When the title of the parsed object is a string longer than 50
    code units, the title of the result is its first 47 code units
    followed by the ellipsis; the description of the result is the whole
    original title when the object had no description (or an empty one),
    and the description the object had otherwise. *)
Theorem long_title_is_shortened E upstream now body raw o title :
  extraction_reaches E upstream now body raw (JObj o) ->
  obj_get k_title o = Some (JStr title) ->
  (50 < js_length title)%Z ->
  due_date_converts E o ->
  exists o',
    POST E upstream now (inr body)
    = (json_response (JObj [(k_todo, JObj o')]), [extraction_call E now raw]) /\
    obj_get k_title o' = Some (JStr (substring0 47 title ++ ellipsis)) /\
    js_length (substring0 47 title) = 47%Z /\
    obj_get k_description o'
    = (if falsy (obj_get k_description o)
       then Some (JStr title)
       else obj_get k_description o).
Proof.
  intros R T L C.
  rewrite (GenerateFacts.POST_reaches E upstream now body raw (JObj o) R).
  unfold postprocess.
  rewrite (GenerateFacts.adjust_title_long E _ o title T L). cbn [bindR].
  rewrite GenerateFacts.default_priority_object. cbn [bindR].
  match goal with
  | |- context [with_default_priority (obj_set k_title ?x ?y)] =>
      set (o0 := y); set (o1 := obj_set k_title x o0)
  end.
  set (o2 := with_default_priority o1).
  assert (G : forall k, k <> k_title -> k <> k_priority ->
                        obj_get k o2 = obj_get k o0).
  { intros k K1 K2. subst o2 o1.
    rewrite GenerateFacts.default_priority_frame by assumption.
    apply obj_get_set_other. assumption. }
  assert (C2 : due_date_converts E o2).
  { apply (GenerateFacts.due_date_converts_frame E o); [|assumption].
    rewrite G by GenerateFacts.distinct_keys. subst o0.
    destruct (falsy (obj_get k_description o)); [|reflexivity].
    apply obj_get_set_other. GenerateFacts.distinct_keys. }
  destruct (GenerateFacts.correct_due_date_frame E now o2 C2) as [o' [-> F3]].
  exists o'. split; [reflexivity|]. repeat split.
  - rewrite F3 by GenerateFacts.distinct_keys. subst o2.
    rewrite GenerateFacts.default_priority_frame by GenerateFacts.distinct_keys.
    apply obj_get_set_same.
  - unfold js_length, substring0. rewrite length_firstn.
    unfold js_length in L. lia.
  - rewrite F3, G by GenerateFacts.distinct_keys. subst o0.
    destruct (falsy (obj_get k_description o)); [|reflexivity].
    apply obj_get_set_same.
Qed.

Lemma long_title_is_shortened_witness :
  exists o',
    POST Sample.engine (answering Examples.reply_long) Examples.now0
      (inr (Examples.body_of_prompt Examples.raw_report))
    = (json_response (JObj [(k_todo, JObj o')]),
       [extraction_call Sample.engine Examples.now0 Examples.raw_report]) /\
    obj_get k_title o'
    = Some (JStr (substring0 47 Examples.long_title ++ ellipsis)) /\
    js_length (substring0 47 Examples.long_title) = 47%Z /\
    obj_get k_description o'
    = (if falsy (obj_get k_description Examples.todo_long)
       then Some (JStr Examples.long_title)
       else obj_get k_description Examples.todo_long).
Proof.
  apply (long_title_is_shortened Sample.engine
           (answering Examples.reply_long) Examples.now0
           (Examples.body_of_prompt Examples.raw_report) Examples.raw_report
           Examples.todo_long Examples.long_title).
  - exact reaches_long.
  - (vm_compute; reflexivity).
  - vm_compute. reflexivity.
  - apply due_date_converts_absent. (vm_compute; reflexivity).
Defined.

(** *** The catch block *)

Lemma on_error_response e :
  on_error e =
  json_response_with
    (JObj [(k_error, JStr (message_of_error e));
           (k_details, JStr (details_of_error e))])
    (status_of_error e).
Proof.
  unfold on_error, message_of_error, status_of_error, details_of_error.
  destruct (includes (u16 "429") (err_message e)); [reflexivity|].
  destruct (_ || _); reflexivity.
Qed.

(** What the try block can return: the success response, or one of the
    validation responses before any message is sent. *)
Lemma attempt_returns E upstream now req r log :
  attempt E upstream now req [] = (inr r, log) ->
  status r = 200%Z \/
  (status r = 400%Z /\ log = [] /\
   exists message, body r = JObj [(k_error, JStr message)]).
Proof.
  unfold attempt, bind, lift, ret.
  destruct req as [e|b]; [discriminate|].
  destruct (destructure E b k_prompt) as [e|prompt]; [discriminate|].
  assert (V : forall message,
             ((inr (error_response message 400) : js_result response),
              @nil chat_call) = (inr r, log) ->
             status r = 200%Z \/
             (status r = 400%Z /\ log = [] /\
              exists m, body r = JObj [(k_error, JStr m)])).
  { intros message H. inversion H; subst. right. cbn. eauto. }
  destruct prompt as [[ | b0 | d | raw | l | m]|]; try (apply V).
  destruct raw as [|c raw]; [apply V|].
  destruct (js_length (normalize (c :: raw)) <? 2)%Z; [apply V|].
  destruct (500 <? js_length (normalize (c :: raw)))%Z; [apply V|].
  unfold sendMessage.
  destruct (upstream _) as [e|text]; [discriminate|].
  destruct (parse_response E text) as [e|todo]; [discriminate|].
  destruct (postprocess E now _ todo) as [e|todo']; [discriminate|].
  intros H; inversion H; subst. left. reflexivity.
Qed.

(** C9, as the handler has it.  A failing extraction request is either
    refused by the validation, with status 400 and an [{error}] body, or
    an error [e] was thrown; the status is then 429 when the message of
    [e] contains 429, else 400 when the status of [e] is 400 or its
    message contains 400, else 500, and the body holds one of three
    fixed texts as [error] and the message of [e] as [details]. *)
Theorem failure_status_follows_message E upstream now req r log :
  POST E upstream now req = (r, log) ->
  status r <> 200%Z ->
  (status r = 400%Z /\ log = [] /\
   exists message, body r = JObj [(k_error, JStr message)]) \/
  (exists e,
     attempt E upstream now req [] = (inl e, log) /\
     status r = status_of_error e /\
     In (status r) [400; 429; 500]%Z /\
     body r = JObj [(k_error, JStr (message_of_error e));
                    (k_details, JStr (details_of_error e))]).
Proof.
  unfold POST, try_catch.
  destruct (attempt E upstream now req []) as [[e|r'] log'] eqn:A;
    intros H N; inversion H; subst.
  - right. exists e. rewrite on_error_response. cbn [status body json_response_with].
    repeat split.
    unfold status_of_error.
    destruct (includes (u16 "429") (err_message e)); [cbn; auto|].
    destruct (_ || _); cbn; auto.
  - destruct (attempt_returns E upstream now req r log A) as [S | S].
    + contradiction.
    + left. exact S.
Qed.

Lemma failure_status_follows_message_witness :
  let run := POST Sample.engine (failing Examples.server_error) Examples.now0
               (inr (Examples.body_of_prompt Examples.raw_report)) in
  (status (fst run) = 400%Z /\ snd run = [] /\
   exists message, body (fst run) = JObj [(k_error, JStr message)]) \/
  (exists e,
     attempt Sample.engine (failing Examples.server_error) Examples.now0
       (inr (Examples.body_of_prompt Examples.raw_report)) [] = (inl e, snd run) /\
     status (fst run) = status_of_error e /\
     In (status (fst run)) [400; 429; 500]%Z /\
     body (fst run) = JObj [(k_error, JStr (message_of_error e));
                            (k_details, JStr (details_of_error e))]).
Proof.
  intros run.
  apply (failure_status_follows_message Sample.engine
           (failing Examples.server_error) Examples.now0
           (inr (Examples.body_of_prompt Examples.raw_report))
           (fst run) (snd run)).
  - apply surjective_pairing.
  - vm_compute. discriminate.
Defined.

(** C9, the claim as stated, fails: an upstream failure with HTTP status
    503, which is neither a rate limit nor a bad request, is answered
    with status 429 because its text contains the digits 429. *)
Lemma failure_status_is_not_by_kind :
  status_by_kind Examples.server_error = 500%Z /\
  status (fst (POST Sample.engine (failing Examples.server_error) Examples.now0
                 (inr (Examples.body_of_prompt Examples.raw_report)))) = 429%Z.
Proof. split; (vm_compute; reflexivity). Qed.

(** *** Priority *)

Lemma priorityValue_text E s :
  s <> [] ->
  TodoForm.priorityValue E (Some (JStr s)) =
  inr (if existsb (str_eqb (toLowerCase E s)) priorities
       then toLowerCase E s
       else TodoForm.medium).
Proof.
  intros N. unfold TodoForm.priorityValue.
  destruct s as [|c s]; [congruence|]. cbn [falsy truthy negb defined].
  fold priorities.
  destruct (existsb (str_eqb (toLowerCase E (c :: s))) priorities); reflexivity.
Qed.

Lemma recognized_priority (p : jsstring) :
  In (if existsb (str_eqb p) priorities then p else TodoForm.medium) priorities.
Proof.
  destruct (existsb (str_eqb p) priorities) eqn:X.
  - apply existsb_exists in X as [x [I Q]].
    apply str_eqb_eq in Q. subst. assumption.
  - cbn. auto.
Qed.

(** C3, as the code has it.  The post-processing of the endpoint gives a
    missing (or falsy) priority the value medium and leaves every other
    priority as the service returned it; the task form then takes a
    string priority in lower case when that is one of high, medium and
    low, and medium otherwise. *)
Theorem priority_defaults_then_form_matches E upstream now body raw o todo1 :
  extraction_reaches E upstream now body raw (JObj o) ->
  adjust_title E (normalize raw) (JObj o) = inr todo1 ->
  due_date_converts E o ->
  exists o',
    POST E upstream now (inr body)
    = (json_response (JObj [(k_todo, JObj o')]), [extraction_call E now raw]) /\
    obj_get k_priority o'
    = (if falsy (obj_get k_priority o)
       then Some (JStr medium)
       else obj_get k_priority o) /\
    match obj_get k_priority o' with
    | Some (JStr s) =>
        exists p,
          TodoForm.priorityValue E (Some (JStr s)) = inr p /\
          In p priorities /\
          p = (if existsb (str_eqb (toLowerCase E s)) priorities
               then toLowerCase E s
               else TodoForm.medium)
    | _ => True
    end.
Proof.
  intros R A C.
  rewrite (GenerateFacts.POST_reaches E upstream now body raw (JObj o) R).
  unfold postprocess. rewrite A.
  destruct (GenerateFacts.adjust_title_frame E _ o todo1 A) as [o1 [-> F1]].
  cbn [bindR]. rewrite GenerateFacts.default_priority_object. cbn [bindR].
  assert (C2 : due_date_converts E (with_default_priority o1)).
  { apply (GenerateFacts.due_date_converts_frame E o); [|assumption].
    rewrite GenerateFacts.default_priority_frame by GenerateFacts.distinct_keys.
    apply F1; GenerateFacts.distinct_keys. }
  destruct (GenerateFacts.correct_due_date_frame E now _ C2) as [o' [-> F3]].
  exists o'. split; [reflexivity|].
  assert (P : obj_get k_priority o'
              = (if falsy (obj_get k_priority o)
                 then Some (JStr medium)
                 else obj_get k_priority o)).
  { rewrite F3 by GenerateFacts.distinct_keys.
    unfold with_default_priority.
    rewrite (F1 k_priority) by GenerateFacts.distinct_keys.
    destruct (falsy (obj_get k_priority o)) eqn:Fp.
    - apply obj_get_set_same.
    - apply F1; GenerateFacts.distinct_keys. }
  split; [exact P|].
  rewrite P.
  destruct (falsy (obj_get k_priority o)) eqn:Fp.
  - eexists. split; [apply priorityValue_text; discriminate|].
    split; [apply recognized_priority | reflexivity].
  - destruct (obj_get k_priority o) as [[ | b | d | s | l | m]|]; try exact I.
    assert (s <> []) by (intros ->; discriminate).
    eexists. split; [apply priorityValue_text; assumption|].
    split; [apply recognized_priority | reflexivity].
Qed.

Lemma priority_defaults_then_form_matches_witness :
  exists o',
    POST Sample.engine (answering Examples.reply_past) Examples.now0
      (inr (Examples.body_of_prompt Examples.raw_report))
    = (json_response (JObj [(k_todo, JObj o')]),
       [extraction_call Sample.engine Examples.now0 Examples.raw_report]) /\
    obj_get k_priority o'
    = (if falsy (obj_get k_priority Examples.todo_past)
       then Some (JStr medium)
       else obj_get k_priority Examples.todo_past) /\
    match obj_get k_priority o' with
    | Some (JStr s) =>
        exists p,
          TodoForm.priorityValue Sample.engine (Some (JStr s)) = inr p /\
          In p priorities /\
          p = (if existsb (str_eqb (toLowerCase Sample.engine s)) priorities
               then toLowerCase Sample.engine s
               else TodoForm.medium)
    | _ => True
    end.
Proof.
  apply (priority_defaults_then_form_matches Sample.engine
           (answering Examples.reply_past) Examples.now0
           (Examples.body_of_prompt Examples.raw_report) Examples.raw_report
           Examples.todo_past
           (JObj (obj_set k_title
                    (JStr (substring0 30 (normalize Examples.raw_report) ++ ellipsis))
                    Examples.todo_past))).
  - exact reaches_past.
  - vm_compute. reflexivity.
  - apply (due_date_converts_text Sample.engine Examples.todo_past
             (u16 "2023-12-31")). (vm_compute; reflexivity).
Defined.

(** C3, the claim as stated, fails: the service returns the priority
    URGENT, and the priority of the post-processed result is URGENT,
    which is none of high, medium and low. *)
Lemma endpoint_keeps_unrecognized_priority :
  exists o',
    fst (POST Sample.engine (answering Examples.reply_past) Examples.now0
           (inr (Examples.body_of_prompt Examples.raw_report)))
    = json_response (JObj [(k_todo, JObj o')]) /\
    obj_get k_priority o' = Some (JStr (u16 "URGENT")) /\
    ~ In (u16 "URGENT") priorities.
Proof.
  eexists. split; [vm_compute; reflexivity|].
  split; [(vm_compute; reflexivity)|].
  intros [H | [H | [H | []]]]; vm_compute in H; discriminate H.
Qed.

End Claims.

Section AnalysisClaims.
Import AnalyzeTodos.

(** C4.  For an empty task list the handler answers with the fixed
    empty-state analysis (a summary, no urgent task, one insight, one
    recommendation) and sends no message to the Text Completion
    Service. *)
Theorem empty_list_gets_fixed_analysis E upstream now body :
  destructure E body k_todos = inr (Some (JArr [])) ->
  POST E upstream now (inr body) = (json_response empty_analysis, []) /\
  exists summary insight recommendation,
    empty_analysis
    = JObj [(k_summary, JStr summary);
            (k_urgentTasks, JArr []);
            (k_insights, JArr [JStr insight]);
            (k_recommendations, JArr [JStr recommendation])].
Proof.
  intros D. split.
  - rewrite (AnalyzeFacts.POST_list E upstream now body [] D). reflexivity.
  - do 3 eexists. reflexivity.
Qed.

Lemma empty_list_gets_fixed_analysis_witness :
  POST Sample.engine (answering Examples.reply_empty) Examples.now0
    (inr (Examples.body_of_todos []))
  = (json_response empty_analysis, []) /\
  exists summary insight recommendation,
    empty_analysis
    = JObj [(k_summary, JStr summary);
            (k_urgentTasks, JArr []);
            (k_insights, JArr [JStr insight]);
            (k_recommendations, JArr [JStr recommendation])].
Proof.
  apply (empty_list_gets_fixed_analysis Sample.engine
           (answering Examples.reply_empty) Examples.now0
           (Examples.body_of_todos [])).
  (vm_compute; reflexivity).
Defined.

Lemma POST_answer_alike E t1 t2 now req :
  parse_response E t1 = parse_response E t2 ->
  POST E (answering t1) now req = POST E (answering t2) now req.
Proof.
  intros H. unfold POST, try_catch, attempt, bind, lift, sendMessage, answering.
  destruct req as [e|b]; [reflexivity|].
  destruct (destructure E b k_todos) as [e|todos]; [reflexivity|].
  destruct (destructure E b k_timeframe) as [e|timeframe]; [reflexivity|].
  destruct todos as [[ | b0 | d | s | l | m]|]; try reflexivity.
  destruct l as [|t l]; [reflexivity|].
  destruct (todosText E (t :: l)) as [e|text]; [reflexivity|].
  rewrite H. reflexivity.
Qed.

Lemma generate_answer_alike E t1 t2 now req :
  parse_response E t1 = parse_response E t2 ->
  GenerateTodo.POST E (answering t1) now req
  = GenerateTodo.POST E (answering t2) now req.
Proof.
  intros H.
  unfold GenerateTodo.POST, try_catch, GenerateTodo.attempt, bind, lift,
    sendMessage, answering.
  destruct req as [e|b]; [reflexivity|].
  destruct (destructure E b GenerateTodo.k_prompt) as [e|prompt]; [reflexivity|].
  destruct prompt as [[ | b0 | d | raw | l | m]|]; try reflexivity.
  destruct raw as [|c raw]; [reflexivity|].
  destruct (js_length (normalize (c :: raw)) <? 2)%Z; [reflexivity|].
  destruct (500 <? js_length (normalize (c :: raw)))%Z; [reflexivity|].
  rewrite H. reflexivity.
Qed.

(** C5.  A response text that is JSON parses to the same value with and
    without the code-fence wrapper, so both handlers answer alike; and
    the parsing step throws exactly when the text as it is and the text
    without its fences both fail to parse. *)
Theorem fenced_response_parses_alike E text v :
  JSON_parse text = Some v ->
  parse_response E text = inr v /\
  parse_response E (fenced text) = inr v /\
  (forall now req,
      GenerateTodo.POST E (answering (fenced text)) now req
      = GenerateTodo.POST E (answering text) now req) /\
  (forall now req,
      POST E (answering (fenced text)) now req
      = POST E (answering text) now req) /\
  (forall other,
      (exists e, parse_response E other = inl e) <->
      (JSON_parse other = None /\
       JSON_parse (trim (remove_fences other)) = None)).
Proof.
  intros H.
  pose proof (parse_response_json E text v H) as P1.
  pose proof (parse_response_fenced E text v H) as P2.
  repeat split; auto.
  - intros now req. apply generate_answer_alike. congruence.
  - intros now req. apply POST_answer_alike. congruence.
  - unfold parse_response in H0. destruct H0 as [e He].
    destruct (JSON_parse other); [discriminate | reflexivity].
  - unfold parse_response in H0. destruct H0 as [e He].
    destruct (JSON_parse other); [discriminate|].
    destruct (JSON_parse (trim (remove_fences other))); [discriminate | reflexivity].
  - intros [A B]. unfold parse_response. rewrite A, B. eauto.
Qed.

Lemma fenced_response_parses_alike_witness :
  parse_response Sample.engine Examples.reply_past
  = inr (JObj Examples.todo_past) /\
  parse_response Sample.engine (fenced Examples.reply_past)
  = inr (JObj Examples.todo_past) /\
  (forall now req,
      GenerateTodo.POST Sample.engine (answering (fenced Examples.reply_past)) now req
      = GenerateTodo.POST Sample.engine (answering Examples.reply_past) now req) /\
  (forall now req,
      POST Sample.engine (answering (fenced Examples.reply_past)) now req
      = POST Sample.engine (answering Examples.reply_past) now req) /\
  (forall other,
      (exists e, parse_response Sample.engine other = inl e) <->
      (JSON_parse other = None /\
       JSON_parse (trim (remove_fences other)) = None)).
Proof.
  apply (fenced_response_parses_alike Sample.engine Examples.reply_past
           (JObj Examples.todo_past)).
  (vm_compute; reflexivity).
Defined.

(** A task keeps its fields when its description changes. *)
Lemma same_task_fields_description m d :
  same_task_fields (JObj m) (JObj (obj_set (u16 "description") d m)).
Proof.
  split; [split; discriminate|].
  intros k K. cbn [field]. symmetry. apply obj_get_set_other.
  intros ->. vm_compute in K. intuition discriminate.
Qed.

(** C8.  Two task lists that agree on title, priority, due_date,
    due_time, completed, category and created_at make the handler send
    the same messages (and give the same answer), whatever else the
    tasks hold; when no task is null the one message sent is built from
    those fields alone. *)
Theorem payload_reads_seven_fields E upstream now body1 body2 todos1 todos2 :
  destructure E body1 k_todos = inr (Some (JArr todos1)) ->
  destructure E body2 k_todos = inr (Some (JArr todos2)) ->
  field body1 k_timeframe = field body2 k_timeframe ->
  todos1 <> [] ->
  Forall2 same_task_fields todos1 todos2 ->
  POST E upstream now (inr body1) = POST E upstream now (inr body2) /\
  (Forall (fun t => t <> JNull) todos1 ->
   snd (POST E upstream now (inr body1))
   = [analysis_call E now (field body1 k_timeframe) todos1] /\
   payload E todos1
   = JSON_stringify E
       (JArr (map (fun t => object_literal
                              (map (fun k => (k, field t k)) task_fields))
                todos1))).
Proof.
  intros D1 D2 T N S.
  rewrite (AnalyzeFacts.POST_list E upstream now body1 todos1 D1).
  rewrite (AnalyzeFacts.POST_list E upstream now body2 todos2 D2).
  rewrite <- T, <- (AnalyzeFacts.todosText_agrees E todos1 todos2 S).
  destruct S as [|t1 t2 l1 l2 S1 S2]; [congruence|].
  split; [reflexivity|].
  intros NN. rewrite (AnalyzeFacts.todosText_total E _ NN). cbv zeta.
  split.
  - fold (analysis_call E now (field body1 k_timeframe) (t1 :: l1)).
    destruct (upstream _) as [e|text]; [reflexivity|].
    destruct (parse_response E text); reflexivity.
  - unfold payload, todosText.
    assert (M : map_result (project E) (t1 :: l1)
                = inr (map (fun t => object_literal
                                       (map (fun k => (k, field t k)) task_fields))
                         (t1 :: l1))).
    { clear -NN. induction NN as [|t l Ht _ IH]; [reflexivity|].
      cbn [map_result map]. rewrite (AnalyzeFacts.project_fields E t Ht), IH.
      reflexivity. }
    rewrite M. reflexivity.
Qed.

Lemma payload_reads_seven_fields_witness :
  POST Sample.engine (answering Examples.reply_empty) Examples.now0
    (inr (Examples.body_of_todos Examples.tasks1))
  = POST Sample.engine (answering Examples.reply_empty) Examples.now0
      (inr (Examples.body_of_todos Examples.tasks2)) /\
  (Forall (fun t => t <> JNull) Examples.tasks1 ->
   snd (POST Sample.engine (answering Examples.reply_empty) Examples.now0
          (inr (Examples.body_of_todos Examples.tasks1)))
   = [analysis_call Sample.engine Examples.now0
        (field (Examples.body_of_todos Examples.tasks1) k_timeframe)
        Examples.tasks1] /\
   payload Sample.engine Examples.tasks1
   = JSON_stringify Sample.engine
       (JArr (map (fun t => object_literal
                              (map (fun k => (k, field t k)) task_fields))
                Examples.tasks1))).
Proof.
  apply (payload_reads_seven_fields Sample.engine
           (answering Examples.reply_empty) Examples.now0
           (Examples.body_of_todos Examples.tasks1)
           (Examples.body_of_todos Examples.tasks2)
           Examples.tasks1 Examples.tasks2).
  - (vm_compute; reflexivity).
  - (vm_compute; reflexivity).
  - (vm_compute; reflexivity).
  - discriminate.
  - constructor; [|constructor].
    split; [split; discriminate|].
    intros k K. vm_compute in K.
    repeat (destruct K as [<- | K]; [(vm_compute; reflexivity)|]). destruct K.
Defined.

(** C10.  For a non-empty list of tasks, once the text the service
    returns parses (as it is or without its fences) to a value, that
    value is the body of the success response, whatever its shape. *)
Theorem analysis_returns_parsed_value E upstream now body todos text v :
  destructure E body k_todos = inr (Some (JArr todos)) ->
  todos <> [] ->
  Forall (fun t => t <> JNull) todos ->
  upstream (analysis_call E now (field body k_timeframe) todos) = inr text ->
  parse_response E text = inr v ->
  POST E upstream now (inr body)
  = (json_response v, [analysis_call E now (field body k_timeframe) todos]).
Proof.
  intros D N NN U P.
  rewrite (AnalyzeFacts.POST_list E upstream now body todos D).
  destruct todos as [|t l]; [congruence|].
  rewrite (AnalyzeFacts.todosText_total E _ NN). cbv zeta.
  fold (analysis_call E now (field body k_timeframe) (t :: l)).
  rewrite U, P. reflexivity.
Qed.

Lemma analysis_returns_parsed_value_witness :
  POST Sample.engine (answering Examples.reply_empty) Examples.now0
    (inr (Examples.body_of_todos Examples.tasks1))
  = (json_response (JObj []),
     [analysis_call Sample.engine Examples.now0
        (field (Examples.body_of_todos Examples.tasks1) k_timeframe)
        Examples.tasks1]).
Proof.
  apply (analysis_returns_parsed_value Sample.engine
           (answering Examples.reply_empty) Examples.now0
           (Examples.body_of_todos Examples.tasks1) Examples.tasks1
           Examples.reply_empty (JObj [])).
  - (vm_compute; reflexivity).
  - discriminate.
  - repeat constructor. discriminate.
  - (vm_compute; reflexivity).
  - (vm_compute; reflexivity).
Defined.

End AnalysisClaims.

(** ** JSON texts printed and read back *)

Module RoundTripFacts.
Import Json JsonFacts RoundTrip Stringify.
Local Open Scope N_scope.

Lemma run_app a b st :
  run st (a ++ b) =
  match run st a with
  | Some (st', ts) =>
      match run st' b with
      | Some (st'', ts') => Some (st'', ts ++ ts')
      | None => None
      end
  | None => None
  end.
Proof.
  revert st. induction a as [|c a IH]; intros st; cbn [app run].
  - destruct (run st b) as [[s t]|]; reflexivity.
  - destruct (step st c) as [[s1 t1]|]; [|reflexivity].
    rewrite IH. destruct (run s1 a) as [[s2 t2]|]; [|reflexivity].
    destruct (run s2 b) as [[s3 t3]|]; [|reflexivity].
    rewrite app_assoc. reflexivity.
Qed.

Lemma hex_value_digit n : n < 16 -> hex_value (hex_digit n) = Some n.
Proof.
  intros H. unfold hex_value, hex_digit.
  destruct (N.ltb_spec n 10).
  - replace ((48 <=? 48 + n) && (48 + n <=? 57)) with true
      by (symmetry; apply andb_true_iff; split; apply N.leb_le; lia).
    f_equal. lia.
  - replace ((48 <=? 87 + n) && (87 + n <=? 57)) with false
      by (symmetry; apply andb_false_iff; right; apply N.leb_gt; lia).
    replace ((65 <=? 87 + n) && (87 + n <=? 70)) with false
      by (symmetry; apply andb_false_iff; right; apply N.leb_gt; lia).
    replace ((97 <=? 87 + n) && (87 + n <=? 102)) with true
      by (symmetry; apply andb_true_iff; split; apply N.leb_le; lia).
    f_equal. lia.
Qed.

Lemma step_hex acc k v n :
  n < 16 ->
  step (LHex acc k v) (hex_digit n)
  = Some (match k with
          | O => LStr ((v * 16 + n) :: acc)
          | S k' => LHex acc k' (v * 16 + n)
          end, []).
Proof.
  intros H. cbn [step]. rewrite hex_value_digit by assumption.
  destruct k; reflexivity.
Qed.

Lemma run_unicode_escape c acc :
  c < 65536 ->
  run (LStr acc) (unicode_escape c) = Some (LStr (c :: acc), []).
Proof.
  intros H. unfold unicode_escape.
  assert (D : forall n, n mod 16 < 16) by (intros n; apply N.mod_lt; lia).
  cbn [run].
  change (step (LStr acc) 92) with (Some (LEsc acc, @nil token)). cbv iota beta.
  change (step (LEsc acc) 117) with (Some (LHex acc 3 0, @nil token)). cbv iota beta.
  rewrite !step_hex by apply D. cbn [app].
  do 3 f_equal.
  replace (c / 256) with (c / 16 / 16) by (rewrite N.Div0.div_div; reflexivity).
  replace (c / 4096) with (c / 16 / 16 / 16)
    by (rewrite !N.Div0.div_div; reflexivity).
  pose proof (N.div_mod c 16 ltac:(lia)) as E0.
  pose proof (N.div_mod (c / 16) 16 ltac:(lia)) as E1.
  pose proof (N.div_mod (c / 16 / 16) 16 ltac:(lia)) as E2.
  pose proof (N.div_mod (c / 16 / 16 / 16) 16 ltac:(lia)) as E3.
  pose proof (D c). pose proof (D (c / 16)). pose proof (D (c / 16 / 16)).
  pose proof (D (c / 16 / 16 / 16)).
  assert (Z3 : c / 16 / 16 / 16 / 16 = 0).
  { rewrite !N.Div0.div_div. apply N.div_small. exact H. }
  rewrite Z3 in E3. f_equal.
  generalize dependent (c mod 16). generalize dependent ((c / 16) mod 16).
  generalize dependent ((c / 16 / 16) mod 16).
  generalize dependent ((c / 16 / 16 / 16) mod 16).
  generalize dependent (c / 16 / 16 / 16). generalize dependent (c / 16 / 16).
  generalize dependent (c / 16). intros. lia.
Qed.

Lemma step_raw acc c :
  32 <= c -> c <> 34 -> c <> 92 ->
  step (LStr acc) c = Some (LStr (c :: acc), []).
Proof.
  intros A B C. cbn [step].
  destruct (N.eqb_spec c 34); [contradiction|].
  destruct (N.eqb_spec c 92); [contradiction|].
  destruct (N.ltb_spec c 32); [lia | reflexivity].
Qed.

Lemma run_escape_unit c acc :
  run (LStr acc) (escape_unit c) = Some (LStr (c :: acc), []).
Proof.
  unfold escape_unit.
  destruct (N.eqb_spec c 8) as [->|N8]; [reflexivity|].
  destruct (N.eqb_spec c 9) as [->|N9]; [reflexivity|].
  destruct (N.eqb_spec c 10) as [->|N10]; [reflexivity|].
  destruct (N.eqb_spec c 12) as [->|N12]; [reflexivity|].
  destruct (N.eqb_spec c 13) as [->|N13]; [reflexivity|].
  destruct (N.eqb_spec c 34) as [->|N34]; [reflexivity|].
  destruct (N.eqb_spec c 92) as [->|N92]; [reflexivity|].
  destruct ((c <? 32) || is_high c || is_low c) eqn:U.
  - apply run_unicode_escape.
    apply orb_prop in U as [U|U]; [apply orb_prop in U as [U|U]|].
    + apply N.ltb_lt in U. lia.
    + unfold is_high in U. apply andb_prop in U as [_ U]. apply N.leb_le in U. lia.
    + unfold is_low in U. apply andb_prop in U as [_ U]. apply N.leb_le in U. lia.
  - apply orb_false_iff in U as [U _]. apply orb_false_iff in U as [U _].
    apply N.ltb_ge in U. cbn [run]. rewrite step_raw by assumption. reflexivity.
Qed.

Lemma step_surrogate acc c :
  is_high c = true \/ is_low c = true ->
  step (LStr acc) c = Some (LStr (c :: acc), []).
Proof.
  unfold is_high, is_low. intros [H|H]; apply andb_prop in H as [H _];
    apply N.leb_le in H; apply step_raw; lia.
Qed.

Lemma run_escape_units_upto n :
  forall s acc, (List.length s <= n)%nat ->
    run (LStr acc) (escape_units s) = Some (LStr (rev s ++ acc), []).
Proof.
  induction n as [|n IH]; intros s acc L.
  - destruct s; [reflexivity | cbn in L; lia].
  - destruct s as [|c r]; [reflexivity|].
    assert (G : run (LStr acc) (escape_unit c ++ escape_units r)
                = Some (LStr (rev (c :: r) ++ acc), [])).
    { rewrite run_app, run_escape_unit.
      rewrite IH by (cbn in L; lia).
      cbn [rev]. rewrite <- app_assoc. reflexivity. }
    cbn [escape_units]. destruct (is_high c) eqn:Hc; [|exact G].
    destruct r as [|l r']; [rewrite app_nil_r in G; exact G|].
    destruct (is_low l) eqn:Hl; [|exact G].
    cbn [run]. rewrite (step_surrogate acc c) by (left; exact Hc).
    rewrite (step_surrogate (c :: acc) l) by (right; exact Hl).
    rewrite IH by (cbn in L; lia).
    cbn [rev app]. rewrite <- !app_assoc. reflexivity.
Qed.

Lemma run_quote s : run LOut (quote s) = Some (LOut, [TString s]).
Proof.
  unfold quote. cbn [app run].
  change (step LOut 34) with (Some (LStr [], @nil token)). cbv iota beta.
  rewrite run_app, (run_escape_units_upto (List.length s)) by lia.
  cbn [run]. rewrite app_nil_r.
  change (step (LStr (rev s)) 34) with (Some (LOut, [TString (rev (rev s))])).
  cbv iota beta. rewrite rev_involutive. reflexivity.
Qed.

Lemma json_values_ind (P : json -> Prop) :
  P JNull -> (forall b, P (JBool b)) -> (forall d, P (JNum d)) ->
  (forall s, P (JStr s)) ->
  (forall l, Forall P l -> P (JArr l)) ->
  (forall m, Forall (fun kv => P (snd kv)) m -> P (JObj m)) ->
  forall v, P v.
Proof.
  intros HN HB HD HS HA HO.
  refine (fix IH (v : json) : P v :=
            match v with
            | JNull => HN
            | JBool b => HB b
            | JNum d => HD d
            | JStr s => HS s
            | JArr l =>
                HA l ((fix all (l : list json) : Forall P l :=
                         match l with
                         | [] => Forall_nil P
                         | x :: r => Forall_cons x (IH x) (all r)
                         end) l)
            | JObj m =>
                HO m ((fix all (m : props) : Forall (fun kv => P (snd kv)) m :=
                         match m with
                         | [] => Forall_nil _
                         | kv :: r => Forall_cons kv (IH (snd kv)) (all r)
                         end) m)
            end).
Qed.

Lemma tokens_array l :
  tokens (JArr l) = TLBrack :: element_tokens l ++ [TRBrack].
Proof. reflexivity. Qed.

Lemma tokens_object m :
  tokens (JObj m) = TLBrace :: member_tokens m ++ [TRBrace].
Proof. reflexivity. Qed.

Lemma stringify_array E l :
  stringify E (JArr l) = 91 :: element_texts E l ++ [93].
Proof. reflexivity. Qed.

Lemma stringify_object E m :
  stringify E (JObj m) = 123 :: member_texts E m ++ [125].
Proof. reflexivity. Qed.

Lemma plain_array l : plain (JArr l) <-> Forall plain l.
Proof.
  induction l as [|x l IH].
  - split; [constructor | intros _; exact I].
  - change (plain (JArr (x :: l))) with (plain x /\ plain (JArr l)).
    rewrite IH. split.
    + intros [A B]. constructor; assumption.
    + intros H. inversion H; auto.
Qed.

Lemma plain_object m :
  plain (JObj m) <->
  enumerated m /\ Forall (fun kv => units (fst kv) /\ plain (snd kv)) m.
Proof.
  change (plain (JObj m))
    with (enumerated m /\
          (fix all (m : props) : Prop :=
             match m with
             | [] => True
             | (k, x) :: r => units k /\ plain x /\ all r
             end) m).
  apply and_iff_compat_l.
  induction m as [|[k x] m IH].
  - split; [constructor | intros _; exact I].
  - rewrite IH. cbn [fst snd]. split.
    + intros [A [B C]]. constructor; auto.
    + intros H. inversion H as [|? ? [A B] C]; auto.
Qed.

Lemma numberless_array l : numberless (JArr l) <-> Forall numberless l.
Proof.
  induction l as [|x l IH].
  - split; [constructor | intros _; exact I].
  - change (numberless (JArr (x :: l))) with (numberless x /\ numberless (JArr l)).
    rewrite IH. split.
    + intros [A B]. constructor; assumption.
    + intros H. inversion H; auto.
Qed.

Lemma numberless_object m :
  numberless (JObj m) <->
  enumerated m /\ Forall (fun kv => numberless (snd kv)) m.
Proof.
  change (numberless (JObj m))
    with (enumerated m /\
          (fix all (m : props) : Prop :=
             match m with
             | [] => True
             | (_, x) :: r => numberless x /\ all r
             end) m).
  apply and_iff_compat_l.
  induction m as [|[k x] m IH].
  - split; [constructor | intros _; exact I].
  - rewrite IH. cbn [snd]. split.
    + intros [A B]. constructor; auto.
    + intros H. inversion H; auto.
Qed.

(** A plain value is a value without numbers. *)
Lemma plain_numberless v : plain v -> numberless v.
Proof.
  induction v as [ | b | d | s | l IH | m IH] using json_values_ind;
    intros P; try exact I; try exact P.
  - apply plain_array in P. apply numberless_array.
    rewrite Forall_forall in *. auto.
  - apply plain_object in P as [En P]. apply numberless_object.
    split; [exact En|]. rewrite Forall_forall in *.
    intros kv K. apply (IH kv K). apply (P kv K).
Qed.

(** The scanner on the printed text. *)
Lemma run_stringify E v :
  numberless v -> run LOut (stringify E v) = Some (LOut, tokens v).
Proof.
  induction v as [ | b | d | s | l IH | m IH] using json_values_ind; intros Pv.
  - reflexivity.
  - destruct b; reflexivity.
  - destruct Pv.
  - apply run_quote.
  - apply numberless_array in Pv. rewrite stringify_array, tokens_array.
    cbn [run]. change (step LOut 91) with (Some (LOut, [TLBrack])). cbv iota beta.
    rewrite run_app.
    assert (R : run LOut (element_texts E l) = Some (LOut, element_tokens l)).
    { induction l as [|x l IHl]; [reflexivity|].
      inversion IH as [|? ? Hx Hl]; inversion Pv as [|? ? Px Pl]; subst.
      cbn [element_texts element_tokens]. rewrite run_app.
      unfold JSON_stringify. rewrite (Hx Px).
      destruct l as [|y l]; [cbn [run]; reflexivity|].
      cbn [run]. change (step LOut 44) with (Some (LOut, [TComma])). cbv iota beta.
      rewrite (IHl Hl Pl). reflexivity. }
    rewrite R. reflexivity.
  - apply numberless_object in Pv as [_ Pv]. rewrite stringify_object, tokens_object.
    cbn [run]. change (step LOut 123) with (Some (LOut, [TLBrace])). cbv iota beta.
    rewrite run_app.
    assert (R : run LOut (member_texts E m) = Some (LOut, member_tokens m)).
    { induction m as [|[k x] m IHm]; [reflexivity|].
      inversion IH as [|? ? Hx Hm]; inversion Pv as [|? ? Px Pm]; subst.
      cbn [fst snd] in *.
      cbn [member_texts member_tokens]. rewrite run_app, (run_quote k).
      cbn [app run]. change (step LOut 58) with (Some (LOut, [TColon])).
      cbv iota beta. rewrite run_app.
      unfold JSON_stringify. rewrite (Hx Px).
      destruct m as [|y m]; [cbn [run]; reflexivity|].
      cbn [run]. change (step LOut 44) with (Some (LOut, [TComma])). cbv iota beta.
      rewrite (IHm Hm Pm). reflexivity. }
    rewrite R. reflexivity.
Qed.

Local Close Scope N_scope.

Lemma tokens_head v : exists t ts, tokens v = t :: ts /\ opens_value t.
Proof.
  destruct v as [ | [|] | d | s | l | m]; do 2 eexists; (split; [reflexivity | exact I]).
Qed.

Lemma value_array f ts :
  match ts with TRBrack :: _ => False | _ => True end ->
  value (S f) (TLBrack :: ts) =
  match value f ts with
  | Some (v, r1) => elements f [v] r1
  | None => None
  end.
Proof.
  destruct ts as [|t ts]; [reflexivity|].
  destruct t; try reflexivity. contradiction.
Qed.

Lemma element_tokens_cons x r :
  element_tokens (x :: r) = tokens x ++ more_elements r.
Proof. destruct r; reflexivity. Qed.

Lemma member_tokens_cons k x r :
  member_tokens ((k, x) :: r) = TString k :: TColon :: tokens x ++ more_members r.
Proof. destruct r; reflexivity. Qed.

Lemma elements_rest r :
  Forall reads r -> Forall numberless r ->
  forall acc f rest,
    (List.length (more_elements r) + 1 <= f)%nat ->
    elements f acc (more_elements r ++ TRBrack :: rest)
    = Some (JArr (rev acc ++ r), rest).
Proof.
  induction r as [|y r IH]; intros R P acc f rest L.
  - destruct f as [|f]; [cbn in L; lia|]. cbn. rewrite app_nil_r. reflexivity.
  - inversion R as [|? ? Ry Rr]; inversion P as [|? ? Py Pr]; subst.
    destruct f as [|f]; [cbn in L; lia|].
    change (more_elements (y :: r)) with (TComma :: element_tokens (y :: r)) in *.
    rewrite element_tokens_cons in *. cbn [app List.length] in *.
    rewrite length_app in L.
    change (elements (S f) acc (TComma :: (tokens y ++ more_elements r) ++ TRBrack :: rest))
      with (match value f ((tokens y ++ more_elements r) ++ TRBrack :: rest) with
            | Some (v, r1) => elements f (v :: acc) r1
            | None => None
            end).
    rewrite <- app_assoc. rewrite (Ry Py) by lia.
    rewrite IH by (assumption || lia).
    cbn [rev]. rewrite <- app_assoc. reflexivity.
Qed.

Lemma members_rest r :
  Forall (fun kv => reads (snd kv)) r ->
  Forall (fun kv => numberless (snd kv)) r ->
  forall acc f rest,
    (List.length (more_members r) + 1 <= f)%nat ->
    members f acc (more_members r ++ TRBrace :: rest)
    = Some (JObj (fold_left (fun acc kv => obj_set (fst kv) (snd kv) acc) r acc),
            rest).
Proof.
  induction r as [|[k y] r IH]; intros R P acc f rest L.
  - destruct f as [|f]; [cbn in L; lia|]. reflexivity.
  - inversion R as [|? ? Ry Rr]; inversion P as [|? ? Py Pr]; subst.
    cbn [fst snd] in *.
    destruct f as [|f]; [cbn in L; lia|].
    change (more_members ((k, y) :: r)) with (TComma :: member_tokens ((k, y) :: r)) in *.
    rewrite member_tokens_cons in *. cbn [app List.length] in *.
    rewrite length_app in L.
    change (members (S f) acc
              (TComma :: TString k :: TColon :: (tokens y ++ more_members r)
               ++ TRBrace :: rest))
      with (match value f ((tokens y ++ more_members r) ++ TRBrace :: rest) with
            | Some (v, r1) => members f (obj_set k v acc) r1
            | None => None
            end).
    rewrite <- app_assoc. rewrite (Ry Py) by lia.
    rewrite IH by (assumption || lia).
    reflexivity.
Qed.

Lemma obj_set_first k x : obj_set k x [] = [(k, x)].
Proof.
  unfold obj_set. cbn [obj_has]. destruct (array_index k); reflexivity.
Qed.

(** The reader on the tokens of a value. *)
Lemma value_tokens v : reads v.
Proof.
  induction v as [ | b | d | s | l IH | m IH] using json_values_ind;
    intros Pv f rest L.
  - destruct f as [|f]; [cbn in L; lia | reflexivity].
  - destruct b; (destruct f as [|f]; [cbn in L; lia | reflexivity]).
  - destruct Pv.
  - destruct f as [|f]; [cbn in L; lia | reflexivity].
  - apply numberless_array in Pv. rewrite tokens_array in *.
    destruct f as [|f]; [cbn in L; lia|].
    destruct l as [|x r]; [reflexivity|].
    inversion IH as [|? ? Rx Rr]; inversion Pv as [|? ? Px Pr]; subst.
    rewrite element_tokens_cons in *.
    cbn [app List.length] in *. rewrite !length_app in L. cbn [List.length] in L.
    rewrite value_array.
    + rewrite <- !app_assoc. rewrite (Rx Px) by lia.
      cbn [app]. rewrite elements_rest by (assumption || lia). reflexivity.
    + destruct (tokens_head x) as [t [ts [-> O]]]. destruct t; try exact I; destruct O.
  - apply numberless_object in Pv as [En Pv]. rewrite tokens_object in *.
    destruct f as [|f]; [cbn in L; lia|].
    destruct m as [|[k x] r]; [reflexivity|].
    inversion IH as [|? ? Rx Rr]; inversion Pv as [|? ? Px Pr]; subst.
    cbn [fst snd] in *.
    rewrite member_tokens_cons in *.
    cbn [app List.length] in *. rewrite !length_app in L. cbn [List.length] in L.
    change (value (S f)
              (TLBrace :: TString k :: TColon
               :: ((tokens x ++ more_members r) ++ [TRBrace]) ++ rest))
      with (match value f (((tokens x ++ more_members r) ++ [TRBrace]) ++ rest) with
            | Some (v, r1) => members f [(k, v)] r1
            | None => None
            end).
    rewrite <- !app_assoc. rewrite (Rx Px) by lia.
    cbn [app]. rewrite members_rest by (assumption || lia).
    unfold enumerated, assigned in En. cbn [fold_left fst snd] in En.
    rewrite obj_set_first in En. rewrite En. reflexivity.
Qed.

Lemma read_tokens v : numberless v -> read (tokens v) = Some v.
Proof.
  intros P. unfold read.
  rewrite <- (app_nil_r (tokens v)) at 2.
  rewrite (value_tokens v P) by lia. reflexivity.
Qed.

(** Printed and read back, a value without numbers is itself. *)
Lemma parse_stringify_numberless E v :
  numberless v -> parse (stringify E v) = Some v.
Proof.
  intros P. unfold parse. rewrite scan_run, (run_stringify E v P).
  cbn [finish]. rewrite app_nil_r. apply read_tokens. exact P.
Qed.

Lemma parse_stringify E v : plain v -> parse (stringify E v) = Some v.
Proof. intros P. apply parse_stringify_numberless, plain_numberless, P. Qed.

(** Printed and read back, a body without numbers is itself. *)
Lemma received_numberless server r :
  numberless (body r) -> received server r = Some (body r).
Proof. apply parse_stringify_numberless. Qed.

Lemma object_literal_defined ps : object_literal ps = JObj (defined_properties ps).
Proof.
  induction ps as [|[k [v|]] ps IH]; cbn [object_literal defined_properties].
  - reflexivity.
  - rewrite IH. reflexivity.
  - rewrite IH. reflexivity.
Qed.

Lemma defined_properties_in ps k v :
  In (k, v) (defined_properties ps) -> In (k, Some v) ps.
Proof.
  induction ps as [|[k' [v'|]] ps IH]; cbn [defined_properties]; [auto | |].
  - intros [H|H]; [left; congruence | right; auto].
  - intros H. right. auto.
Qed.

Lemma defined_properties_keys ps k :
  In k (map fst (defined_properties ps)) -> In k (map fst ps).
Proof.
  induction ps as [|[k' [v'|]] ps IH]; cbn [defined_properties map fst]; [auto | |].
  - intros [H|H]; [left; exact H | right; auto].
  - intros H. right. auto.
Qed.

Lemma defined_properties_nodup ps :
  NoDup (map fst ps) -> NoDup (map fst (defined_properties ps)).
Proof.
  induction ps as [|[k [v|]] ps IH]; cbn [defined_properties map fst]; intros N.
  - constructor.
  - inversion N as [|? ? Nk Nr]; subst. constructor; [|auto].
    intros I. apply Nk. apply defined_properties_keys. exact I.
  - inversion N; auto.
Qed.

Lemma obj_has_app k a b : obj_has k (a ++ b) = obj_has k a || obj_has k b.
Proof.
  induction a as [|[k' v] a IH]; [reflexivity|].
  cbn [app obj_has]. rewrite IH. apply orb_assoc.
Qed.

Lemma obj_has_keys k m : obj_has k m = false <-> ~ In k (map fst m).
Proof.
  induction m as [|[k' v] m IH]; cbn [obj_has map fst In].
  - split; [auto | reflexivity].
  - rewrite orb_false_iff, IH. split.
    + intros [A B] [C|C]; [|auto].
      subst k'. rewrite str_eqb_refl in A. discriminate.
    + intros H. split; [|auto].
      apply str_eqb_neq. intros ->. apply H. left. reflexivity.
Qed.

(** Properties with distinct keys that are no array indices are
    enumerated in the order of their assignment. *)
Lemma assigned_in_order m :
  forall acc,
    NoDup (map fst m) ->
    (forall k, In k (map fst m) -> array_index k = None /\ ~ In k (map fst acc)) ->
    fold_left (fun acc kv => obj_set (fst kv) (snd kv) acc) m acc = acc ++ m.
Proof.
  induction m as [|[k v] m IH]; intros acc N H.
  - cbn. rewrite app_nil_r. reflexivity.
  - inversion N as [|? ? Nk Nr]; subst. cbn [fold_left fst snd].
    destruct (H k (or_introl eq_refl)) as [A F].
    assert (S : obj_set k v acc = acc ++ [(k, v)]).
    { unfold obj_set. apply obj_has_keys in F. rewrite F, A. reflexivity. }
    rewrite S, IH.
    + rewrite <- app_assoc. reflexivity.
    + exact Nr.
    + intros k' I. destruct (H k' (or_intror I)) as [A' F']. split; [exact A'|].
      rewrite map_app. cbn [map fst]. intros J. apply in_app_or in J as [J|[J|[]]].
      * auto.
      * subst k'. auto.
Qed.

Lemma task_fields_distinct : NoDup task_fields.
Proof.
  unfold task_fields.
  repeat (constructor; [cbn [In]; intuition discriminate|]). constructor.
Qed.

Lemma task_fields_keys k :
  In k task_fields -> array_index k = None /\ units k.
Proof.
  unfold task_fields. cbn [In].
  intros [<-|[<-|[<-|[<-|[<-|[<-|[<-|[]]]]]]]];
    (split; [reflexivity | repeat constructor]).
Qed.

Lemma map_fst_fields t :
  map fst (map (fun k => (k, field t k)) task_fields) = task_fields.
Proof. rewrite map_map. cbn [fst]. apply map_id. Qed.

Lemma projected_plain t : plain_task t -> plain (projected t).
Proof.
  intros [_ P]. unfold projected. apply plain_object.
  set (ps := map (fun k => (k, field t k)) task_fields).
  assert (K : forall k, In k (map fst (defined_properties ps)) -> In k task_fields).
  { intros k I. apply defined_properties_keys in I. unfold ps in I.
    rewrite map_fst_fields in I. exact I. }
  split.
  - unfold enumerated, assigned. apply (assigned_in_order _ []).
    + apply defined_properties_nodup. unfold ps. rewrite map_fst_fields.
      apply task_fields_distinct.
    + intros k I. split; [apply task_fields_keys; auto | intros []].
  - apply Forall_forall. intros [k x] I. cbn [fst snd].
    assert (Ik : In k task_fields).
    { apply K. apply (in_map fst) in I. exact I. }
    split; [apply task_fields_keys; exact Ik|].
    apply defined_properties_in in I. unfold ps in I.
    apply in_map_iff in I as [k' [Q _]].
    assert (Qk : k' = k) by congruence. subst k'.
    apply (P k x Ik). congruence.
Qed.

Lemma project_projected E t :
  t <> JNull -> AnalyzeTodos.project E t = inr (projected t).
Proof.
  intros N. rewrite (AnalyzeFacts.project_fields E t N).
  rewrite object_literal_defined. reflexivity.
Qed.

Lemma map_project_projected E todos :
  Forall (fun t => t <> JNull) todos ->
  map_result (AnalyzeTodos.project E) todos = inr (map projected todos).
Proof.
  induction 1 as [|t l N _ IH]; [reflexivity|].
  cbn [map_result map]. rewrite (project_projected E t N), IH. reflexivity.
Qed.

Lemma obj_get_value k m x :
  obj_get k m = Some x -> In x (map snd m).
Proof.
  induction m as [|[k' v] m IH]; cbn [obj_get map snd In]; [discriminate|].
  destruct (str_eqb k k'); [intros H; left; congruence | auto].
Qed.

(** An object whose values hold no number is a plain task. *)
Lemma plain_task_object m :
  Forall plain (map snd m) -> plain_task (JObj m).
Proof.
  intros F. split; [discriminate|].
  intros k x _ G. cbn [field] in G. apply obj_get_value in G.
  rewrite Forall_forall in F. auto.
Qed.
End RoundTripFacts.

(** X26.  A value without numbers that is printed by JSON.stringify is
    read back by JSON.parse as the same value: the strings with their
    escapes, lone surrogates included, and the objects with their
    properties in order. *)
Theorem stringify_then_parse E v :
  RoundTrip.plain v -> JSON_parse (JSON_stringify E v) = Some v.
Proof. apply RoundTripFacts.parse_stringify. Qed.

Lemma stringify_then_parse_witness :
  JSON_parse (JSON_stringify Sample.engine Runs.analysis_body)
  = Some Runs.analysis_body.
Proof.
  apply (stringify_then_parse Sample.engine Runs.analysis_body).
  cbn. repeat split; try (vm_compute; reflexivity); repeat constructor.
Defined.

(** X27.  For tasks whose seven fields hold no number, the list the
    analysis handler puts into its message is JSON: read back, it is the
    list of the tasks reduced to those of the seven fields they have. *)
Theorem payload_is_json E todos :
  Forall RoundTrip.plain_task todos ->
  AnalyzeTodos.todosText E todos = inr (payload E todos) /\
  JSON_parse (payload E todos) = Some (JArr (map RoundTrip.projected todos)).
Proof.
  intros P.
  assert (N : Forall (fun t => t <> JNull) todos).
  { eapply Forall_impl; [|exact P]. intros t [H _]. exact H. }
  split; [apply AnalyzeFacts.todosText_total; exact N|].
  unfold payload, AnalyzeTodos.todosText.
  rewrite (RoundTripFacts.map_project_projected E todos N). cbn [bindR].
  apply RoundTripFacts.parse_stringify.
  apply RoundTripFacts.plain_array. rewrite Forall_map.
  eapply Forall_impl; [|exact P]. intros t Pt.
  apply RoundTripFacts.projected_plain. exact Pt.
Qed.

Lemma payload_is_json_witness :
  AnalyzeTodos.todosText Sample.engine Examples.tasks1
  = inr (payload Sample.engine Examples.tasks1) /\
  JSON_parse (payload Sample.engine Examples.tasks1)
  = Some (JArr (map RoundTrip.projected Examples.tasks1)).
Proof.
  apply (payload_is_json Sample.engine Examples.tasks1).
  constructor; [|constructor].
  apply RoundTripFacts.plain_task_object. repeat constructor.
Defined.

(** X28.  The day the extraction handler calls today is midnight UTC of
    the day of the request: the date printed into the instruction, read
    back as a date, is the time value of the start of the UTC day that
    holds the time of the request, a whole number of days, at most one
    day before the request. *)
Theorem today_is_utc_midnight E now :
  Calendar.four_digit_year now ->
  exists today,
    Date_parse E (GenerateTodo.currentDate now) = Some today /\
    today = (Calendar.Day now * Calendar.msPerDay)%Z /\
    (today mod Calendar.msPerDay = 0)%Z /\
    Calendar.Day today = Calendar.Day now /\
    (today <= now < today + Calendar.msPerDay)%Z.
Proof.
  intros Y. exists (Calendar.Day now * Calendar.msPerDay)%Z.
  split; [apply GenerateFacts.today_is_midnight; exact Y|].
  split; [reflexivity|].
  split; [apply Z.mod_mul; unfold Calendar.msPerDay; lia|].
  split; [apply CalendarFacts.Day_of_midnight|].
  unfold Calendar.Day, Calendar.msPerDay.
  pose proof (Z.div_mod now 86400000 ltac:(lia)) as D.
  pose proof (Z.mod_pos_bound now 86400000 ltac:(lia)) as B.
  lia.
Qed.

Lemma today_is_utc_midnight_witness :
  exists today,
    Date_parse Sample.engine (GenerateTodo.currentDate Examples.now0) = Some today /\
    today = (Calendar.Day Examples.now0 * Calendar.msPerDay)%Z /\
    (today mod Calendar.msPerDay = 0)%Z /\
    Calendar.Day today = Calendar.Day Examples.now0 /\
    (today <= Examples.now0 < today + Calendar.msPerDay)%Z.
Proof.
  apply (today_is_utc_midnight Sample.engine Examples.now0).
  unfold Calendar.four_digit_year, Examples.now0. lia.
Defined.

(* ================================================================== *)
(** * Further properties of the code *)
(* ================================================================== *)

(** ** Normalization of the prompt *)

Module NormalizeFacts.

Lemma drop_ws_head s :
  match drop_ws s with
  | c :: _ => is_ws c = false
  | [] => True
  end.
Proof.
  induction s as [|c s IH]; cbn; [exact I|].
  destruct (is_ws c) eqn:W; [exact IH | exact W].
Qed.

Lemma drop_ws_fixed c s : is_ws c = false -> drop_ws (c :: s) = c :: s.
Proof. intros W. cbn. rewrite W. reflexivity. Qed.

Lemma drop_ws_app_fixed x y :
  x <> [] -> drop_ws x = x -> drop_ws (x ++ y) = x ++ y.
Proof.
  destruct x as [|c x]; [congruence|]. intros _. cbn.
  destruct (is_ws c) eqn:W; [|reflexivity].
  intros H. exfalso.
  pose proof (drop_ws_head x) as D. rewrite H in D. congruence.
Qed.

Lemma content_drop_ws s : content (drop_ws s) = content s.
Proof.
  induction s as [|c s IH]; cbn; [reflexivity|].
  destruct (is_ws c) eqn:W; cbn; [exact IH|].
  rewrite W. reflexivity.
Qed.

Lemma content_rev s : content (rev s) = rev (content s).
Proof.
  unfold content. induction s as [|c s IH]; cbn; [reflexivity|].
  rewrite filter_app, IH. cbn.
  destruct (negb (is_ws c)); cbn; [reflexivity | apply app_nil_r].
Qed.

Lemma content_trim s : content (trim s) = content s.
Proof.
  unfold trim.
  rewrite content_rev, content_drop_ws, content_rev, rev_involutive.
  apply content_drop_ws.
Qed.

Lemma content_collapse b s : content (collapse_ws b s) = content s.
Proof.
  revert b. induction s as [|c s IH]; intros b; cbn; [reflexivity|].
  destruct (is_ws c) eqn:W.
  - destruct b; cbn; apply IH.
  - cbn. rewrite W. cbn. rewrite IH. reflexivity.
Qed.

(** The head of a trimmed text is not white space, nor is its last code
    unit. *)
Lemma trim_ends s :
  match trim s with
  | c :: _ => is_ws c = false
  | [] => True
  end /\
  match rev (trim s) with
  | c :: _ => is_ws c = false
  | [] => True
  end.
Proof.
  unfold trim. rewrite rev_involutive.
  pose proof (drop_ws_head (rev (drop_ws s))) as L. split; [|exact L].
  pose proof (drop_ws_head s) as F.
  destruct (JsonFacts.drop_ws_split (rev (drop_ws s))) as [w [Eq Fw]].
  assert (U : drop_ws s = rev (drop_ws (rev (drop_ws s))) ++ rev w).
  { rewrite <- rev_app_distr, <- Eq, rev_involutive. reflexivity. }
  destruct (rev (drop_ws (rev (drop_ws s)))) as [|c r] eqn:R; [exact I|].
  rewrite U in F. exact F.
Qed.

Lemma collapse_words s :
  forall in_run after,
    match rev s with
    | c :: _ => is_ws c = false
    | [] => False
    end ->
    (in_run = true -> after = true) ->
    (in_run = false -> after = true ->
     match s with c :: _ => is_ws c = false | [] => True end) ->
    words_ok after (collapse_ws in_run s) = true.
Proof.
  induction s as [|c s IH]; intros in_run after L A B; [cbn in L; contradiction|].
  assert (Ls : s <> [] ->
               match rev s with c0 :: _ => is_ws c0 = false | [] => False end).
  { intros Hn. cbn in L. destruct (rev s) as [|x r] eqn:R.
    - apply (f_equal (@rev _)) in R. rewrite rev_involutive in R. contradiction.
    - exact L. }
  cbn [collapse_ws]. destruct (is_ws c) eqn:W.
  - assert (Hs : s <> []) by (intros ->; cbn in L; congruence).
    destruct in_run.
    + rewrite (A eq_refl). apply IH; [apply Ls; exact Hs | auto | discriminate].
    + destruct after; [specialize (B eq_refl eq_refl); congruence|].
      cbn [words_ok]. change (is_ws 32) with true.
      rewrite N.eqb_refl. cbn [negb andb].
      apply IH; [apply Ls; exact Hs | auto | discriminate].
  - cbn [words_ok]. rewrite W.
    destruct s as [|c2 s]; [reflexivity|].
    apply IH; [apply Ls; discriminate | discriminate | discriminate].
Qed.

Lemma words_ok_collapse s :
  forall a b, words_ok a s = true -> (b = true -> a = true) ->
              collapse_ws b s = s.
Proof.
  induction s as [|c s IH]; intros a b H I; [reflexivity|].
  cbn in H |- *. destruct (is_ws c) eqn:W.
  - apply andb_prop in H as [H H2]. apply andb_prop in H as [H0 H1].
    apply N.eqb_eq in H0. subst c.
    destruct a; [discriminate|].
    destruct b; [specialize (I eq_refl); discriminate|].
    f_equal. apply (IH true true); auto.
  - f_equal. apply (IH false false); [assumption | discriminate].
Qed.

Lemma words_ok_head a c s : words_ok a (c :: s) = true -> a = true -> is_ws c = false.
Proof.
  cbn. destruct (is_ws c); [|reflexivity].
  intros H ->. rewrite andb_false_r in H. discriminate.
Qed.

Lemma words_ok_rev_fixed s :
  forall a, s <> [] -> words_ok a s = true -> drop_ws (rev s) = rev s.
Proof.
  induction s as [|c s IH]; intros a Hn H; [congruence|].
  cbn [rev]. destruct s as [|c2 s].
  - cbn in H |- *. destruct (is_ws c); [|reflexivity].
    rewrite andb_false_r in H. discriminate.
  - assert (H2 : exists a', words_ok a' (c2 :: s) = true).
    { cbn [words_ok] in H. destruct (is_ws c).
      - apply andb_prop in H as [_ H]. eauto.
      - eauto. }
    destruct H2 as [a' H2].
    apply drop_ws_app_fixed.
    + cbn. destruct (rev s); discriminate.
    + apply (IH a'); [discriminate | assumption].
Qed.

Lemma tidy_fixed s : tidy s = true -> normalize s = s.
Proof.
  destruct s as [|c s]; [reflexivity|]. unfold tidy. intros H.
  unfold normalize.
  assert (T : trim (c :: s) = c :: s).
  { unfold trim. rewrite (drop_ws_fixed c s (words_ok_head true c s H eq_refl)).
    rewrite (words_ok_rev_fixed (c :: s) true ltac:(discriminate) H).
    apply rev_involutive. }
  rewrite T. apply (words_ok_collapse (c :: s) true false H). discriminate.
Qed.

Lemma normalize_tidy s : tidy (normalize s) = true.
Proof.
  unfold normalize. destruct (trim_ends s) as [F L].
  destruct (trim s) as [|c t] eqn:T; [reflexivity|].
  assert (W : words_ok true (collapse_ws false (c :: t)) = true).
  { apply collapse_words; [|discriminate | intros _ _; exact F].
    cbn [rev] in L |- *. destruct (rev t ++ [c]) eqn:R; [|exact L].
    destruct (rev t); discriminate. }
  unfold tidy. destruct (collapse_ws false (c :: t)); [reflexivity | exact W].
Qed.

End NormalizeFacts.

(** X1.  In a normalized prompt white space occurs only as single spaces
    between other code units: none at either end, no two in a row, and no
    tab, line break or other space character. *)
Theorem normalize_leaves_single_spaces s : tidy (normalize s) = true.
Proof. apply NormalizeFacts.normalize_tidy. Qed.

(** X2.  Normalizing twice is normalizing once. *)
Theorem normalize_is_idempotent s : normalize (normalize s) = normalize s.
Proof. apply NormalizeFacts.tidy_fixed, NormalizeFacts.normalize_tidy. Qed.

(** X3.  Normalizing keeps the code units that are not white space, in
    their order, and never makes the text longer. *)
Theorem normalize_keeps_content s :
  content (normalize s) = content s /\
  (List.length (normalize s) <= List.length s)%nat.
Proof.
  split.
  - unfold normalize.
    rewrite NormalizeFacts.content_collapse. apply NormalizeFacts.content_trim.
  - unfold normalize.
    assert (C : forall b t, (List.length (collapse_ws b t) <= List.length t)%nat).
    { intros b t. revert b. induction t as [|c t IH]; intros b; cbn; [lia|].
      destruct (is_ws c); [destruct b|]; cbn;
        try (specialize (IH true); lia); specialize (IH false); lia. }
    assert (D : forall t, (List.length (drop_ws t) <= List.length t)%nat).
    { induction t as [|c t IH]; cbn; [lia|]. destruct (is_ws c); cbn; lia. }
    eapply Nat.le_trans; [apply C|].
    unfold trim. rewrite length_rev.
    eapply Nat.le_trans; [apply D|]. rewrite length_rev. apply D.
Qed.

(** ** The extraction handler: what is sent, what is answered *)

Module ExtractionFacts.
Import GenerateTodo.

Lemma on_error_status e : In (status (on_error e)) [400; 429; 500]%Z.
Proof.
  rewrite on_error_response. cbn [status json_response_with].
  unfold status_of_error.
  destruct (includes (u16 "429") (err_message e)); [cbn; auto|].
  destruct (_ || _); cbn; auto.
Qed.

Lemma on_error_not_200 e : status (on_error e) <> 200%Z.
Proof.
  pose proof (on_error_status e) as H. cbn in H.
  intros Q. rewrite Q in H. intuition discriminate.
Qed.

(** Every run of the handler, by what it sent and why it stopped. *)
Lemma POST_runs E upstream now req :
  (snd (POST E upstream now req) = [] /\
   status (fst (POST E upstream now req)) <> 200%Z) \/
  (exists raw,
      (2 <= js_length (normalize raw) <= 500)%Z /\
      snd (POST E upstream now req) = [extraction_call E now raw] /\
      (status (fst (POST E upstream now req)) <> 200%Z \/
       exists todo todo',
         postprocess E now (normalize raw) todo = inr todo' /\
         fst (POST E upstream now req) = json_response (JObj [(k_todo, todo')]))).
Proof.
  unfold POST, try_catch, attempt, bind, lift, ret.
  destruct req as [e|b]; [left; split; [reflexivity | apply on_error_not_200]|].
  destruct (destructure E b k_prompt) as [e|prompt];
    [left; split; [reflexivity | apply on_error_not_200]|].
  destruct prompt as [[ | b0 | d | raw | l | m]|];
    try (left; split; [reflexivity | discriminate]).
  destruct raw as [|c raw]; [left; split; [reflexivity | discriminate]|].
  destruct (Z.ltb_spec (js_length (normalize (c :: raw))) 2);
    [left; split; [reflexivity | discriminate]|].
  destruct (Z.ltb_spec 500 (js_length (normalize (c :: raw))));
    [left; split; [reflexivity | discriminate]|].
  right. exists (c :: raw). split; [lia|].
  unfold sendMessage. fold (extraction_call E now (c :: raw)).
  destruct (upstream _) as [e|text];
    [split; [reflexivity | left; apply on_error_not_200]|].
  destruct (parse_response E text) as [e|todo];
    [split; [reflexivity | left; apply on_error_not_200]|].
  destruct (postprocess E now (normalize (c :: raw)) todo) as [e|todo'] eqn:P;
    [split; [reflexivity | left; apply on_error_not_200]|].
  split; [reflexivity|]. right. exists todo, todo'. split; [exact P | reflexivity].
Qed.

(** What the handler sent, by the prompt of the request. *)
Lemma POST_sends E upstream now req :
  snd (POST E upstream now req) = [] \/
  exists body raw,
    req = inr body /\
    destructure E body k_prompt = inr (Some (JStr raw)) /\
    (2 <= js_length (normalize raw) <= 500)%Z /\
    snd (POST E upstream now req) = [extraction_call E now raw].
Proof.
  unfold POST, try_catch, attempt, bind, lift, ret.
  destruct req as [e|b]; [left; reflexivity|].
  destruct (destructure E b k_prompt) as [e|prompt] eqn:D; [left; reflexivity|].
  destruct prompt as [[ | b0 | d | raw | l | m]|]; try (left; reflexivity).
  destruct raw as [|c raw]; [left; reflexivity|].
  destruct (Z.ltb_spec (js_length (normalize (c :: raw))) 2); [left; reflexivity|].
  destruct (Z.ltb_spec 500 (js_length (normalize (c :: raw)))); [left; reflexivity|].
  right. exists b, (c :: raw). split; [reflexivity|]. split; [exact D|].
  split; [lia|].
  unfold sendMessage. fold (extraction_call E now (c :: raw)).
  destruct (upstream _) as [e|text]; [reflexivity|].
  destruct (parse_response E text) as [e|todo]; [reflexivity|].
  destruct (postprocess E now (normalize (c :: raw)) todo) as [e|todo'];
    reflexivity.
Qed.

(** Post-processing returns an object only for an object. *)
Lemma postprocess_object E now prompt todo o' :
  postprocess E now prompt todo = inr (JObj o') -> exists o, todo = JObj o.
Proof.
  destruct todo as [ | b | d | s | l | m]; [| | | | |eauto];
    unfold postprocess, adjust_title, default_priority, correct_due_date;
    cbn; try discriminate.
Qed.

Lemma correct_due_date_returns E now o todo3 :
  correct_due_date E now (JObj o) = inr todo3 ->
  exists o3, todo3 = JObj o3 /\
    forall k, k <> k_due_date -> obj_get k o3 = obj_get k o.
Proof.
  unfold correct_due_date. cbn [get_prop bindR].
  destruct (obj_get k_due_date o) as [d|];
    [|intros H; inversion H; subst; eauto].
  destruct (truthy d); [|intros H; inversion H; subst; eauto].
  destruct (new_Date E d) as [e|t]; cbn [bindR]; [discriminate|].
  destruct (date_lt t (Date_parse E (currentDate now)));
    [|intros H; inversion H; subst; eauto].
  cbn. intros H; inversion H; subst. eexists; split; [reflexivity|].
  intros k K. apply obj_get_set_other; assumption.
Qed.

(** The steps of a successful post-processing of an object. *)
Lemma postprocess_steps E now prompt o o' :
  postprocess E now prompt (JObj o) = inr (JObj o') ->
  exists o1,
    adjust_title E prompt (JObj o) = inr (JObj o1) /\
    correct_due_date E now (JObj (with_default_priority o1)) = inr (JObj o') /\
    (forall k, k <> k_due_date ->
               obj_get k o' = obj_get k (with_default_priority o1)).
Proof.
  unfold postprocess.
  destruct (adjust_title E prompt (JObj o)) as [e|todo1] eqn:A; [discriminate|].
  destruct (GenerateFacts.adjust_title_frame E prompt o todo1 A) as [o1 [-> F1]].
  cbn [bindR]. rewrite GenerateFacts.default_priority_object. cbn [bindR].
  intros C. exists o1. split; [reflexivity|]. split; [exact C|].
  destruct (correct_due_date_returns E now _ _ C) as [o3 [Eq F3]].
  inversion Eq; subst o3. exact F3.
Qed.

Lemma shortened_truthy x : truthy (JStr (x ++ ellipsis)) = true.
Proof. destruct x; reflexivity. Qed.

Lemma shortened_length n s :
  (1 <= js_length (substring0 n s ++ ellipsis) <= Z.of_nat n + 3)%Z.
Proof.
  unfold js_length, substring0. rewrite length_app, length_firstn.
  change (List.length ellipsis) with 3%nat. lia.
Qed.

Lemma returned_object (a b : props) :
  (inr (JObj a) : js_result json) = inr (JObj b) -> b = a.
Proof. congruence. Qed.

Lemma same_text (a b : jsstring) : JStr a = JStr b -> b = a.
Proof. congruence. Qed.

Lemma adjust_title_result E prompt o o1 :
  prompt <> [] ->
  adjust_title E prompt (JObj o) = inr (JObj o1) ->
  exists t,
    obj_get k_title o1 = Some t /\ truthy t = true /\
    forall s, t = JStr s -> (1 <= js_length s <= 50)%Z.
Proof.
  intros Np. unfold adjust_title. cbn [get_prop bindR].
  destruct (falsy (obj_get k_title o)) eqn:F.
  - cbn [set_prop].
    destruct (Z.ltb_spec 30 (js_length prompt)) as [L|L];
      intros H; apply returned_object in H; subst o1;
      (eexists; split; [apply obj_get_set_same|]).
    + split; [apply shortened_truthy|].
      intros s Hs. apply same_text in Hs. subst s.
      pose proof (shortened_length 30 prompt) as B.
      cbn [Z.of_nat Pos.of_succ_nat Pos.succ] in B. lia.
    + split; [destruct prompt; [congruence | reflexivity]|].
      intros s Hs. apply same_text in Hs. subst s.
      destruct prompt; [congruence|]. unfold js_length in *.
      cbn [List.length] in *. lia.
  - destruct (obj_get k_title o) as [t0|] eqn:T; [|discriminate].
    cbn [falsy] in F. apply negb_false_iff in F. cbn [defined].
    destruct (length_gt E t0 50) as [e|[|]] eqn:G; cbn [bindR]; [discriminate | |].
    + assert (S : forall o0, obj_get k_title o0 = Some t0 ->
                    (let* short := substring_of E t0 47 in
                     set_prop E (JObj o0) k_title (JStr (short ++ ellipsis)))
                    = inr (JObj o1) ->
                    exists t, obj_get k_title o1 = Some t /\ truthy t = true /\
                      forall s, t = JStr s -> (1 <= js_length s <= 50)%Z).
      { intros o0 T0. destruct t0; try discriminate.
        cbn [substring_of bindR set_prop].
        intros H; apply returned_object in H; subst o1.
        eexists. split; [apply obj_get_set_same|].
        split; [apply shortened_truthy|].
        intros s' Hs. apply same_text in Hs. subst s'.
        pose proof (shortened_length 47 s) as B.
        cbn [Z.of_nat Pos.of_succ_nat Pos.succ] in B. lia. }
      destruct (falsy (obj_get k_description o)); cbn [set_prop bindR get_prop].
      * rewrite obj_get_set_other by GenerateFacts.distinct_keys. rewrite T.
        cbn [defined]. apply S.
        rewrite obj_get_set_other by GenerateFacts.distinct_keys. exact T.
      * rewrite T. cbn [defined]. apply S. exact T.
    + intros H; apply returned_object in H; subst o1.
      exists t0. split; [exact T|]. split; [exact F|].
      intros s ->. cbn [length_gt] in G.
      assert (G' : (50 <? js_length s)%Z = false) by congruence.
      apply Z.ltb_ge in G'. split; [|exact G'].
      destruct s; [discriminate|]. unfold js_length. cbn [List.length]. lia.
Qed.

Lemma with_default_priority_truthy o :
  exists p, obj_get k_priority (with_default_priority o) = Some p /\ truthy p = true.
Proof.
  unfold with_default_priority.
  destruct (falsy (obj_get k_priority o)) eqn:F.
  - eexists. split; [apply obj_get_set_same | reflexivity].
  - destruct (obj_get k_priority o) as [p|]; [|discriminate].
    exists p. split; [reflexivity|]. cbn in F. apply negb_false_iff in F. exact F.
Qed.

(** The title and the priority of a post-processed object. *)
Lemma postprocess_fields E now prompt o0 o :
  (2 <= js_length prompt)%Z ->
  postprocess E now prompt (JObj o0) = inr (JObj o) ->
  (exists t, obj_get k_title o = Some t /\ truthy t = true /\
             forall s, t = JStr s -> (1 <= js_length s <= 50)%Z) /\
  (exists p, obj_get k_priority o = Some p /\ truthy p = true).
Proof.
  intros L P.
  destruct (postprocess_steps E now _ o0 o P) as [o1 [A [_ F]]].
  split.
  - rewrite F by GenerateFacts.distinct_keys.
    rewrite GenerateFacts.default_priority_frame by GenerateFacts.distinct_keys.
    apply (adjust_title_result E prompt o0 o1); [|exact A].
    intros Q. rewrite Q in L. cbn in L. lia.
  - rewrite F by GenerateFacts.distinct_keys.
    apply with_default_priority_truthy.
Qed.

(** A due date that post-processing returns is not before today. *)
Lemma postprocess_due_date E now prompt o0 o d t :
  Calendar.four_digit_year now ->
  postprocess E now prompt (JObj o0) = inr (JObj o) ->
  obj_get k_due_date o = Some d ->
  truthy d = true ->
  new_Date E d = inr (Some t) ->
  (Calendar.Day now <= Calendar.Day t)%Z.
Proof.
  intros Y P D T N.
  destruct (postprocess_steps E now _ o0 o P) as [o1 [_ [C _]]].
  revert C. generalize (with_default_priority o1). intros w.
  unfold correct_due_date. cbn [get_prop bindR].
  destruct (obj_get k_due_date w) as [d0|] eqn:D0.
  2:{ intros C. apply returned_object in C. subst o. congruence. }
  destruct (truthy d0) eqn:T0.
  2:{ intros C. apply returned_object in C. subst o. congruence. }
  destruct (new_Date E d0) as [e|t0] eqn:N0; cbn [bindR]; [discriminate|].
  rewrite GenerateFacts.today_is_midnight by assumption.
  destruct (date_lt t0 _) eqn:Lt.
  - cbn [set_prop]. intros C. apply returned_object in C. subst o.
    rewrite obj_get_set_same in D.
    assert (Q : d = JStr (currentDate now)) by congruence. subst d.
    cbn [new_Date] in N. rewrite GenerateFacts.today_is_midnight in N by assumption.
    assert (Q : t = (Calendar.Day now * Calendar.msPerDay)%Z) by congruence.
    subst t. rewrite CalendarFacts.Day_of_midnight. lia.
  - intros C. apply returned_object in C. subst o.
    assert (Q : d0 = d) by congruence. subst d0.
    assert (Q : t0 = Some t) by congruence. subst t0.
    cbn [date_lt] in Lt. apply Z.ltb_ge in Lt.
    destruct (Z.lt_ge_cases (Calendar.Day t) (Calendar.Day now)) as [B|B]; [|lia].
    apply CalendarFacts.before_midnight_iff in B. lia.
Qed.

Lemma success_postprocess E upstream now req o' :
  extraction_succeeds E upstream now req o' ->
  exists raw o,
    (2 <= js_length (normalize raw) <= 500)%Z /\
    postprocess E now (normalize raw) (JObj o) = inr (JObj o').
Proof.
  intros [log H].
  destruct (POST_runs E upstream now req) as [[_ S] | [raw [L [_ [S | [todo [todo' [P Q]]]]]]]];
    try (rewrite H in S; cbn in S; congruence).
  rewrite H in Q. cbn [fst] in Q. inversion Q; subst todo'.
  destruct (postprocess_object E now _ todo o' P) as [o ->].
  exists raw, o. split; assumption.
Qed.

End ExtractionFacts.

(** X4.  The extraction endpoint sends the service at most one message per
    request, and every message it sends is the normalized prompt of that
    request: the body of the request holds a string under prompt, the
    message is that string normalized, sent with the instruction of the
    handler, and it has between 2 and 500 code units, with white space
    only as single spaces between other code units. *)
Theorem upstream_message_is_normalized E upstream now req :
  (List.length (snd (GenerateTodo.POST E upstream now req)) <= 1)%nat /\
  Forall (fun c => tidy (call_message c) = true /\
                   (2 <= js_length (call_message c) <= 500)%Z)
    (snd (GenerateTodo.POST E upstream now req)) /\
  (snd (GenerateTodo.POST E upstream now req) = [] \/
   exists body raw,
     req = inr body /\
     destructure E body GenerateTodo.k_prompt = inr (Some (JStr raw)) /\
     snd (GenerateTodo.POST E upstream now req)
     = [{| call_system := GenerateTodo.systemInstruction E now;
           call_message := normalize raw |}]).
Proof.
  destruct (ExtractionFacts.POST_sends E upstream now req)
    as [L | [body [raw [Q [D [B L]]]]]]; rewrite L.
  - split; [cbn; lia|]. split; [constructor | left; reflexivity].
  - split; [cbn; lia|]. split.
    + constructor; [|constructor].
      cbn [extraction_call call_message].
      split; [apply NormalizeFacts.normalize_tidy | exact B].
    + right. exists body, raw. split; [exact Q|]. split; [exact D | reflexivity].
Qed.

(** X5.  When the task object answered by the extraction endpoint holds no
    number, the body printed by the endpoint and read back by a client is
    that answer unchanged, and the task it holds has a title and a
    priority, both truthy, with a title of between 1 and 50 code units
    when it is a string. *)
Theorem answered_task_has_title_and_priority E upstream now req o :
  extraction_succeeds E upstream now req o ->
  RoundTrip.numberless (JObj o) ->
  received E (fst (GenerateTodo.POST E upstream now req))
  = Some (JObj [(GenerateTodo.k_todo, JObj o)]) /\
  (exists t, obj_get GenerateTodo.k_title o = Some t /\ truthy t = true /\
             forall s, t = JStr s -> (1 <= js_length s <= 50)%Z) /\
  (exists p, obj_get GenerateTodo.k_priority o = Some p /\ truthy p = true).
Proof.
  intros S N. split.
  - destruct S as [log S]. rewrite S. cbn [fst].
    apply (RoundTripFacts.received_numberless E
             (json_response (JObj [(GenerateTodo.k_todo, JObj o)]))).
    cbn [body json_response].
    apply RoundTripFacts.numberless_object. split; [reflexivity|].
    constructor; [exact N | constructor].
  - destruct (ExtractionFacts.success_postprocess E upstream now req o S)
      as [raw [o0 [L P]]].
    apply (ExtractionFacts.postprocess_fields E now (normalize raw) o0 o);
      [lia | exact P].
Qed.

Lemma answered_task_has_title_and_priority_witness :
  received Sample.engine
    (fst (GenerateTodo.POST Sample.engine (answering Examples.reply_past)
            Examples.now0 (inr (Examples.body_of_prompt Examples.raw_report))))
  = Some (JObj [(GenerateTodo.k_todo, JObj Runs.answered_past)]) /\
  (exists t, obj_get GenerateTodo.k_title Runs.answered_past = Some t /\
             truthy t = true /\
             forall s, t = JStr s -> (1 <= js_length s <= 50)%Z) /\
  (exists p, obj_get GenerateTodo.k_priority Runs.answered_past = Some p /\
             truthy p = true).
Proof.
  apply (answered_task_has_title_and_priority Sample.engine
           (answering Examples.reply_past) Examples.now0
           (inr (Examples.body_of_prompt Examples.raw_report))
           Runs.answered_past).
  - eexists. vm_compute. reflexivity.
  - vm_compute. repeat split.
Defined.

(** X6.  A due date answered by the extraction endpoint never lies before
    today: when the answered task has a truthy due date of which the engine
    makes a valid date, that date is on the UTC day of the request or
    later. *)
Theorem answered_due_date_is_not_past E upstream now req o d t :
  Calendar.four_digit_year now ->
  extraction_succeeds E upstream now req o ->
  obj_get GenerateTodo.k_due_date o = Some d ->
  truthy d = true ->
  new_Date E d = inr (Some t) ->
  (Calendar.Day now <= Calendar.Day t)%Z.
Proof.
  intros Y S D T N.
  destruct (ExtractionFacts.success_postprocess E upstream now req o S)
    as [raw [o0 [_ P]]].
  apply (ExtractionFacts.postprocess_due_date E now (normalize raw) o0 o d t);
    assumption.
Qed.

Lemma answered_due_date_is_not_past_witness :
  Calendar.four_digit_year Examples.now0 /\
  extraction_succeeds Sample.engine (answering Examples.reply_past) Examples.now0
    (inr (Examples.body_of_prompt Examples.raw_report)) Runs.answered_past /\
  obj_get GenerateTodo.k_due_date Runs.answered_past = Some (JStr (u16 "2024-01-01")) /\
  (Calendar.Day Examples.now0 <= Calendar.Day 1704067200000)%Z.
Proof.
  assert (Y : Calendar.four_digit_year Examples.now0)
    by (unfold Calendar.four_digit_year, Examples.now0; lia).
  assert (S : extraction_succeeds Sample.engine (answering Examples.reply_past)
                Examples.now0 (inr (Examples.body_of_prompt Examples.raw_report))
                Runs.answered_past)
    by (eexists; vm_compute; reflexivity).
  assert (D : obj_get GenerateTodo.k_due_date Runs.answered_past
              = Some (JStr (u16 "2024-01-01")))
    by (vm_compute; reflexivity).
  split; [exact Y|]. split; [exact S|]. split; [exact D|].
  apply (answered_due_date_is_not_past Sample.engine
           (answering Examples.reply_past) Examples.now0
           (inr (Examples.body_of_prompt Examples.raw_report))
           Runs.answered_past (JStr (u16 "2024-01-01")) 1704067200000 Y S D).
  - reflexivity.
  - vm_compute; reflexivity.
Defined.

(** ** Response parsing: white space around the fences *)

Module FenceFacts.
Import Json JsonFacts.
Local Open Scope N_scope.

Lemma ws_not_backtick c : is_ws c = true -> (96 =? c) = false.
Proof.
  intros W. destruct (N.eqb_spec 96 c) as [<-|]; [discriminate | reflexivity].
Qed.

Lemma no_final_line_feed_tail c c2 w :
  no_final_line_feed (c :: c2 :: w) -> no_final_line_feed (c2 :: w).
Proof.
  unfold no_final_line_feed. cbn [rev].
  destruct (rev w ++ [c2]) as [|x l] eqn:R.
  - destruct (rev w); discriminate.
  - cbn. auto.
Qed.

(** A run of white space holds no marker, unless its last line feed is
    followed by backticks. *)
Lemma remove_fences_ws w rest :
  forallb is_ws w = true ->
  no_final_line_feed w \/ match rest with c :: _ => c <> 96 | [] => True end ->
  remove_fences_from 0 (w ++ rest) = w ++ remove_fences_from 0 rest.
Proof.
  induction w as [|c w IH]; intros W L; [reflexivity|].
  cbn [forallb] in W. apply andb_prop in W as [Wc Ww].
  cbn [app]. rewrite remove_fences_cons.
  - f_equal. apply IH; [exact Ww|].
    destruct L as [L|L]; [|right; exact L].
    destruct w as [|c2 w]; [left; exact I|].
    left. apply (no_final_line_feed_tail c). exact L.
  - unfold fence_open. cbn [starts_with]. rewrite (ws_not_backtick c Wc). reflexivity.
  - unfold fence_close. cbn [starts_with].
    destruct (N.eqb_spec 10 c) as [<-|]; [|reflexivity]. cbn [andb].
    destruct w as [|c2 w].
    + cbn [app]. destruct rest as [|r0 rest]; [reflexivity|]. cbn [starts_with].
      destruct (N.eqb_spec 96 r0) as [<-|]; [|reflexivity].
      destruct L as [L|L]; [|congruence].
      unfold no_final_line_feed in L. cbn in L. congruence.
    + cbn [forallb] in Ww. apply andb_prop in Ww as [W2 _].
      cbn [app starts_with]. rewrite (ws_not_backtick c2 W2). reflexivity.
Qed.

(** The body of a fenced text, when more text follows the closing
    fence. *)
Lemma remove_fences_body_then t post st ts :
  settled st -> scan st t = Some ts ->
  remove_fences_from 0 (t ++ fence_close ++ post)
  = t ++ remove_fences_from 0 post.
Proof.
  revert st ts. induction t as [|c t IH]; intros st ts S H.
  - reflexivity.
  - cbn [scan] in H.
    destruct (step st c) as [[st1 t1]|] eqn:E; [|discriminate].
    destruct (scan st1 t) as [t2|] eqn:Es; [|discriminate].
    pose proof (step_settled st c st1 t1 S E) as S1.
    cbn [app]. rewrite remove_fences_cons.
    + f_equal. eapply IH; eauto.
    + unfold fence_open. cbn [starts_with].
      destruct (N.eqb_spec 96 c) as [<-|]; [|reflexivity].
      cbn [andb].
      destruct (step_backtick st st1 t1 S E) as [acc [-> ->]].
      apply (marker_in_string [96; 96; 106; 115; 111; 110] (96 :: acc) t
               (fence_close ++ post) t2); [|assumption].
      repeat constructor; lia.
    + unfold fence_close. cbn [starts_with].
      destruct (N.eqb_spec 10 c) as [<-|]; [|reflexivity].
      cbn [andb].
      apply (step_newline st st1 t1 S) in E. subst st1.
      destruct t as [|c2 t]; [reflexivity|].
      cbn [app starts_with].
      destruct (N.eqb_spec 96 c2) as [<-|]; [|reflexivity].
      discriminate.
Qed.

Lemma run_ws w :
  forallb is_ws w = true -> run LOut w = None \/ run LOut w = Some (LOut, []).
Proof.
  induction w as [|c w IH]; intros W; [right; reflexivity|].
  cbn [forallb] in W. apply andb_prop in W as [Wc Ww]. cbn [run].
  destruct (@step_ws LOut c I Wc) as [E | [[t1 [E F]] | [acc [E _]]]];
    [rewrite E; left; reflexivity | | discriminate].
  rewrite E. cbn in F. inversion F; subst t1.
  destruct (IH Ww) as [R|R]; rewrite R; [left | right]; reflexivity.
Qed.

(** A text whose first code unit after white space is a backtick is not
    JSON. *)
Lemma parse_ws_backtick w rest :
  forallb is_ws w = true -> parse (w ++ 96 :: rest) = None.
Proof.
  intros W. unfold parse. rewrite scan_app.
  destruct (run_ws w W) as [R|R]; rewrite R; reflexivity.
Qed.

Lemma drop_ws_run w rest : forallb is_ws w = true -> drop_ws (w ++ rest) = drop_ws rest.
Proof.
  induction w as [|c w IH]; intros W; [reflexivity|].
  cbn [forallb] in W. apply andb_prop in W as [Wc Ww].
  cbn [app drop_ws]. rewrite Wc. auto.
Qed.

Lemma drop_ws_all w : forallb is_ws w = true -> drop_ws w = [].
Proof.
  intros W. rewrite <- (app_nil_r w). rewrite drop_ws_run by assumption. reflexivity.
Qed.

(** White space around a text does not survive [trim]. *)
Lemma trim_margins pre t post :
  forallb is_ws pre = true -> forallb is_ws post = true ->
  trim (pre ++ t ++ post) = trim t.
Proof.
  intros Wpre Wpost. unfold trim. rewrite drop_ws_run by assumption.
  f_equal.
  induction t as [|c t IH].
  - cbn [app]. rewrite (drop_ws_all post) by assumption. reflexivity.
  - cbn [app drop_ws]. destruct (is_ws c) eqn:Wc; [exact IH|].
    change (c :: t ++ post) with ((c :: t) ++ post).
    rewrite rev_app_distr. rewrite drop_ws_run; [reflexivity|].
    rewrite forallb_rev. exact Wpost.
Qed.

Lemma trim_head c s : is_ws c = false -> exists r, trim (c :: s) = c :: r.
Proof.
  intros W. unfold trim. cbn [drop_ws]. rewrite W. cbn [rev].
  destruct (drop_ws_split (rev s ++ [c])) as [w [Eq F]].
  assert (Q : exists u, drop_ws (rev s ++ [c]) = u ++ [c]).
  { revert Eq F. generalize (drop_ws (rev s ++ [c])). intros d Eq F.
    destruct (rev d) as [|x l] eqn:R.
    - apply (f_equal (@rev N)) in R. rewrite rev_involutive in R. cbn in R. subst d.
      rewrite app_nil_r in Eq. rewrite <- Eq in F.
      rewrite forallb_app in F. cbn in F. rewrite W in F.
      rewrite andb_false_r in F. discriminate.
    - apply (f_equal (@rev N)) in R. rewrite rev_involutive in R. cbn in R. subst d.
      rewrite app_assoc in Eq. apply app_inj_tail in Eq as [_ Q]. subst x.
      eauto. }
  destruct Q as [u Q]. rewrite Q, rev_app_distr. cbn. eauto.
Qed.

End FenceFacts.

(** X7.  A fenced JSON reply is still read when white space surrounds the
    fences, provided that no line feed comes directly before the opening
    fence. *)
Theorem fenced_response_with_margins E pre text post v :
  JSON_parse text = Some v ->
  forallb is_ws pre = true ->
  forallb is_ws post = true ->
  no_final_line_feed pre ->
  parse_response E (pre ++ fenced text ++ post) = inr v.
Proof.
  intros P Wpre Wpost L. unfold parse_response, JSON_parse.
  unfold fenced at 1.
  change (pre ++ (fence_open ++ text ++ fence_close) ++ post)
    with (pre ++ (96%N :: (tl fence_open ++ text ++ fence_close) ++ post)).
  rewrite FenceFacts.parse_ws_backtick by assumption.
  assert (R : remove_fences (pre ++ fenced text ++ post) = pre ++ text ++ post).
  { unfold remove_fences. rewrite FenceFacts.remove_fences_ws; [|assumption|left; exact L].
    f_equal. unfold fenced. rewrite <- !app_assoc.
    change (remove_fences_from 0 (fence_open ++ text ++ fence_close ++ post))
      with (remove_fences_from 0 (text ++ fence_close ++ post)).
    unfold JSON_parse, Json.parse in P.
    destruct (Json.scan Json.LOut text) as [ts|] eqn:S; [|discriminate].
    rewrite (FenceFacts.remove_fences_body_then text post Json.LOut ts I S).
    f_equal.
    rewrite <- (app_nil_r post) at 1.
    rewrite FenceFacts.remove_fences_ws; [apply app_nil_r | assumption | right; exact I]. }
  rewrite R. rewrite FenceFacts.trim_margins by assumption.
  rewrite (JsonFacts.parse_trim _ _ P). reflexivity.
Qed.

Lemma fenced_response_with_margins_witness :
  JSON_parse Examples.reply_past = Some (JObj Examples.todo_past) /\
  parse_response Sample.engine
    ([32%N; 32%N] ++ fenced Examples.reply_past ++ [10%N; 10%N])
  = inr (JObj Examples.todo_past).
Proof.
  assert (P : JSON_parse Examples.reply_past = Some (JObj Examples.todo_past))
    by (vm_compute; reflexivity).
  split; [exact P|].
  apply (fenced_response_with_margins Sample.engine [32%N; 32%N]
           Examples.reply_past [10%N; 10%N] (JObj Examples.todo_past) P).
  - reflexivity.
  - reflexivity.
  - unfold no_final_line_feed. cbn. discriminate.
Defined.

(** X8.  A line feed directly before the opening fence makes the reply
    unreadable, whatever the fences hold: the line feed and the three
    backticks are removed as a closing fence, and the text left begins
    with the letters of the fence label. *)
Theorem line_feed_before_fence_is_rejected E text :
  exists e, parse_response E (10%N :: fenced text) = inl e.
Proof.
  unfold parse_response, JSON_parse.
  change (Json.parse (10%N :: fenced text)) with (@None json).
  assert (R : exists r, remove_fences (10%N :: fenced text) = 106%N :: r).
  { unfold remove_fences, fenced. eexists. reflexivity. }
  destruct R as [r R]. rewrite R.
  destruct (FenceFacts.trim_head 106 r eq_refl) as [r' T]. rewrite T.
  change (Json.parse (106%N :: r')) with (@None json).
  eexists. reflexivity.
Qed.

(** ** The analysis handler: when the service is contacted, and the
    statuses *)

Module AnalysisRuns.
Import AnalyzeTodos.

Lemma project_null E : exists e, project E JNull = inl e.
Proof. eexists. reflexivity. Qed.

Lemma map_project_non_null E todos ps :
  map_result (project E) todos = inr ps -> Forall (fun t => t <> JNull) todos.
Proof.
  revert ps. induction todos as [|t todos IH]; intros ps; [constructor|].
  cbn [map_result].
  destruct (project E t) as [e|p] eqn:P; cbn [bindR]; [discriminate|].
  destruct (map_result (project E) todos) as [e|qs]; cbn [bindR]; [discriminate|].
  intros _. constructor; [|eapply IH; reflexivity].
  intros ->. destruct (project_null E) as [e Q]. congruence.
Qed.

Lemma todosText_non_null E todos text :
  todosText E todos = inr text -> Forall (fun t => t <> JNull) todos.
Proof.
  unfold todosText.
  destruct (map_result (project E) todos) as [e|ps] eqn:P; [discriminate|].
  intros _. eapply map_project_non_null; eassumption.
Qed.

Lemma todosText_null E todos :
  In JNull todos -> exists e, todosText E todos = inl e.
Proof.
  intros I. destruct (todosText E todos) as [e|text] eqn:T; [eauto|].
  apply todosText_non_null in T. rewrite Forall_forall in T.
  destruct (T JNull I eq_refl).
Qed.

(** A [todos] value that is not a list is refused before anything else
    is done. *)
Lemma POST_not_list E upstream now body todos :
  destructure E body k_todos = inr todos ->
  (forall l, todos <> Some (JArr l)) ->
  POST E upstream now (inr body)
  = (json_response_with (JObj [(k_error, JStr msg_invalid_list)]) 400, []).
Proof.
  intros D N. unfold POST, try_catch, attempt, bind, lift, ret. rewrite D.
  destruct body as [ | b | d | s | l | m]; try discriminate;
    cbn [destructure] in *;
    destruct todos as [[ | b' | d' | s' | l' | m']|]; try discriminate;
    try reflexivity; destruct (N l' eq_refl).
Qed.

(** Every run of the handler, by the request. *)
Lemma POST_cases E upstream now req :
  (exists e, req = inl e /\ POST E upstream now req = (on_error e, [])) \/
  (exists body e, req = inr body /\ destructure E body k_todos = inl e /\
                  POST E upstream now req = (on_error e, [])) \/
  (exists body todos, req = inr body /\
                      destructure E body k_todos = inr todos /\
                      (forall l, todos <> Some (JArr l)) /\
                      POST E upstream now req
                      = (json_response_with
                           (JObj [(k_error, JStr msg_invalid_list)]) 400, [])) \/
  (exists body todos, req = inr body /\
                      destructure E body k_todos = inr (Some (JArr todos)) /\
                      POST E upstream now req
                      = match todos with
                        | [] => (json_response empty_analysis, [])
                        | _ =>
                            match todosText E todos with
                            | inl e => (on_error e, [])
                            | inr text =>
                                let call := analysis_call E now (field body k_timeframe) todos in
                                match upstream call with
                                | inl e => (on_error e, [call])
                                | inr responseText =>
                                    match parse_response E responseText with
                                    | inl e => (on_error e, [call])
                                    | inr analysis => (json_response analysis, [call])
                                    end
                                end
                            end
                        end).
Proof.
  destruct req as [e|body]; [left; eauto|]. right.
  destruct (destructure E body k_todos) as [e|todos] eqn:D.
  - left. exists body, e. split; [reflexivity|]. split; [exact D|].
    unfold POST, try_catch, attempt, bind, lift. rewrite D. reflexivity.
  - right.
    assert (C : (exists l, todos = Some (JArr l)) \/ forall l, todos <> Some (JArr l)).
    { destruct todos as [[ | b | d | s | l | m]|];
        try (right; intros l0; discriminate). left; eauto. }
    destruct C as [[l ->] | C].
    + right. exists body, l. split; [reflexivity|]. split; [exact D|].
      rewrite (AnalyzeFacts.POST_list E upstream now body l D).
      destruct l as [|t l]; [reflexivity|].
      destruct (todosText E (t :: l)) as [e|text] eqn:T; [reflexivity|].
      cbv zeta. unfold analysis_call, payload. rewrite T. reflexivity.
    + left. exists body, todos. split; [reflexivity|]. split; [exact D|].
      split; [exact C|]. apply (POST_not_list E upstream now body todos); assumption.
Qed.

End AnalysisRuns.

(** X9.  The analysis endpoint contacts the service at most once, and only
    for a list that is not empty and holds no null entry; the message is
    then the one made of the tasks and the time frame of the body. *)
Theorem analysis_contacts_service_for_tasks_only E upstream now req :
  snd (AnalyzeTodos.POST E upstream now req) = [] \/
  exists body todos,
    req = inr body /\
    destructure E body AnalyzeTodos.k_todos = inr (Some (JArr todos)) /\
    todos <> [] /\
    Forall (fun t => t <> JNull) todos /\
    snd (AnalyzeTodos.POST E upstream now req)
    = [analysis_call E now (field body AnalyzeTodos.k_timeframe) todos].
Proof.
  destruct (AnalysisRuns.POST_cases E upstream now req)
    as [[e [_ P]] | [[body [e [_ [_ P]]]] | [[body [todos [_ [_ [_ P]]]]]
        | [body [todos [R [D P]]]]]]];
    try (left; rewrite P; reflexivity).
  destruct todos as [|t l]; [left; rewrite P; reflexivity|].
  destruct (AnalyzeTodos.todosText E (t :: l)) as [e|text] eqn:T;
    [left; rewrite P; reflexivity|].
  right. exists body, (t :: l).
  split; [exact R|]. split; [exact D|]. split; [discriminate|].
  split; [eapply AnalysisRuns.todosText_non_null; eassumption|].
  rewrite P. cbv zeta.
  destruct (upstream _) as [e|responseText]; [reflexivity|].
  destruct (parse_response E responseText); reflexivity.
Qed.

(** X10.  The analysis endpoint answers with status 200, 400 or 500 and no
    other, a rate-limit failure of the service included; the status is 400
    exactly when the body was read and its [todos] is not a list. *)
Theorem analysis_statuses E upstream now req :
  In (status (fst (AnalyzeTodos.POST E upstream now req))) [200; 400; 500]%Z /\
  (status (fst (AnalyzeTodos.POST E upstream now req)) = 400%Z <->
   exists body todos,
     req = inr body /\
     destructure E body AnalyzeTodos.k_todos = inr todos /\
     forall l, todos <> Some (JArr l)).
Proof.
  destruct (AnalysisRuns.POST_cases E upstream now req)
    as [[e [R P]] | [[body [e [R [D P]]]] | [[body [todos [R [D [N P]]]]]
        | [body [todos [R [D P]]]]]]].
  - rewrite P. cbn [fst]. unfold AnalyzeTodos.on_error. cbn [status json_response_with].
    split; [cbn; auto|]. split; [discriminate|].
    intros [b [t [Q _]]]. congruence.
  - rewrite P. cbn [fst]. unfold AnalyzeTodos.on_error. cbn [status json_response_with].
    split; [cbn; auto|]. split; [discriminate|].
    intros [b [t [Q [D' _]]]]. congruence.
  - rewrite P. cbn [fst status json_response_with].
    split; [cbn; auto|]. split; [|reflexivity].
    intros _. exists body, todos. auto.
  - assert (S : status (fst (AnalyzeTodos.POST E upstream now req)) = 200%Z \/
                status (fst (AnalyzeTodos.POST E upstream now req)) = 500%Z).
    { rewrite P. destruct todos as [|t l]; [left; reflexivity|].
      destruct (AnalyzeTodos.todosText E (t :: l)); [right; reflexivity|].
      cbv zeta. destruct (upstream _); [right; reflexivity|].
      destruct (parse_response E _); [right | left]; reflexivity. }
    split; [cbn; destruct S as [-> | ->]; auto|].
    split; [destruct S as [S | S]; rewrite S; discriminate|].
    intros [b [t [Q [D' N]]]].
    assert (b = body) by congruence. subst b.
    rewrite D in D'. assert (t = Some (JArr todos)) by congruence. subst t.
    destruct (N todos eq_refl).
Qed.

(** X11.  A list with a null entry is answered with status 500, and the
    service is not contacted. *)
Theorem analysis_null_task_fails E upstream now body todos :
  destructure E body AnalyzeTodos.k_todos = inr (Some (JArr todos)) ->
  In JNull todos ->
  status (fst (AnalyzeTodos.POST E upstream now (inr body))) = 500%Z /\
  snd (AnalyzeTodos.POST E upstream now (inr body)) = [].
Proof.
  intros D I.
  rewrite (AnalyzeFacts.POST_list E upstream now body todos D).
  destruct todos as [|t l]; [destruct I|].
  destruct (AnalysisRuns.todosText_null E (t :: l) I) as [e ->].
  split; reflexivity.
Qed.

Lemma analysis_null_task_fails_witness :
  status (fst (AnalyzeTodos.POST Sample.engine (answering Examples.reply_empty)
                 Examples.now0
                 (inr (Examples.body_of_todos (Examples.tasks1 ++ [JNull])))))
  = 500%Z /\
  snd (AnalyzeTodos.POST Sample.engine (answering Examples.reply_empty)
         Examples.now0
         (inr (Examples.body_of_todos (Examples.tasks1 ++ [JNull]))))
  = [].
Proof.
  apply (analysis_null_task_fails Sample.engine (answering Examples.reply_empty)
           Examples.now0 (Examples.body_of_todos (Examples.tasks1 ++ [JNull]))
           (Examples.tasks1 ++ [JNull])).
  - reflexivity.
  - right. left. reflexivity.
Defined.

(** ** The session middleware *)

(** X12.  The middleware never redirects twice in a row: the path it
    redirects a request to is let through for the same session. *)
Theorem redirect_target_is_let_through (User : Type) (user : option User) pathname target :
  Middleware.updateSession user pathname = Middleware.Redirect target ->
  Middleware.updateSession user target = Middleware.Next.
Proof.
  unfold Middleware.updateSession. destruct user as [u|].
  - destruct (Middleware.isAuthRoute pathname); [|discriminate].
    intros H. inversion H; subst target. reflexivity.
  - destruct (Middleware.isProtectedRoute pathname); [|discriminate].
    intros H. inversion H; subst target. reflexivity.
Qed.

Lemma redirect_target_is_let_through_witness :
  Middleware.updateSession (@None unit) Middleware.path_root
  = Middleware.Redirect Middleware.path_login /\
  Middleware.updateSession (@None unit) Middleware.path_login = Middleware.Next.
Proof.
  assert (R : Middleware.updateSession (@None unit) Middleware.path_root
              = Middleware.Redirect Middleware.path_login) by reflexivity.
  split; [exact R|].
  exact (redirect_target_is_let_through unit None Middleware.path_root
           Middleware.path_login R).
Defined.

(** X13.  The middleware lets every path under /api/ through, signed in
    or not: it protects neither of the two endpoints. *)
Theorem api_paths_are_let_through (User : Type) (user : option User) rest :
  Middleware.updateSession user (Middleware.path_api ++ rest) = Middleware.Next.
Proof. destruct user; reflexivity. Qed.

(** ** Categories *)

Module CategoryFacts.
Import Category.

Lemma trim_fixed s : ends_clear s -> trim s = s.
Proof.
  intros [F L]. unfold trim.
  assert (D : drop_ws s = s).
  { destruct s as [|c s]; [reflexivity|]. cbn [drop_ws]. rewrite F. reflexivity. }
  rewrite D.
  destruct (rev s) as [|c r] eqn:R; [cbn; rewrite <- (rev_involutive s), R; reflexivity|].
  cbn [drop_ws]. rewrite L. rewrite <- R. apply rev_involutive.
Qed.

Lemma trim_trim s : trim (trim s) = trim s.
Proof. apply trim_fixed. exact (NormalizeFacts.trim_ends s). Qed.

Lemma drop_ws_suffix s x : In x (drop_ws s) -> In x s.
Proof.
  induction s as [|c s IH]; cbn [drop_ws]; [auto|].
  destruct (is_ws c); [intros H; right; auto | auto].
Qed.

Lemma trim_in s x : In x (trim s) -> In x s.
Proof.
  unfold trim. intros H. apply in_rev in H. apply drop_ws_suffix in H.
  apply in_rev in H. apply drop_ws_suffix in H. exact H.
Qed.

Lemma split_comma_not_nil s : split_comma s <> [].
Proof.
  destruct s as [|c s]; cbn [split_comma]; [discriminate|].
  destruct (c =? 44)%N; [discriminate|].
  destruct (split_comma s); discriminate.
Qed.

Lemma split_comma_free s : Forall (fun l => ~ In 44%N l) (split_comma s).
Proof.
  induction s as [|c s IH]; cbn [split_comma].
  - constructor; [intros []|constructor].
  - destruct (N.eqb_spec c 44).
    + constructor; [intros []|exact IH].
    + destruct (split_comma s) as [|h t].
      * constructor; [|constructor]. intros [H|[]]. congruence.
      * inversion IH; subst. constructor; [|assumption].
        intros [H|H]; [congruence | auto].
Qed.

Lemma labels_clean s : Forall clean (map trim (split_comma s)).
Proof.
  rewrite Forall_map. eapply Forall_impl; [|apply split_comma_free].
  intros l H. split; [apply trim_trim|].
  intros I. apply H. apply trim_in. exact I.
Qed.

(** Splitting: a label without a comma is one piece. *)
Lemma split_comma_one l : ~ In 44%N l -> split_comma l = [l].
Proof.
  induction l as [|c l IH]; intros H; [reflexivity|].
  cbn [split_comma].
  destruct (N.eqb_spec c 44) as [->|_]; [destruct H; left; reflexivity|].
  rewrite IH; [reflexivity|]. intros I. apply H. right. exact I.
Qed.

Lemma split_comma_app l rest :
  ~ In 44%N l -> split_comma (l ++ 44%N :: rest) = l :: split_comma rest.
Proof.
  induction l as [|c l IH]; intros H; [reflexivity|].
  cbn [app split_comma].
  destruct (N.eqb_spec c 44) as [->|_]; [destruct H; left; reflexivity|].
  rewrite IH; [reflexivity|]. intros I. apply H. right. exact I.
Qed.

Lemma trim_after_space l : trim (32%N :: l) = trim l.
Proof. reflexivity. Qed.

(** The pieces of a joined list: the first label, and every other label
    after a space. *)
Lemma split_join l labels :
  Forall (fun x => ~ In 44%N x) (l :: labels) ->
  split_comma (join comma_space (l :: labels))
  = l :: map (fun x => 32%N :: x) labels.
Proof.
  revert l. induction labels as [|l2 labels IH]; intros l H.
  - cbn [join map]. apply split_comma_one. inversion H; assumption.
  - inversion H as [|? ? Hl Hr]; subst.
    change (join comma_space (l :: l2 :: labels))
      with (l ++ 44%N :: 32%N :: join comma_space (l2 :: labels)).
    rewrite split_comma_app by assumption.
    cbn [split_comma]. change (32 =? 44)%N with false. cbv iota.
    rewrite IH by assumption. reflexivity.
Qed.

Lemma map_trim_clean labels :
  Forall clean labels -> map trim labels = labels.
Proof.
  induction 1 as [|l labels [T _] _ IH]; [reflexivity|].
  cbn [map]. rewrite T, IH. reflexivity.
Qed.

Lemma map_trim_spaced labels :
  Forall clean labels -> map trim (map (fun x => 32%N :: x) labels) = labels.
Proof.
  intros H. rewrite map_map. cbn beta.
  rewrite (map_ext _ trim) by (intros; apply trim_after_space).
  apply map_trim_clean. exact H.
Qed.

Lemma through_form l labels :
  Forall clean (l :: labels) ->
  map trim (split_comma (join comma_space (l :: labels))) = l :: labels.
Proof.
  intros H. rewrite split_join.
  - inversion H as [|? ? [T _] Hr]; subst. cbn [map]. rewrite T.
    rewrite map_trim_spaced by assumption. reflexivity.
  - eapply Forall_impl; [|exact H]. intros x [_ C]. exact C.
Qed.

Lemma join_nil_cases labels :
  join comma_space labels = [] -> labels = [] \/ labels = [[]].
Proof.
  destruct labels as [|l [|l2 r]]; cbn [join]; [auto | | ].
  - intros ->. auto.
  - intros H. apply app_eq_nil in H as [_ H]. discriminate.
Qed.

Lemma defaultValue_join labels :
  defaultValue (Some labels) = join comma_space labels.
Proof. unfold defaultValue. destruct (join comma_space labels); reflexivity. Qed.

End CategoryFacts.

(** X14.  The labels the handlers take from the category field are
    trimmed and hold no comma; the edit handler never writes an empty
    list, since the empty text splits into one empty label. *)
Theorem category_labels_are_clean category :
  Forall Category.clean (Category.added category) /\
  (forall labels, Category.edited category = Some labels ->
                  labels <> [] /\ Forall Category.clean labels).
Proof.
  split.
  - destruct category as [[|c s]|]; cbn [Category.added]; try constructor.
    apply CategoryFacts.labels_clean.
  - destruct category as [s|]; cbn [Category.edited]; [|discriminate].
    intros labels H. inversion H; subst labels. split.
    + pose proof (CategoryFacts.split_comma_not_nil s) as N.
      destruct (Category.split_comma s); [congruence | discriminate].
    + apply CategoryFacts.labels_clean.
Qed.

(** X15.  Stored labels shown in the form and submitted unchanged come
    back as they were, with two exceptions: editing a task without labels
    writes the list of one empty label, and adding with the single empty
    label gives the empty list. *)
Theorem category_round_trip labels :
  Forall Category.clean labels ->
  Category.edited (Some (Category.defaultValue (Some labels)))
  = Some (match labels with [] => [[]] | _ => labels end) /\
  Category.added (Some (Category.defaultValue (Some labels)))
  = match labels with [[]] => [] | _ => labels end.
Proof.
  intros H. rewrite CategoryFacts.defaultValue_join.
  destruct labels as [|l labels]; [split; reflexivity|].
  pose proof (CategoryFacts.through_form l labels H) as T.
  split.
  - cbn [Category.edited]. rewrite T. reflexivity.
  - unfold Category.added.
    destruct (Category.join Category.comma_space (l :: labels)) as [|c s] eqn:J.
    + destruct (CategoryFacts.join_nil_cases _ J) as [Q|Q]; [discriminate|].
      inversion Q; subst. reflexivity.
    + rewrite T. destruct l as [|c0 l0]; [|reflexivity].
      destruct labels; [discriminate J | reflexivity].
Qed.

Lemma category_round_trip_witness :
  Category.edited
    (Some (Category.defaultValue (Some [u16 "work"; u16 "urgent"])))
  = Some [u16 "work"; u16 "urgent"] /\
  Category.added
    (Some (Category.defaultValue (Some [u16 "work"; u16 "urgent"])))
  = [u16 "work"; u16 "urgent"].
Proof.
  apply (category_round_trip [u16 "work"; u16 "urgent"]).
  repeat constructor; try (vm_compute; reflexivity);
    vm_compute; intuition discriminate.
Defined.

(** ** The list page *)

Module PageFacts.
Import Page.

Lemma with_completed_same t : with_completed t (completed t) = t.
Proof. destruct t; reflexivity. Qed.

Lemma with_completed_fixed t b : with_completed t b = t -> completed t = b.
Proof. intros H. rewrite <- H. reflexivity. Qed.

Lemma toggled_fixed todos id0 b :
  toggled todos id0 b = todos <->
  Forall (fun t => id t = id0 -> completed t = b) todos.
Proof.
  unfold toggled. induction todos as [|t todos IH]; cbn [map].
  - split; [constructor | reflexivity].
  - split.
    + intros H. injection H as H1 H2. constructor.
      * intros Q.
        assert (Q' : str_eqb (id t) id0 = true) by (apply str_eqb_eq; exact Q).
        rewrite Q' in H1. apply with_completed_fixed. exact H1.
      * apply IH. exact H2.
    + intros H. inversion H as [|? ? Ht Hr]; subst. f_equal.
      * destruct (str_eqb (id t) id0) eqn:Q; [|reflexivity].
        apply str_eqb_eq in Q. rewrite <- (Ht Q). apply with_completed_same.
      * apply IH. exact Hr.
Qed.

Lemma toggled_others todos id0 b :
  filter (fun t => negb (str_eqb (id t) id0)) (toggled todos id0 b)
  = filter (fun t => negb (str_eqb (id t) id0)) todos.
Proof.
  unfold toggled. induction todos as [|t todos IH]; [reflexivity|].
  cbn [map filter]. destruct (str_eqb (id t) id0) eqn:Q.
  - cbn [with_completed id]. rewrite Q. cbn [negb]. exact IH.
  - rewrite Q. cbn [negb]. rewrite IH. reflexivity.
Qed.

Lemma toggled_ids todos id0 b : map id (toggled todos id0 b) = map id todos.
Proof.
  unfold toggled. rewrite map_map. apply map_ext.
  intros t. destruct (str_eqb (id t) id0); reflexivity.
Qed.

Lemma filter_twice {A} (f : A -> bool) l : filter f (filter f l) = filter f l.
Proof.
  induction l as [|x l IH]; [reflexivity|]. cbn [filter].
  destruct (f x) eqn:F; [cbn [filter]; rewrite F, IH|]; auto.
Qed.

Lemma includes_nil s : includes [] s = true.
Proof. destruct s; reflexivity. Qed.

Lemma minus_some x y v : minus x y = Some v -> exists a b, x = Some a /\ y = Some b /\ v = (a - b)%Z.
Proof.
  destruct x as [a|], y as [b|]; cbn; try discriminate.
  intros H. inversion H. eauto.
Qed.

(** A comparator that subtracts a time of each value is consistent
    exactly when every value has a time. *)
Lemma by_time_consistent {A} (time : A -> option Z) (S : list A) :
  consistent (fun a b => minus (time a) (time b)) S <->
  Forall (fun a => exists t, time a = Some t) S.
Proof.
  split.
  - intros C. apply Forall_forall. intros a I.
    destruct (C a a a I I I) as [_ [R _]].
    destruct (time a) as [t|]; [eauto | discriminate].
  - intros F a b c Ia Ib Ic. rewrite Forall_forall in F.
    destruct (F a Ia) as [ta Ta], (F b Ib) as [tb Tb], (F c Ic) as [tc Tc].
    rewrite Ta, Tb, Tc. cbn [minus].
    split; [eauto|]. split; [f_equal; lia|].
    split; [intros H; inversion H; f_equal; lia|].
    split; [intros H1 H2; inversion H1; inversion H2; f_equal; lia|].
    split; intros v w H1 H2 Lv Lw; inversion H1; inversion H2; subst;
      eexists; (split; [reflexivity | lia]).
Qed.

Lemma consistent_ext {A} (f g : A -> A -> option Z) S :
  (forall a b, In a S -> In b S -> f a b = g a b) ->
  consistent f S -> consistent g S.
Proof.
  intros X C a b c Ia Ib Ic.
  rewrite <- !X by assumption. apply C; assumption.
Qed.

Lemma compare_dueDate E lc a b :
  compare E lc by_dueDate a b =
  match due_date a with
  | Some (_ :: _) =>
      match due_date b with
      | Some (_ :: _) => minus (due_time_value E a) (due_time_value E b)
      | _ => Some (-1)%Z
      end
  | _ => Some 1%Z
  end.
Proof.
  unfold compare, due_time_value, getTime. cbn [str_eqb].
  change (str_eqb by_dueDate by_dueDate) with true. cbv iota.
  destruct (due_date a) as [[|x da]|]; try reflexivity.
  destruct (due_date b) as [[|y db]|]; reflexivity.
Qed.

End PageFacts.

(** X16.  A toggle that the data service answers with an error leaves the
    list as it was exactly when the toggle was a change: every task with
    the toggled id was in the opposite state.  A toggle to the state the
    task is already in is turned into its opposite by the rollback. *)
Theorem failed_toggle_restores_the_list todos id0 checked :
  Page.handleToggleTodo todos id0 checked Page.ReturnedError = todos <->
  Forall (fun t => Page.id t = id0 -> Page.completed t = negb checked) todos.
Proof. apply PageFacts.toggled_fixed. Qed.

(** X17.  However the request ends, toggling and deleting leave every
    task with another id as it was, in its place; toggling keeps the ids
    of the list, and a delete that went through leaves no task with the
    id. *)
Theorem handlers_leave_other_tasks todos id0 checked confirmed result :
  let others := filter (fun t => negb (str_eqb (Page.id t) id0)) in
  others (Page.handleToggleTodo todos id0 checked result) = others todos /\
  map Page.id (Page.handleToggleTodo todos id0 checked result) = map Page.id todos /\
  others (Page.handleDeleteTodo todos id0 confirmed result) = others todos /\
  Forall (fun t => Page.id t <> id0)
    (Page.handleDeleteTodo todos id0 true Page.Returned).
Proof.
  cbv zeta. split; [|split; [|split]].
  - destruct result; apply PageFacts.toggled_others.
  - destruct result; apply PageFacts.toggled_ids.
  - destruct confirmed, result; cbn [Page.handleDeleteTodo]; try reflexivity.
    apply PageFacts.filter_twice.
  - cbn [Page.handleDeleteTodo]. apply Forall_forall. intros t I.
    apply filter_In in I as [_ I]. apply negb_true_iff in I.
    intros Q. apply str_eqb_eq in Q. congruence.
Qed.

(** X18.  With an empty search text and the priority filter on all, the
    filter of the list keeps every task. *)
Theorem no_criteria_lists_every_task E todos :
  toLowerCase E [] = [] ->
  filter (Page.matches E [] Page.all) todos = todos.
Proof.
  intros L. induction todos as [|t todos IH]; [reflexivity|].
  cbn [filter]. unfold Page.matches at 1. rewrite L, PageFacts.includes_nil.
  cbn [orb andb]. change (str_eqb Page.all Page.all) with true. cbn [orb].
  rewrite IH. reflexivity.
Qed.

Lemma no_criteria_lists_every_task_witness :
  toLowerCase Sample.engine [] = [] /\
  filter (Page.matches Sample.engine [] Page.all) [Runs.todo_a; Runs.todo_b]
  = [Runs.todo_a; Runs.todo_b].
Proof.
  split; [reflexivity|].
  apply (no_criteria_lists_every_task Sample.engine [Runs.todo_a; Runs.todo_b]).
  reflexivity.
Defined.

(** X19.  The order by priority is a consistent comparator on every list,
    and it puts a task first exactly when its priority is higher. *)
Theorem priority_order_is_consistent E localeCompare todos :
  Page.consistent (Page.compare E localeCompare Page.by_priority) todos /\
  (forall a b, exists v,
      Page.compare E localeCompare Page.by_priority a b = Some v /\
      ((v < 0)%Z <->
       (Page.priorityScore (Page.priority b) < Page.priorityScore (Page.priority a))%Z)).
Proof.
  assert (C : forall a b,
             Page.compare E localeCompare Page.by_priority a b
             = Some (Page.priorityScore (Page.priority b)
                     - Page.priorityScore (Page.priority a))%Z)
    by reflexivity.
  split.
  - intros a b c _ _ _. rewrite !C.
    split; [eauto|]. split; [f_equal; lia|].
    split; [intros H; inversion H; f_equal; lia|].
    split; [intros H1 H2; inversion H1; inversion H2; f_equal; lia|].
    split; intros v w H1 H2 Lv Lw; inversion H1; inversion H2; subst;
      eexists; (split; [reflexivity | lia]).
  - intros a b. eexists. split; [apply C | lia].
Qed.

(** X20.  The order by due date is a consistent comparator for a list
    exactly when every task of the list has a due date that the engine
    can read: a task without a due date compares greater than every task,
    itself included. *)
Theorem due_date_order_is_consistent_iff E localeCompare todos :
  Page.consistent (Page.compare E localeCompare Page.by_dueDate) todos <->
  Forall (fun t => exists time, Page.due_time_value E t = Some time) todos.
Proof.
  split.
  - intros C. apply Forall_forall. intros a I.
    destruct (C a a a I I I) as [_ [R _]].
    rewrite PageFacts.compare_dueDate in R. unfold Page.due_time_value in *.
    destruct (Page.due_date a) as [[|x da]|]; try discriminate.
    destruct (Date_parse E (x :: da)) as [t|]; [eauto | discriminate].
  - intros F.
    apply (PageFacts.consistent_ext
             (fun a b => Page.minus (Page.due_time_value E a) (Page.due_time_value E b))).
    + intros a b Ia Ib. rewrite PageFacts.compare_dueDate.
      rewrite Forall_forall in F.
      destruct (F a Ia) as [ta Ta], (F b Ib) as [tb Tb].
      unfold Page.due_time_value in Ta, Tb.
      destruct (Page.due_date a) as [[|x da]|]; try discriminate.
      destruct (Page.due_date b) as [[|y db]|]; try discriminate.
      reflexivity.
    + apply PageFacts.by_time_consistent. exact F.
Qed.

(** X21.  The default order, by creation time, is a consistent comparator
    for a list exactly when the engine can read the creation time of every
    task. *)
Theorem created_order_is_consistent_iff E localeCompare todos :
  Page.consistent (Page.compare E localeCompare Page.by_created) todos <->
  Forall (fun t => exists time, Page.getTime E (Page.created_at t) = Some time) todos.
Proof.
  rewrite <- (PageFacts.by_time_consistent (fun t => Page.getTime E (Page.created_at t))).
  assert (C : forall a b,
             Page.compare E localeCompare Page.by_created a b
             = Page.minus (Page.getTime E (Page.created_at b))
                 (Page.getTime E (Page.created_at a)))
    by reflexivity.
  split; intros H a b c Ia Ib Ic.
  - destruct (H c b a Ic Ib Ia) as [H1 [H2 [H3 [H4 [H5 H6]]]]].
    destruct (H a b c Ia Ib Ic) as [G1 [G2 [G3 [G4 [G5 G6]]]]].
    destruct (H b a c Ib Ia Ic) as [K1 _].
    rewrite !C in *.
    split; [exact K1|]. split; [exact G2|].
    destruct (H b a a Ib Ia Ia) as [_ [_ [S3 _]]]. rewrite !C in S3.
    split; [exact S3|].
    split; [intros P Q; apply (H4 Q P)|].
    split; intros v w P Q Lv Lw.
    + apply (H5 w v Q P Lw Lv).
    + apply (H6 w v Q P Lw Lv).
  - destruct (H c b a Ic Ib Ia) as [H1 [H2 [H3 [H4 [H5 H6]]]]].
    destruct (H a b c Ia Ib Ic) as [G1 [G2 [G3 [G4 [G5 G6]]]]].
    destruct (H b a c Ib Ia Ic) as [K1 _].
    destruct (H b a a Ib Ia Ia) as [_ [_ [S3 _]]].
    rewrite !C.
    split; [exact K1|]. split; [exact G2|].
    split; [exact S3|].
    split; [intros P Q; apply (H4 Q P)|].
    split; intros v w P Q Lv Lw.
    + apply (H5 w v Q P Lw Lv).
    + apply (H6 w v Q P Lw Lv).
Qed.

(** ** The components that call the endpoints *)

Module ClientFacts.

Lemma on_error_failure e : failure (GenerateTodo.on_error e).
Proof.
  unfold failure. pose proof (ExtractionFacts.on_error_not_200 e) as N.
  rewrite on_error_response in *. cbn [status body json_response_with] in *.
  assert (M : exists c m, message_of_error e = c :: m).
  { unfold message_of_error.
    destruct (includes (u16 "429") (err_message e)); [do 2 eexists; reflexivity|].
    destruct (_ || _); do 2 eexists; reflexivity. }
  destruct M as [c [m ->]]. exists c, m. eexists.
  split; [exact N|]. split; [reflexivity|]. right. eexists. reflexivity.
Qed.

Lemma refusal_failure message :
  message <> [] -> failure (GenerateTodo.error_response message 400).
Proof.
  destruct message as [|c m]; [congruence|]. intros _.
  exists c, m, []. split; [discriminate|]. split; [reflexivity | left; reflexivity].
Qed.

(** A failure response reaches the component as the endpoint built it,
    with its text under [error]. *)
Lemma failure_read E server r :
  failure r ->
  received server r = Some (body r) /\
  exists c m, get_prop E (body r) GenerateTodo.k_error = inr (Some (JStr (c :: m))).
Proof.
  intros [c [m [rest [_ [B R]]]]]. split.
  - apply RoundTripFacts.received_numberless. rewrite B.
    destruct R as [-> | [d ->]];
      (apply RoundTripFacts.numberless_object; split;
       [reflexivity | repeat constructor]).
  - exists c, m. rewrite B. reflexivity.
Qed.

(** An answer of the analysis endpoint with another status than 200 is
    a failure response. *)
Lemma analysis_failure E upstream now req :
  status (fst (AnalyzeTodos.POST E upstream now req)) <> 200%Z ->
  failure (fst (AnalyzeTodos.POST E upstream now req)).
Proof.
  assert (F : forall e, failure (AnalyzeTodos.on_error e)).
  { intros e. do 3 eexists. split; [discriminate|]. split; [reflexivity|].
    right. eexists. reflexivity. }
  destruct (AnalysisRuns.POST_cases E upstream now req)
    as [[e [_ P]] | [[body [e [_ [_ P]]]] | [[body [todos [_ [_ [_ P]]]]]
        | [body [todos [_ [_ P]]]]]]]; rewrite P; cbn [fst].
  - intros _. apply F.
  - intros _. apply F.
  - intros _. do 3 eexists. split; [discriminate|]. split; [reflexivity|].
    left. reflexivity.
  - destruct todos as [|t l]; [intros S; cbn in S; congruence|].
    destruct (AnalyzeTodos.todosText E (t :: l)); [intros _; apply F|].
    cbv zeta. destruct (upstream _); [intros _; apply F|].
    destruct (parse_response E _); [intros _; apply F|].
    intros S. cbn in S. congruence.
Qed.

(** Every answer of the extraction endpoint is a failure response or
    the post-processed value under [todo]. *)
Lemma POST_answers E upstream now req :
  failure (fst (GenerateTodo.POST E upstream now req)) \/
  exists raw todo todo',
    (2 <= js_length (normalize raw) <= 500)%Z /\
    GenerateTodo.postprocess E now (normalize raw) todo = inr todo' /\
    GenerateTodo.POST E upstream now req
    = (json_response (JObj [(GenerateTodo.k_todo, todo')]),
       [extraction_call E now raw]).
Proof.
  unfold GenerateTodo.POST, try_catch, GenerateTodo.attempt, bind, lift, ret.
  destruct req as [e|b]; [left; apply on_error_failure|].
  destruct (destructure E b GenerateTodo.k_prompt) as [e|prompt];
    [left; apply on_error_failure|].
  destruct prompt as [[ | b0 | d | raw | l | m]|];
    try (left; apply refusal_failure; discriminate).
  destruct raw as [|c raw]; [left; apply refusal_failure; discriminate|].
  destruct (Z.ltb_spec (js_length (normalize (c :: raw))) 2);
    [left; apply refusal_failure; discriminate|].
  destruct (Z.ltb_spec 500 (js_length (normalize (c :: raw))));
    [left; apply refusal_failure; discriminate|].
  unfold sendMessage. fold (extraction_call E now (c :: raw)).
  destruct (upstream _) as [e|text]; [left; apply on_error_failure|].
  destruct (parse_response E text) as [e|todo]; [left; apply on_error_failure|].
  destruct (GenerateTodo.postprocess E now (normalize (c :: raw)) todo)
    as [e|todo'] eqn:P; [left; apply on_error_failure|].
  right. exists (c :: raw), todo, todo'.
  split; [lia|]. split; [exact P | reflexivity].
Qed.

(** What post-processing returns is an object or an array. *)
Lemma postprocess_returns E now prompt todo todo' :
  GenerateTodo.postprocess E now prompt todo = inr todo' ->
  (exists o o', todo = JObj o /\ todo' = JObj o') \/
  (exists l, todo = JArr l /\ todo' = JArr l).
Proof.
  destruct todo as [ | b | d | s | l | m];
    try (unfold GenerateTodo.postprocess, GenerateTodo.adjust_title; cbn; discriminate).
  - unfold GenerateTodo.postprocess, GenerateTodo.adjust_title,
      GenerateTodo.default_priority, GenerateTodo.correct_due_date.
    cbn. intros H. inversion H. right. eauto.
  - intros H. left. exists m.
    unfold GenerateTodo.postprocess in H.
    destruct (GenerateTodo.adjust_title E prompt (JObj m)) as [e|t1] eqn:A;
      [discriminate|].
    destruct (GenerateFacts.adjust_title_frame E prompt m t1 A) as [o1 [-> _]].
    cbn [bindR] in H. rewrite GenerateFacts.default_priority_object in H.
    cbn [bindR] in H.
    destruct (ExtractionFacts.correct_due_date_returns E now _ _ H) as [o3 [-> _]].
    eauto.
Qed.

End ClientFacts.

Module FormFacts.
Import AiForm.

Lemma then_check {A B} (r : js_result A) (k : A -> F B) f :
  then_ (check r) k f = match r with inr a => k a f | inl e => (inl e, f) end.
Proof. destruct r; reflexivity. Qed.

Lemma then_set {B} set (k : unit -> F B) f :
  then_ (setValue set) k f = k tt (set f).
Proof. reflexivity. Qed.

Lemma then_pure {A B} (a : A) (k : A -> F B) f : then_ (pure a) k f = k a f.
Proof. reflexivity. Qed.

Lemma get_prop_field E todo k :
  todo <> JNull -> get_prop E todo k = inr (field todo k).
Proof. destruct todo; intros H; try reflexivity. congruence. Qed.

Lemma priorityValue_in E p v :
  TodoForm.priorityValue E p = inr v -> In v priorities.
Proof.
  unfold TodoForm.priorityValue.
  destruct (falsy p); [intros H; inversion H; cbn; auto|].
  destruct (defined p); try discriminate.
  fold priorities. intros H.
  pose proof (recognized_priority (toLowerCase E s)) as R.
  destruct (existsb (str_eqb (toLowerCase E s)) priorities);
    inversion H; subst v; exact R.
Qed.

Ltac read_step N :=
  rewrite then_check, get_prop_field by exact N; cbv beta iota.

Lemma fill_done E ToString aiPrompt todo form form' :
  todo <> JNull ->
  fill E ToString aiPrompt (Some todo) form = (inr tt, form') ->
  filled E aiPrompt todo form form'.
Proof.
  intros N. unfold fill, read. cbn [defined].
  read_step N. rewrite then_set. read_step N. rewrite then_check.
  match goal with
  | |- match ?x with inl _ => _ | inr _ => _ end = _ -> _ => set (dv := x)
  end.
  assert (D : (exists rest, dv = inr (aiPrompt ++ rest)) \/ exists e, dv = inl e).
  { subst dv. destruct (falsy _).
    - left. exists []. rewrite app_nil_r. reflexivity.
    - destruct (text_of ToString _) as [e|text]; cbn [bindR].
      + right. eauto.
      + left. eexists. reflexivity. }
  clearbody dv.
  destruct D as [[rest D] | [e D]]; rewrite D; [|discriminate].
  rewrite then_set. read_step N. rewrite then_check.
  destruct (TodoForm.priorityValue E (field todo GenerateTodo.k_priority))
    as [e|p] eqn:P; [discriminate|].
  apply priorityValue_in in P.
  rewrite then_set. read_step N.
  set (f1 := set_priority _ _).
  assert (F1 : title f1 = field todo GenerateTodo.k_title /\
               description f1 = Some (JStr (aiPrompt ++ rest)) /\
               priority f1 = Some (JStr p) /\
               due_date f1 = due_date form /\ due_time f1 = due_time form)
    by (repeat split).
  clearbody f1.
  match goal with
  | |- then_ ?c _ f1 = _ -> _ => set (cat := c)
  end.
  assert (C : exists f2,
             (title f2 = title f1 /\ description f2 = description f1 /\
              priority f2 = priority f1 /\ due_date f2 = due_date f1 /\
              due_time f2 = due_time f1) /\
             (cat f1 = (inr tt, f2) \/ exists e, cat f1 = (inl e, f2))).
  { subst cat.
    destruct (field todo k_category) as [[ | b | n | s | xs | m]|];
      try (exists f1; split; [repeat split | left; reflexivity]).
    rewrite then_check.
    destruct (join_elements ToString xs) as [e|text].
    - exists f1. split; [repeat split | right; eauto].
    - eexists. split; [|left; reflexivity]. repeat split. }
  clearbody cat.
  destruct C as [f2 [F2 C]].
  unfold then_ at 1.
  destruct C as [C | [e C]]; rewrite C; [|discriminate].
  destruct F1 as [T1 [D1 [P1 [Dd1 Dt1]]]].
  destruct F2 as [T2 [D2 [P2 [Dd2 Dt2]]]].
  rewrite <- T2 in T1. rewrite <- D2 in D1. rewrite <- P2 in P1.
  rewrite <- Dd2 in Dd1. rewrite <- Dt2 in Dt1.
  clear C T2 D2 P2 Dd2 Dt2 f1.
  read_step N.
  destruct (field todo GenerateTodo.k_due_date) as [due|] eqn:Du;
    cbn [falsy defined].
  2:{ intros H. inversion H; subst form'. unfold filled. rewrite Du. repeat split; eauto. }
  destruct (truthy due) eqn:Tr; cbn [negb].
  2:{ intros H. inversion H; subst form'. unfold filled. rewrite Du. repeat split; eauto. }
  rewrite then_check.
  destruct (new_Date E due) as [e|[time|]] eqn:Nd; [discriminate | |].
  2:{ intros H. inversion H; subst form'. unfold filled. rewrite Du. repeat split; eauto. }
  rewrite then_set. read_step N.
  destruct (falsy (field todo k_due_time)) eqn:Ft.
  - intros H. inversion H; subst form'. unfold filled. rewrite Du. cbn.
    repeat split; eauto. right. exists due, time, (JStr nine).
    repeat split; auto.
  - intros H. inversion H; subst form'. unfold filled. rewrite Du. cbn.
    repeat split; eauto. right.
    destruct (field todo k_due_time) as [t|]; [|discriminate].
    cbn in Ft. apply negb_false_iff in Ft.
    exists due, time, t. repeat split; auto.
Qed.

(** A fill that threw nothing read a value that is not null. *)
Lemma fill_read E ToString aiPrompt todo form form' :
  fill E ToString aiPrompt todo form = (inr tt, form') ->
  exists t, todo = Some t /\ t <> JNull /\ filled E aiPrompt t form form'.
Proof.
  intros H.
  assert (N : exists t, todo = Some t /\ t <> JNull).
  { destruct todo as [[ | b | d | s | l | m]|];
      try (eexists; split; [reflexivity | discriminate]);
      discriminate H. }
  destruct N as [t [-> N]]. exists t. split; [reflexivity|]. split; [exact N|].
  exact (fill_done E ToString aiPrompt t form form' N H).
Qed.

Lemma success_data E todo :
  get_prop E (JObj [(GenerateTodo.k_todo, todo)]) GenerateTodo.k_error = inr None /\
  destructure E (JObj [(GenerateTodo.k_todo, todo)]) GenerateTodo.k_todo
  = inr (Some todo).
Proof. split; reflexivity. Qed.

Lemma destructure_field E data k t :
  destructure E data k = inr (Some t) -> field data k = Some t.
Proof. destruct data; cbn; intros H; try discriminate; congruence. Qed.

(** A run of the handler that ends without an alert has filled the form
    from what it read of a success answer. *)
Lemma handled E ToString server upstream now aiPrompt form form' log :
  handleAiGenerate E ToString server upstream now aiPrompt form
  = (form', None, log) ->
  trim aiPrompt <> [] ->
  exists raw todo todo' data t,
    (2 <= js_length (normalize raw) <= 500)%Z /\
    GenerateTodo.postprocess server now (normalize raw) todo = inr todo' /\
    fst (GenerateTodo.POST server upstream now
           (inr (JObj [(GenerateTodo.k_prompt, JStr aiPrompt)])))
    = json_response (JObj [(GenerateTodo.k_todo, todo')]) /\
    received server (json_response (JObj [(GenerateTodo.k_todo, todo')]))
    = Some data /\
    field data GenerateTodo.k_todo = Some t /\
    filled E aiPrompt t form form'.
Proof.
  intros H B. unfold handleAiGenerate in H.
  destruct (trim aiPrompt) as [|c0 r0]; [congruence|].
  destruct (ClientFacts.POST_answers server upstream now
              (inr (JObj [(GenerateTodo.k_prompt, JStr aiPrompt)])))
    as [Fl | [raw [todo [todo' [L [P Q]]]]]].
  - destruct (GenerateTodo.POST server upstream now _) as [r lg]. cbn [fst] in Fl.
    destruct (ClientFacts.failure_read E server r Fl) as [R [c [m G]]].
    rewrite R, G in H. discriminate H.
  - rewrite Q in *. cbn [fst]. exists raw, todo, todo'.
    destruct (received server (json_response (JObj [(GenerateTodo.k_todo, todo')])))
      as [data|]; [|discriminate H].
    destruct (get_prop E data GenerateTodo.k_error) as [e|error]; [discriminate H|].
    destruct (falsy error); [|discriminate H].
    destruct (destructure E data GenerateTodo.k_todo) as [e|t0] eqn:D;
      [discriminate H|].
    destruct (fill E ToString aiPrompt t0 form) as [[e|[]] f] eqn:Fl;
      [discriminate H|].
    inversion H; subst f log.
    destruct (fill_read E ToString aiPrompt t0 form form' Fl) as [t [-> [_ Fd]]].
    exists data, t. split; [exact L|]. split; [exact P|]. split; [reflexivity|].
    split; [reflexivity|]. split; [exact (destructure_field E data _ t D) | exact Fd].
Qed.

(** The same run, for an answer without numbers: the form reads the
    value the endpoint handed over. *)
Lemma handled_numberless E ToString server upstream now aiPrompt form form' log :
  handleAiGenerate E ToString server upstream now aiPrompt form
  = (form', None, log) ->
  trim aiPrompt <> [] ->
  RoundTrip.numberless
    (body (fst (GenerateTodo.POST server upstream now
                  (inr (JObj [(GenerateTodo.k_prompt, JStr aiPrompt)]))))) ->
  exists raw todo todo',
    (2 <= js_length (normalize raw) <= 500)%Z /\
    GenerateTodo.postprocess server now (normalize raw) todo = inr todo' /\
    filled E aiPrompt todo' form form'.
Proof.
  intros H B N.
  destruct (handled E ToString server upstream now aiPrompt form form' log H B)
    as [raw [todo [todo' [data [t [L [P [Q [R [Fd Fl]]]]]]]]]].
  rewrite Q in N.
  rewrite (RoundTripFacts.received_numberless server _ N) in R.
  cbn [body json_response] in R.
  assert (Qd : data = JObj [(GenerateTodo.k_todo, todo')]) by congruence. subst data.
  assert (Qt : t = todo') by (cbn in Fd; congruence). subst t.
  exists raw, todo, todo'. split; [exact L|]. split; [exact P | exact Fl].
Qed.

End FormFacts.

(** X22.  When the analysis endpoint answers with a status other than 200,
    the panel keeps the result it showed: the body of such an answer is
    never taken for an analysis. *)
Theorem panel_keeps_result_on_failure
    E server upstream now targetTodos activeTab result :
  targetTodos <> [] ->
  status (fst (AnalyzeTodos.POST server upstream now
                 (inr (TodoAnalysis.request_body targetTodos activeTab)))) <> 200%Z ->
  TodoAnalysis.handleAnalyze E server upstream now targetTodos activeTab result
  = (result,
     snd (AnalyzeTodos.POST server upstream now
            (inr (TodoAnalysis.request_body targetTodos activeTab)))).
Proof.
  intros N S. unfold TodoAnalysis.handleAnalyze.
  destruct targetTodos as [|t l]; [congruence|].
  pose proof (ClientFacts.analysis_failure server upstream now _ S) as Fl.
  destruct (AnalyzeTodos.POST server upstream now _) as [r lg]. cbn [fst snd] in *.
  destruct (ClientFacts.failure_read E server r Fl) as [R [c [m G]]].
  rewrite R. change AnalyzeTodos.k_error with GenerateTodo.k_error.
  rewrite G. reflexivity.
Qed.

Lemma panel_keeps_result_on_failure_witness :
  TodoAnalysis.handleAnalyze Sample.engine Sample.engine
    (failing Examples.server_error)
    Examples.now0 Examples.tasks1 AnalyzeTodos.today None
  = (None,
     snd (AnalyzeTodos.POST Sample.engine (failing Examples.server_error)
            Examples.now0
            (inr (TodoAnalysis.request_body Examples.tasks1 AnalyzeTodos.today)))).
Proof.
  apply (panel_keeps_result_on_failure Sample.engine Sample.engine
           (failing Examples.server_error)
           Examples.now0 Examples.tasks1 AnalyzeTodos.today None).
  - discriminate.
  - vm_compute. discriminate.
Defined.

(** X23.  When the extraction endpoint answers with a status other than
    200, refusals of the prompt included, the form keeps its values and the
    failure alert is shown. *)
Theorem form_is_untouched_on_failure E ToString server upstream now aiPrompt form :
  trim aiPrompt <> [] ->
  status (fst (GenerateTodo.POST server upstream now
                 (inr (JObj [(GenerateTodo.k_prompt, JStr aiPrompt)])))) <> 200%Z ->
  AiForm.handleAiGenerate E ToString server upstream now aiPrompt form
  = (form, Some AiForm.alert_failed,
     snd (GenerateTodo.POST server upstream now
            (inr (JObj [(GenerateTodo.k_prompt, JStr aiPrompt)])))).
Proof.
  intros B S. unfold AiForm.handleAiGenerate.
  destruct (trim aiPrompt) as [|c0 r0]; [congruence|].
  destruct (ClientFacts.POST_answers server upstream now
              (inr (JObj [(GenerateTodo.k_prompt, JStr aiPrompt)])))
    as [Fl | [raw [todo [todo' [_ [_ P]]]]]].
  - destruct (GenerateTodo.POST server upstream now _) as [r log]. cbn [fst snd] in *.
    destruct (ClientFacts.failure_read E server r Fl) as [R [c [m G]]].
    rewrite R, G. reflexivity.
  - rewrite P in S. cbn in S. congruence.
Qed.

Lemma form_is_untouched_on_failure_witness :
  AiForm.handleAiGenerate Sample.engine Runs.no_conversion Sample.engine
    (failing Examples.server_error) Examples.now0 Examples.raw_report
    Runs.blank_form
  = (Runs.blank_form, Some AiForm.alert_failed,
     snd (GenerateTodo.POST Sample.engine (failing Examples.server_error)
            Examples.now0
            (inr (JObj [(GenerateTodo.k_prompt, JStr Examples.raw_report)])))).
Proof.
  apply (form_is_untouched_on_failure Sample.engine Runs.no_conversion Sample.engine
           (failing Examples.server_error) Examples.now0 Examples.raw_report
           Runs.blank_form).
  - vm_compute. discriminate.
  - vm_compute. discriminate.
Defined.

(** X24.  When the handler of the form ends without an alert, the form is
    filled from what it read of a success answer, printed by the endpoint
    and read back: the priority is one of high, medium and low, the
    description begins with the prompt as typed, a due date is set
    together with a truthy due time, and the title is the one read.  When
    the answered value holds no number, the form read that very value, and
    the title is truthy and of at most 50 code units when it is a string,
    or undefined when the answer is an array. *)
Theorem filled_form_is_valid E ToString server upstream now aiPrompt form form' log :
  AiForm.handleAiGenerate E ToString server upstream now aiPrompt form
  = (form', None, log) ->
  trim aiPrompt <> [] ->
  exists todo data t,
    fst (GenerateTodo.POST server upstream now
           (inr (JObj [(GenerateTodo.k_prompt, JStr aiPrompt)])))
    = json_response (JObj [(GenerateTodo.k_todo, todo)]) /\
    received server
      (fst (GenerateTodo.POST server upstream now
              (inr (JObj [(GenerateTodo.k_prompt, JStr aiPrompt)]))))
    = Some data /\
    field data GenerateTodo.k_todo = Some t /\
    AiForm.filled E aiPrompt t form form' /\
    (RoundTrip.numberless todo ->
     t = todo /\
     (AiForm.title form' = None \/
      exists x, AiForm.title form' = Some x /\ truthy x = true /\
                forall s, x = JStr s -> (1 <= js_length s <= 50)%Z)).
Proof.
  intros H B.
  destruct (FormFacts.handled E ToString server upstream now aiPrompt form form' log H B)
    as [raw [todo [todo' [data [t [L [P [Q [R [Fd Fl]]]]]]]]]].
  exists todo', data, t. rewrite Q.
  split; [reflexivity|]. split; [exact R|]. split; [exact Fd|]. split; [exact Fl|].
  intros N.
  assert (Nb : RoundTrip.numberless (JObj [(GenerateTodo.k_todo, todo')])).
  { apply RoundTripFacts.numberless_object. split; [reflexivity|].
    constructor; [exact N | constructor]. }
  rewrite (RoundTripFacts.received_numberless server
             (json_response (JObj [(GenerateTodo.k_todo, todo')])) Nb) in R.
  cbn [body json_response] in R.
  assert (Qd : data = JObj [(GenerateTodo.k_todo, todo')]) by congruence. subst data.
  assert (Qt : t = todo') by (cbn in Fd; congruence). subst t.
  split; [reflexivity|].
  destruct Fl as [T _]. rewrite T.
  destruct (ClientFacts.postprocess_returns server now _ _ _ P)
    as [[o [o' [-> ->]]] | [l [_ ->]]]; [|left; reflexivity].
  right. cbn [field].
  destruct (ExtractionFacts.postprocess_fields server now _ o o' (proj1 L) P) as [X _].
  exact X.
Qed.

Lemma filled_form_is_valid_witness :
  exists todo data t,
    fst (GenerateTodo.POST Sample.engine (answering Examples.reply_past)
           Examples.now0
           (inr (JObj [(GenerateTodo.k_prompt, JStr Examples.raw_report)])))
    = json_response (JObj [(GenerateTodo.k_todo, todo)]) /\
    received Sample.engine
      (fst (GenerateTodo.POST Sample.engine (answering Examples.reply_past)
              Examples.now0
              (inr (JObj [(GenerateTodo.k_prompt, JStr Examples.raw_report)]))))
    = Some data /\
    field data GenerateTodo.k_todo = Some t /\
    AiForm.filled Sample.engine Examples.raw_report t Runs.blank_form
      Runs.form_past /\
    (RoundTrip.numberless todo ->
     t = todo /\
     (AiForm.title Runs.form_past = None \/
      exists x, AiForm.title Runs.form_past = Some x /\ truthy x = true /\
                forall s, x = JStr s -> (1 <= js_length s <= 50)%Z)).
Proof.
  apply (filled_form_is_valid Sample.engine Runs.no_conversion Sample.engine
           (answering Examples.reply_past) Examples.now0 Examples.raw_report
           Runs.blank_form Runs.form_past
           [extraction_call Sample.engine Examples.now0 Examples.raw_report]).
  - vm_compute. reflexivity.
  - vm_compute. discriminate.
Defined.

(** X25.  When the task the form reads from the answer has a priority
    that is truthy and not a string, the handler stops there: the title
    and the description are already set, every other value is as it was,
    and the error alert is shown. *)
Theorem fill_stops_at_a_priority_that_is_no_text
    E ToString server upstream now aiPrompt form o p :
  trim aiPrompt <> [] ->
  received server
    (fst (GenerateTodo.POST server upstream now
            (inr (JObj [(GenerateTodo.k_prompt, JStr aiPrompt)]))))
  = Some (JObj [(GenerateTodo.k_todo, JObj o)]) ->
  obj_get GenerateTodo.k_priority o = Some p ->
  truthy p = true ->
  (forall s, p <> JStr s) ->
  (forall d, obj_get GenerateTodo.k_description o = Some d -> truthy d = true ->
             exists s, d = JStr s) ->
  exists rest,
    AiForm.handleAiGenerate E ToString server upstream now aiPrompt form
    = (AiForm.set_description (Some (JStr (aiPrompt ++ rest)))
         (AiForm.set_title (obj_get GenerateTodo.k_title o) form),
       Some AiForm.alert_error,
       snd (GenerateTodo.POST server upstream now
              (inr (JObj [(GenerateTodo.k_prompt, JStr aiPrompt)])))).
Proof.
  intros B R P T NS D. unfold AiForm.handleAiGenerate.
  destruct (trim aiPrompt) as [|c0 r0]; [congruence|].
  destruct (GenerateTodo.POST server upstream now _) as [r log]. cbn [fst snd] in *.
  rewrite R.
  destruct (FormFacts.success_data E (JObj o)) as [G Ds]. rewrite G, Ds.
  cbn [falsy].
  assert (N : JObj o <> JNull) by discriminate.
  unfold AiForm.fill, AiForm.read. cbn [defined].
  FormFacts.read_step N. rewrite FormFacts.then_set. FormFacts.read_step N.
  rewrite FormFacts.then_check.
  cbn [field].
  match goal with
  | |- context [match ?x with inl _ => _ | inr _ => _ end] => set (dv := x)
  end.
  assert (Dv : exists rest, dv = inr (aiPrompt ++ rest)).
  { subst dv. destruct (obj_get GenerateTodo.k_description o) as [d|] eqn:Dd;
      cbn [falsy defined].
    - destruct (truthy d) eqn:Td; cbn [negb].
      + destruct (D d eq_refl Td) as [s ->]. cbn [AiForm.text_of bindR]. eauto.
      + exists []. rewrite app_nil_r. reflexivity.
    - exists []. rewrite app_nil_r. reflexivity. }
  destruct Dv as [rest Dv]. rewrite Dv. clear Dv dv.
  rewrite FormFacts.then_set. FormFacts.read_step N. rewrite FormFacts.then_check.
  cbn [field]. rewrite P.
  assert (Pv : exists e, TodoForm.priorityValue E (Some p) = inl e).
  { unfold TodoForm.priorityValue. cbn [falsy defined]. rewrite T. cbn [negb].
    destruct p; try (eexists; reflexivity). destruct (NS s eq_refl). }
  destruct Pv as [e ->]. exists rest. reflexivity.
Qed.

Lemma fill_stops_at_a_priority_that_is_no_text_witness :
  exists rest,
    AiForm.handleAiGenerate Sample.engine Runs.no_conversion Sample.engine
      (answering Runs.reply_flag) Examples.now0 Examples.raw_report
      Runs.blank_form
    = (AiForm.set_description (Some (JStr (Examples.raw_report ++ rest)))
         (AiForm.set_title (obj_get GenerateTodo.k_title Runs.read_flag)
            Runs.blank_form),
       Some AiForm.alert_error,
       snd (GenerateTodo.POST Sample.engine (answering Runs.reply_flag)
              Examples.now0
              (inr (JObj [(GenerateTodo.k_prompt, JStr Examples.raw_report)])))).
Proof.
  apply (fill_stops_at_a_priority_that_is_no_text Sample.engine Runs.no_conversion
           Sample.engine (answering Runs.reply_flag) Examples.now0
           Examples.raw_report Runs.blank_form Runs.read_flag (JBool true)).
  - vm_compute. discriminate.
  - vm_compute. reflexivity.
  - vm_compute. reflexivity.
  - reflexivity.
  - intros s. discriminate.
  - intros d H. vm_compute in H. discriminate.
Defined.

(** X29.  End to end, a due date that the handler of the form sets never
    lies before the day of the request: when the handler ends without an
    alert on an answer that holds no number, the due date of the form is
    the one it had, or a date on the UTC day of the request or later (for
    engines of the browser and of the endpoint that make the same dates of
    the same values). *)
Theorem form_due_date_is_not_past
    E ToString server upstream now aiPrompt form form' log :
  Calendar.four_digit_year now ->
  (forall d, new_Date server d = new_Date E d) ->
  RoundTrip.numberless
    (body (fst (GenerateTodo.POST server upstream now
                  (inr (JObj [(GenerateTodo.k_prompt, JStr aiPrompt)]))))) ->
  AiForm.handleAiGenerate E ToString server upstream now aiPrompt form
  = (form', None, log) ->
  trim aiPrompt <> [] ->
  AiForm.due_date form' = AiForm.due_date form \/
  exists time,
    AiForm.due_date form' = Some time /\
    (Calendar.Day now <= Calendar.Day time)%Z.
Proof.
  intros Y A N H B.
  destruct (FormFacts.handled_numberless E ToString server upstream now aiPrompt
              form form' log H B N)
    as [raw [todo [todo' [L [P Fd]]]]].
  destruct Fd as [_ [_ [_ [[D _] | [d [time [t [Fd [Td [Nd [Dd _]]]]]]]]]]];
    [left; exact D|].
  right. exists time. split; [exact Dd|].
  destruct (ClientFacts.postprocess_returns server now _ _ _ P)
    as [[o [o' [-> ->]]] | [l [_ ->]]]; [|discriminate Fd].
  cbn [field] in Fd. rewrite <- A in Nd.
  exact (ExtractionFacts.postprocess_due_date server now (normalize raw) o o' d time
           Y P Fd Td Nd).
Qed.

Lemma form_due_date_is_not_past_witness :
  AiForm.due_date Runs.form_past = AiForm.due_date Runs.blank_form \/
  exists time,
    AiForm.due_date Runs.form_past = Some time /\
    (Calendar.Day Examples.now0 <= Calendar.Day time)%Z.
Proof.
  apply (form_due_date_is_not_past Sample.engine Runs.no_conversion Sample.engine
           (answering Examples.reply_past) Examples.now0 Examples.raw_report
           Runs.blank_form Runs.form_past
           [extraction_call Sample.engine Examples.now0 Examples.raw_report]).
  - unfold Calendar.four_digit_year, Examples.now0. lia.
  - reflexivity.
  - assert (Q : body (fst (GenerateTodo.POST Sample.engine
                             (answering Examples.reply_past) Examples.now0
                             (inr (JObj [(GenerateTodo.k_prompt,
                                          JStr Examples.raw_report)]))))
                = JObj [(GenerateTodo.k_todo, JObj Runs.answered_past)])
      by (vm_compute; reflexivity).
    rewrite Q. vm_compute. repeat split.
  - vm_compute. reflexivity.
  - vm_compute. discriminate.
Defined.
